(** * turbomcp audit scripts: extraction, usage profiling and classification

    A shallow embedding of the three Python audit scripts
    ([audit_traits.py], [audit_arc_mutex.py], [comprehensive_audit.py]) and
    the properties of their delimiter scan, usage profiler and classifiers.

    Python [str] values are lists of characters, a character being a code
    point below 256.  The character classes ([isspace], the [\s] and [\w]
    of [re]) and [lower] are those of Python on that range; so are [upper]
    and [capitalize] but for the two characters whose upper-case form lies
    above 255.  Python [int] is [Z]. *)

From Stdlib Require Import Ascii String ZArith Lia Bool Arith List.
From Stdlib Require Import DecimalString SpecFloat Sorted Permutation.
Import ListNotations.

Local Open Scope nat_scope.
Local Open Scope list_scope.

(** ** Python strings *)

Module Py.

Definition str := list ascii.

(** A literal. *)
Definition txt (s : string) : str := list_ascii_of_string s.

Definition newline : ascii := "010"%char.

Definition ascii_eqb (a b : ascii) : bool := Ascii.eqb a b.

Fixpoint str_eqb (a b : str) : bool :=
  match a, b with
  | [], [] => true
  | x :: a', y :: b' => ascii_eqb x y && str_eqb a' b'
  | _, _ => false
  end.

(** [s.startswith(p)] *)
Fixpoint startswith (s p : str) {struct p} : bool :=
  match p with
  | [] => true
  | c :: p' =>
      match s with
      | [] => false
      | d :: s' => ascii_eqb c d && startswith s' p'
      end
  end.

(** [s.endswith(p)] *)
Definition endswith (s p : str) : bool :=
  (length p <=? length s) && str_eqb (skipn (length s - length p) s) p.

(** [sub in s] *)
Fixpoint contains (sub s : str) : bool :=
  startswith s sub ||
  match s with
  | [] => false
  | _ :: s' => contains sub s'
  end.

(** [s.count(sub)]: non-overlapping occurrences, scanning left to right.
    [skip] is the number of characters still covered by the last occurrence. *)
Fixpoint count_from (sub s : str) (skip : nat) : nat :=
  match s with
  | [] => 0
  | _ :: s' =>
      match skip with
      | S k => count_from sub s' k
      | O => if startswith s sub
             then S (count_from sub s' (length sub - 1))
             else count_from sub s' 0
      end
  end.

Definition count (s sub : str) : nat :=
  match sub with
  | [] => S (length s)
  | _ => count_from sub s 0
  end.

(** [s.split(sep)] for a one-character separator. *)
Fixpoint split (sep : ascii) (s : str) : list str :=
  match s with
  | [] => [[]]
  | c :: s' =>
      if ascii_eqb c sep then [] :: split sep s'
      else match split sep s' with
           | [] => [[c]]
           | l :: ls => (c :: l) :: ls
           end
  end.

(** [sep.join(parts)] *)
Fixpoint join (sep : str) (parts : list str) : str :=
  match parts with
  | [] => []
  | [p] => p
  | p :: ps => p ++ sep ++ join sep ps
  end.

Definition code (c : ascii) : nat := nat_of_ascii c.

Definition between (lo hi : nat) (c : ascii) : bool :=
  (lo <=? code c) && (code c <=? hi).

(** [c.isspace()], which is also the [\s] class of [re] and what [strip]
    removes: TAB..CR, FS..US, the blank, NEL (133) and the no-break space
    (160). *)
Definition isspace (c : ascii) : bool :=
  between 9 13 c || between 28 32 c || (code c =? 133) || (code c =? 160).

(** [c.isupper()]: A..Z, and the letters 192..214 and 216..222. *)
Definition isupper (c : ascii) : bool :=
  between 65 90 c || between 192 214 c || between 216 222 c.

(** The lower-case letters whose upper-case form is one character of the
    range: a..z, and the letters 224..246 and 248..254. *)
Definition lower_paired (c : ascii) : bool :=
  between 97 122 c || between 224 246 c || between 248 254 c.

(** The [\w] class of [re] for a [str] pattern: the characters for which
    [c.isalnum()] holds, and the underscore.  Below 256 these are the
    digits, the letters of the 7-bit range, the letters 170, 181, 186,
    192..214, 216..246 and 248..255, and the numerals 178, 179, 185 and
    188..190. *)
Definition isword (c : ascii) : bool :=
  between 48 57 c || between 65 90 c || (code c =? 95) || between 97 122 c
  || (code c =? 170) || between 178 179 c || (code c =? 181)
  || between 185 186 c || between 188 190 c || between 192 214 c
  || between 216 246 c || between 248 255 c.

(** [c.lower()] for one character: an upper-case letter is 32 below its
    lower-case form. *)
Definition lower_char (c : ascii) : ascii :=
  if isupper c then ascii_of_nat (code c + 32) else c.
Definition upper_char (c : ascii) : ascii :=
  if lower_paired c then ascii_of_nat (code c - 32) else c.

(** [c.upper()] for one character: the sharp s (223) becomes two letters.
    The upper-case forms of the characters 181 and 255 lie above 255; the
    characters stand for them here, and the scripts only search the result
    for keywords of the 7-bit range. *)
Definition upper_chars (c : ascii) : list ascii :=
  if code c =? 223 then list_ascii_of_string "SS" else [upper_char c].

(** The title-case form [capitalize] gives the first character; the
    characters 181 and 255 stand for theirs as in [upper_chars]. *)
Definition title_chars (c : ascii) : list ascii :=
  if code c =? 223 then list_ascii_of_string "Ss" else [upper_char c].

(** [s.lower()] *)
Definition lower (s : str) : str := map lower_char s.

(** [s.upper()] *)
Definition upper (s : str) : str := flat_map upper_chars s.

(** [s.capitalize()] *)
Definition capitalize (s : str) : str :=
  match s with
  | [] => []
  | c :: s' => title_chars c ++ lower s'
  end.

Fixpoint lstrip (s : str) : str :=
  match s with
  | [] => []
  | c :: s' => if isspace c then lstrip s' else s
  end.

(** [s.strip()] *)
Definition strip (s : str) : str := rev (lstrip (rev (lstrip s))).

(** Normalisation of one slice bound against a length: a negative bound
    counts from the end, and the result is clamped to [0, len]. *)
Definition slice_index (len i : Z) : nat :=
  let j := if (i <? 0)%Z then (i + len)%Z else i in
  Z.to_nat (Z.min len (Z.max 0 j)).

(** [l[a:b]] *)
Definition slice {A} (l : list A) (a b : Z) : list A :=
  let len := Z.of_nat (length l) in
  skipn (slice_index len a) (firstn (slice_index len b) l).

(** [str(n)] for an integer. *)
Definition str_of_int (n : Z) : str :=
  txt (NilZero.string_of_int (Z.to_int n)).

(** [any(f(x) for x in l)] *)
Definition any {A} (f : A -> bool) (l : list A) : bool := existsb f l.

(** [[x] if b else []] *)
Definition when {A} (b : bool) (x : A) : list A := if b then [x] else [].

End Py.

(** ** The fragment of Python's [re] the scripts use

    A backtracking matcher with the priorities of [re]: alternatives are
    tried left to right, repetitions are greedy, and the first complete match
    found from the leftmost start position is the result. *)

Module Re.
Import Py.

Inductive regex : Type :=
| Eps                                  (* the empty pattern *)
| Set_ (p : ascii -> bool)             (* one character of a class *)
| Seq (r1 r2 : regex)
| Alt (r1 r2 : regex)                  (* r1|r2 *)
| Star (r : regex)                     (* r*, greedy *)
| Group (n : nat) (r : regex)          (* capturing group number n *)
| Bol                                  (* ^ under re.MULTILINE *)
| Eol                                  (* $ without re.MULTILINE *)
| WordB.                               (* \b *)

Definition Lit (c : ascii) : regex := Set_ (ascii_eqb c).
(** [.] without re.DOTALL *)
Definition Dot : regex := Set_ (fun c => negb (ascii_eqb c newline)).
Definition Not (c : ascii) : regex := Set_ (fun d => negb (ascii_eqb c d)).
Definition Space : regex := Set_ isspace.
Definition Word : regex := Set_ isword.
Definition Opt (r : regex) : regex := Alt r Eps.
Definition Plus (r : regex) : regex := Seq r (Star r).

Fixpoint Lits (s : str) : regex :=
  match s with
  | [] => Eps
  | [c] => Lit c
  | c :: s' => Seq (Lit c) (Lits s')
  end.

Fixpoint Seqs (rs : list regex) : regex :=
  match rs with
  | [] => Eps
  | [r] => r
  | r :: rs' => Seq r (Seqs rs')
  end.

(** Group spans, most recent first. *)
Definition caps := list (nat * (nat * nat)).

Fixpoint cap_lookup (n : nat) (c : caps) : option (nat * nat) :=
  match c with
  | [] => None
  | (m, sp) :: c' => if Nat.eqb n m then Some sp else cap_lookup n c'
  end.

Record rmatch := { m_start : nat; m_end : nat; m_caps : caps }.

Section Matcher.
Variable s : str.

Definition char_at (pos : nat) : option ascii := nth_error s pos.

Definition word_at (pos : nat) : bool :=
  match char_at pos with
  | Some c => isword c
  | None => false
  end.

Definition at_bol (pos : nat) : bool :=
  match pos with
  | O => true
  | S p => match char_at p with
           | Some c => ascii_eqb c newline
           | None => false
           end
  end.

Definition at_eol (pos : nat) : bool :=
  Nat.eqb pos (length s) ||
  (Nat.eqb (S pos) (length s) &&
   match char_at pos with
   | Some c => ascii_eqb c newline
   | None => false
   end).

Definition at_wordb (pos : nat) : bool :=
  let before := match pos with O => false | S p => word_at p end in
  negb (Bool.eqb before (word_at pos)).

(** The loop of a greedy repetition: try the body once more, and give the
    rest of the pattern its turn when that fails.  An iteration counts only
    when the body consumed a character, so [fuel] bounds the iterations by
    the text left. *)
Fixpoint star_loop
    (body : nat -> caps -> (nat -> caps -> option (nat * caps))
            -> option (nat * caps))
    (k : nat -> caps -> option (nat * caps))
    (fuel : nat) (pos : nat) (c : caps) {struct fuel} : option (nat * caps) :=
  match fuel with
  | O => k pos c
  | S fuel' =>
      match body pos c
              (fun pos' c' =>
                 if (pos <? pos')%nat then star_loop body k fuel' pos' c'
                 else None) with
      | Some res => Some res
      | None => k pos c
      end
  end.

(** [mt r pos c k]: match [r] at [pos] with the group spans [c] so far and
    continue with [k]; [None] makes the matcher backtrack. *)
Fixpoint mt (r : regex) (pos : nat) (c : caps)
    (k : nat -> caps -> option (nat * caps)) {struct r} : option (nat * caps) :=
  match r with
  | Eps => k pos c
  | Set_ p =>
      match char_at pos with
      | Some ch => if p ch then k (S pos) c else None
      | None => None
      end
  | Seq r1 r2 => mt r1 pos c (fun pos' c' => mt r2 pos' c' k)
  | Alt r1 r2 =>
      match mt r1 pos c k with
      | Some res => Some res
      | None => mt r2 pos c k
      end
  | Star r' => star_loop (mt r') k (S (length s - pos)) pos c
  | Group n r' =>
      mt r' pos c (fun pos' c' => k pos' ((n, (pos, pos')) :: c'))
  | Bol => if at_bol pos then k pos c else None
  | Eol => if at_eol pos then k pos c else None
  | WordB => if at_wordb pos then k pos c else None
  end.

(** A match starting exactly at [pos]. *)
Definition match_at (r : regex) (pos : nat) : option rmatch :=
  match mt r pos [] (fun e c => Some (e, c)) with
  | Some (e, c) => Some {| m_start := pos; m_end := e; m_caps := c |}
  | None => None
  end.

(** The leftmost match starting at [pos] or later; [fuel] counts the start
    positions still to try. *)
Fixpoint search_from (r : regex) (pos fuel : nat) : option rmatch :=
  match fuel with
  | O => None
  | S fuel' =>
      match match_at r pos with
      | Some m => Some m
      | None => search_from r (S pos) fuel'
      end
  end.

Definition search_at (r : regex) (pos : nat) : option rmatch :=
  search_from r pos (S (length s - pos)).

(** The successive non-overlapping matches from [pos] on.  After an empty
    match the scan moves one character on. *)
Fixpoint matches_from (r : regex) (pos fuel : nat) : list rmatch :=
  match fuel with
  | O => []
  | S fuel' =>
      match search_at r pos with
      | None => []
      | Some m =>
          m :: matches_from r
                 (if m_start m <? m_end m then m_end m else S (m_end m)) fuel'
      end
  end.

(** [m.group(0)] *)
Definition group0 (m : rmatch) : str :=
  firstn (m_end m - m_start m) (skipn (m_start m) s).

(** [m.group(n)] for a group that took part in the match. *)
Definition group (n : nat) (m : rmatch) : str :=
  match cap_lookup n (m_caps m) with
  | Some (b, e) => firstn (e - b) (skipn b s)
  | None => []
  end.

(** The text with every match removed: [re.sub(r, '', s)]. *)
Fixpoint delete_matches (ms : list rmatch) (pos : nat) : str :=
  match ms with
  | [] => skipn pos s
  | m :: ms' =>
      firstn (m_start m - pos) (skipn pos s) ++ delete_matches ms' (m_end m)
  end.
End Matcher.

Fixpoint has_group (r : regex) : bool :=
  match r with
  | Seq r1 r2 | Alt r1 r2 => has_group r1 || has_group r2
  | Star r' => has_group r'
  | Group _ _ => true
  | _ => false
  end.

(** [re.search(r, s)] *)
Definition search (r : regex) (s : str) : option rmatch := search_at s r 0.

(** [r.finditer(s)] *)
Definition finditer (r : regex) (s : str) : list rmatch :=
  matches_from s r 0 (S (length s)).

(** [re.findall(r, s)]: the text of group 1 when the pattern has a group, of
    the whole match otherwise. *)
Definition findall (r : regex) (s : str) : list str :=
  map (if has_group r then group s 1 else group0 s) (finditer r s).

(** [re.sub(r, '', s)] *)
Definition sub_empty (r : regex) (s : str) : str :=
  delete_matches s (finditer r s) 0.

End Re.

(** ** Files and exceptions *)

Module Fs.
Import Py.

Inductive exn : Type :=
| OSError                (* the file cannot be opened or read *)
| UnicodeDecodeError.    (* the bytes are not UTF-8 *)

(** What [open(path, 'r', encoding='utf-8')] followed by [f.read()] gives. *)
Inductive file : Type :=
| Text (content : str)
| Bad (e : exn).

(** The files below the root directory, in the order [rglob] yields them. *)
Definition corpus := list (str * file).

Inductive result (A : Type) : Type :=
| Ok (a : A)
| Raise (e : exn).
Arguments Ok {A} a.
Arguments Raise {A} e.

Definition bind {A B} (x : result A) (f : A -> result B) : result B :=
  match x with
  | Ok a => f a
  | Raise e => Raise e
  end.

Definition read (f : file) : result str :=
  match f with
  | Text content => Ok content
  | Bad e => Raise e
  end.

(** [Path(root_dir).rglob("*.rs")] *)
Definition rglob_rs (root : corpus) : corpus :=
  filter (fun pf => endswith (fst pf) (txt ".rs")) root.

End Fs.

Declare Scope result_scope.
Notation "x <- e ;; k" := (Fs.bind e (fun x => k))
  (at level 61, e at next level, right associativity) : result_scope.
Local Open Scope result_scope.
Local Open Scope Z_scope.

(** ** audit_traits.py *)

Module AuditTraits.
Import Py Re Fs.

Definition find_rust_files (root_dir : corpus) : corpus := rglob_rs root_dir.

Record trait : Type := {
  name : str;
  file_ : str;
  line : Z;
  method_count : Z;
  methods : list str;
  assoc_types : list str;
  has_generics : bool;
  signature : str;
  body : str
}.

(** The header pattern, compiled with re.MULTILINE (written here with blanks
    between its parts):
    ^ (?P<indent> \s* ) (?: pub (?: \( [^)]* \) )? \s+ )? trait \s+
    (?P<name> \w+ ) (?: < [^>]* > )? \s* (?: : \s* [^{]* )? {
    Group 1 is indent, group 2 is name. *)
Definition trait_pattern : regex :=
  Seqs [ Bol;
         Group 1 (Star Space);
         Opt (Seqs [ Lits (txt "pub");
                     Opt (Seqs [Lit "("; Star (Not ")"); Lit ")"]);
                     Plus Space ]);
         Lits (txt "trait");
         Plus Space;
         Group 2 (Plus Word);
         Opt (Seqs [Lit "<"; Star (Not ">"); Lit ">"]);
         Star Space;
         Opt (Seqs [Lit ":"; Star Space; Star (Not "{")]);
         Lit "{" ]%char.

(** // .* $ *)
Definition comment_pattern : regex :=
  Seqs [Lits (txt "//"); Star Dot; Eol].

(** \b fn \s+ ( \w+ ) *)
Definition fn_pattern : regex :=
  Seqs [WordB; Lits (txt "fn"); Plus Space; Group 1 (Plus Word)].

(** type \s+ ( \w+ ) *)
Definition type_pattern : regex :=
  Seqs [Lits (txt "type"); Plus Space; Group 1 (Plus Word)].

(** The [while pos < len(content) and brace_count > 0] loop; [rest] is
    [content[pos:]].  Returns the final [pos] and [brace_count]. *)
Fixpoint scan_braces (rest : str) (pos : nat) (brace_count : Z) : nat * Z :=
  match rest with
  | [] => (pos, brace_count)
  | ch :: rest' =>
      if brace_count >? 0 then
        let brace_count' :=
          if ascii_eqb ch "{" then brace_count + 1
          else if ascii_eqb ch "}" then brace_count - 1
          else brace_count in
        scan_braces rest' (S pos) brace_count'
      else (pos, brace_count)
  end.

(** [trait_body = content[trait_body_start:pos-1]] after the loop started at
    [start_pos] with [brace_count = 1]. *)
Definition trait_body (content : str) (start_pos : nat) : str :=
  let pos := fst (scan_braces (skipn start_pos content) start_pos 1) in
  slice content (Z.of_nat start_pos) (Z.of_nat pos - 1).

(** The loop over the lines of the body: comments removed, then the [fn]
    names of the line appended. *)
Fixpoint collect_methods (lines : list str) (method_count : Z)
    (methods : list str) : Z * list str :=
  match lines with
  | [] => (method_count, methods)
  | line :: lines' =>
      let line := sub_empty comment_pattern line in
      let fn_matches := findall fn_pattern line in
      collect_methods lines'
        (method_count + Z.of_nat (length fn_matches))
        (methods ++ fn_matches)
  end.

(** The body of the [for match in trait_pattern.finditer(content)] loop. *)
Definition trait_of_match (file_path content : str) (m : rmatch) : trait :=
  let trait_name := group content 2 m in
  let start_pos := m_end m in
  let trait_body := trait_body content start_pos in
  let lines := split newline trait_body in
  let '(method_count, methods) := collect_methods lines 0 [] in
  let assoc_types := findall type_pattern trait_body in
  let has_generics := contains (txt "<") (group0 content m) in
  let signature :=
    strip (slice content (Z.of_nat (m_start m)) (Z.of_nat (m_end m))) in
  {| name := trait_name;
     file_ := file_path;
     line := Z.of_nat (count (slice content 0 (Z.of_nat (m_start m)))
                             [newline]) + 1;
     method_count := method_count;
     methods := methods;
     assoc_types := assoc_types;
     has_generics := has_generics;
     signature := signature;
     body := strip trait_body |}.

Definition traits_of_content (file_path content : str) : list trait :=
  map (trait_of_match file_path content) (finditer trait_pattern content).

(** [extract_traits(file_path)]: the file is read outside any [try]. *)
Definition extract_traits (file_path : str) (f : file) : result (list trait) :=
  content <- read f ;;
  Ok (traits_of_content file_path content).

Record usage : Type := {
  impl_count : Z;
  dyn_usage : Z;
  bound_usage : Z;
  impl_files : list str;
  dyn_files : list str;
  bound_files : list str
}.

(** A name made of word characters, as the group [name] of the header
    pattern yields it.  No character of such a name is special to [re]: put
    into a pattern, the name stands for its own text. *)
Definition word_name (trait_name : str) : Prop :=
  Forall (fun c => isword c = true) trait_name.

(** The three patterns [check_trait_usage] builds by putting the name,
    unescaped, into a pattern text.  They are given here for a [word_name],
    where the name is literal text; what [re] makes of a name with other
    characters is not modelled.

    [f"impl.*{trait_name}"] *)
Definition impl_pattern (trait_name : str) : regex :=
  Seqs [Lits (txt "impl"); Star Dot; Lits trait_name].
(** [f"dyn {trait_name}"] *)
Definition dyn_pattern (trait_name : str) : regex :=
  Lits (txt "dyn " ++ trait_name).
(** [f": {trait_name}"] *)
Definition bound_pattern (trait_name : str) : regex :=
  Lits (txt ": " ++ trait_name).

Definition is_some {A} (o : option A) : bool :=
  match o with Some _ => true | None => false end.

(** The body of the [try] for one file whose text was read. *)
Definition usage_step (trait_name rs_file content : str) (u : usage) : usage :=
  let u :=
    if is_some (search (impl_pattern trait_name) content) then
      {| impl_count := impl_count u
           + Z.of_nat (length (findall (impl_pattern trait_name) content));
         dyn_usage := dyn_usage u; bound_usage := bound_usage u;
         impl_files := impl_files u ++ [rs_file];
         dyn_files := dyn_files u; bound_files := bound_files u |}
    else u in
  let u :=
    if is_some (search (dyn_pattern trait_name) content) then
      {| impl_count := impl_count u;
         dyn_usage := dyn_usage u
           + Z.of_nat (length (findall (dyn_pattern trait_name) content));
         bound_usage := bound_usage u;
         impl_files := impl_files u;
         dyn_files := dyn_files u ++ [rs_file];
         bound_files := bound_files u |}
    else u in
  let u :=
    if is_some (search (bound_pattern trait_name) content) then
      {| impl_count := impl_count u; dyn_usage := dyn_usage u;
         bound_usage := bound_usage u
           + Z.of_nat (length (findall (bound_pattern trait_name) content));
         impl_files := impl_files u; dyn_files := dyn_files u;
         bound_files := bound_files u ++ [rs_file] |}
    else u in
  u.

(** The [for rs_file in find_rust_files(root_dir)] loop with its
    [try ... except Exception: continue]. *)
Fixpoint usage_loop (trait_name : str) (files : corpus) (u : usage) : usage :=
  match files with
  | [] => u
  | (rs_file, f) :: files' =>
      match read f with
      | Ok content =>
          usage_loop trait_name files' (usage_step trait_name rs_file content u)
      | Raise _ => usage_loop trait_name files' u
      end
  end.

Definition usage_init : usage :=
  {| impl_count := 0; dyn_usage := 0; bound_usage := 0;
     impl_files := []; dyn_files := []; bound_files := [] |}.

Definition check_trait_usage (trait_name : str) (root_dir : corpus) : usage :=
  usage_loop trait_name (find_rust_files root_dir) usage_init.

End AuditTraits.

(** ** The declaration classifier of audit_traits.py *)

Module Necessity.
Import Py AuditTraits.

Inductive category : Type := DEFINITELY_REMOVE | MAYBE_REMOVE | KEEP_AS_IS.

Definition truthy {A} (l : list A) : bool :=
  match l with [] => false | _ => true end.

Definition reason_assoc (ti : trait) : str :=
  txt "Has associated types: " ++ join (txt ", ") (assoc_types ti).
Definition reason_dyn (u : usage) : str :=
  txt "Used in trait objects (" ++ str_of_int (dyn_usage u) ++ txt " times)".
Definition reason_impls (u : usage) : str :=
  txt "Multiple implementations (" ++ str_of_int (impl_count u) ++ txt ")".
Definition reason_bound (u : usage) : str :=
  txt "Used as trait bound (" ++ str_of_int (bound_usage u) ++ txt " times)".

(** [analyze_trait_necessity(trait_info, usage)]; each [let] is one
    statement of the function, in its order. *)
Definition analyze_trait_necessity (trait_info : trait) (usage_ : usage)
    : category * list str * list str :=
  let reasons_to_keep : list str := [] in
  let reasons_to_remove : list str := [] in
  (* Single method trait *)
  let reasons_to_remove :=
    if method_count trait_info =? 1
    then reasons_to_remove ++ [txt "Single method trait"]
    else reasons_to_remove in
  (* Has associated types *)
  let reasons_to_keep :=
    if truthy (assoc_types trait_info)
    then reasons_to_keep ++ [reason_assoc trait_info]
    else reasons_to_keep in
  (* Has generics *)
  let reasons_to_keep :=
    if has_generics trait_info
    then reasons_to_keep ++ [txt "Uses generics/lifetimes"]
    else reasons_to_keep in
  (* Used in trait objects *)
  let reasons_to_keep :=
    if dyn_usage usage_ >? 0
    then reasons_to_keep ++ [reason_dyn usage_]
    else reasons_to_keep in
  (* Multiple implementations *)
  let '(reasons_to_keep, reasons_to_remove) :=
    if impl_count usage_ >? 1
    then (reasons_to_keep ++ [reason_impls usage_], reasons_to_remove)
    else if impl_count usage_ =? 0
    then (reasons_to_keep, reasons_to_remove ++ [txt "No implementations found"])
    else if impl_count usage_ =? 1
    then (reasons_to_keep, reasons_to_remove ++ [txt "Only one implementation"])
    else (reasons_to_keep, reasons_to_remove) in
  (* Used as bounds *)
  let reasons_to_keep :=
    if bound_usage usage_ >? 2
    then reasons_to_keep ++ [reason_bound usage_]
    else reasons_to_keep in
  (* Determine recommendation *)
  if negb (truthy reasons_to_keep) && truthy reasons_to_remove
  then (DEFINITELY_REMOVE, reasons_to_keep, reasons_to_remove)
  else if (Z.of_nat (length reasons_to_keep) <=? 1)
          && (Z.of_nat (length reasons_to_remove) >=? 2)
  then (MAYBE_REMOVE, reasons_to_keep, reasons_to_remove)
  else (KEEP_AS_IS, reasons_to_keep, reasons_to_remove).

Definition cat_of (r : category * list str * list str) : category :=
  fst (fst r).
Definition keep_of (r : category * list str * list str) : list str :=
  snd (fst r).
Definition remove_of (r : category * list str * list str) : list str :=
  snd r.

(** The six rules taken one by one: what each contributes to the keep list
    and to the remove list. *)
Definition keep_rules (ti : trait) (u : usage) : list str :=
  when (truthy (assoc_types ti)) (reason_assoc ti)
  ++ when (has_generics ti) (txt "Uses generics/lifetimes")
  ++ when (dyn_usage u >? 0) (reason_dyn u)
  ++ when (impl_count u >? 1) (reason_impls u)
  ++ when (bound_usage u >? 2) (reason_bound u).

Definition remove_rules (ti : trait) (u : usage) : list str :=
  when (method_count ti =? 1) (txt "Single method trait")
  ++ when (impl_count u =? 0) (txt "No implementations found")
  ++ when (impl_count u =? 1) (txt "Only one implementation").

End Necessity.

(** ** Binary64 arithmetic for the one float expression of the scripts *)

Module Float.

Definition prec : Z := 53.
Definition emax : Z := 1024.

(** The literal [0.7]: the double 0x3FE6666666666666. *)
Definition f0_7 : spec_float := S754_finite false 6305039478318694 (-53).

(** Conversion of an [int] operand, rounding to nearest even.  The counts
    converted here are bounded by the length of a text, far below the
    range where Python raises OverflowError. *)
Definition of_int (n : Z) : spec_float := binary_normalize prec emax n 0 false.

Definition mul (x y : spec_float) : spec_float := SFmul prec emax x y.

(** [n > f] for an [int] and a [float]: Python compares the exact values. *)
Definition int_gt (n : Z) (f : spec_float) : bool :=
  match f with
  | S754_zero _ => n >? 0
  | S754_infinity negative => negative
  | S754_nan => false
  | S754_finite negative m e =>
      let v := if negative then Z.neg m else Z.pos m in
      if e >=? 0 then n >? v * 2 ^ e else n * 2 ^ (- e) >? v
  end.

End Float.

(** ** audit_arc_mutex.py *)

Module AuditArcMutex.
Import Py Re Fs.

(** [find_rust_files]: the [.rs] files outside any [/target/] directory. *)
Definition find_rust_files (root_dir : corpus) : corpus :=
  filter (fun pf => negb (contains (txt "/target/") (fst pf))) (rglob_rs root_dir).

Definition is_test_file (path_str : str) : bool :=
  contains (txt "/tests/") path_str ||
  contains (txt "/test/") path_str ||
  endswith path_str (txt "_test.rs") ||
  endswith path_str (txt "_tests.rs") ||
  contains (txt "test_") path_str ||
  contains (txt "tests.rs") path_str.

Record occurrence : Type := {
  file_ : str;
  line : Z;
  inner_type : str;
  full_match : str;
  line_content : str;
  context : str
}.

(** Arc<Mutex<( [^>]+ (?: < [^>]+ > )? )>> *)
Definition pattern : regex :=
  Seqs [ Lits (txt "Arc<Mutex<");
         Group 1 (Seq (Plus (Not ">"))
                      (Opt (Seqs [Lit "<"; Plus (Not ">"); Lit ">"])));
         Lits (txt ">>") ]%char.

(** The lines [lines[context_start:context_end]] kept around line
    [line_num] (1-based, as [enumerate(lines, 1)] counts). *)
Definition context_lines (lines : list str) (line_num : Z) : list str :=
  let context_start := Z.max 0 (line_num - 3) in
  let context_end := Z.min (Z.of_nat (length lines)) (line_num + 3) in
  slice lines context_start context_end.

(** The body of [for match in re.finditer(pattern, line)]. *)
Definition occurrence_of_match (file_path : str) (lines : list str)
    (line_num : Z) (line : str) (m : rmatch) : occurrence :=
  {| file_ := file_path;
     line := line_num;
     inner_type := group line 1 m;
     full_match := group0 line m;
     line_content := strip line;
     context := join [newline] (context_lines lines line_num) |}.

(** [for line_num, line in enumerate(lines, 1)] over the lines still to
    visit; [lines] is the whole list. *)
Fixpoint scan_lines (file_path : str) (lines : list str) (todo : list str)
    (line_num : Z) : list occurrence :=
  match todo with
  | [] => []
  | line :: todo' =>
      map (occurrence_of_match file_path lines line_num line)
          (finditer pattern line)
      ++ scan_lines file_path lines todo' (line_num + 1)
  end.

Definition occurrences_of_content (file_path content : str) : list occurrence :=
  let lines := split newline content in
  scan_lines file_path lines lines 1.

(** [extract_arc_mutex_usage(file_path)]: the file is read outside any
    [try]. *)
Definition extract_arc_mutex_usage (file_path : str) (f : file)
    : result (list occurrence) :=
  content <- read f ;;
  Ok (occurrences_of_content file_path content).

Definition simple_types : list str :=
  map txt ["bool"; "i32"; "i64"; "u32"; "u64"; "f32"; "f64"; "usize"; "isize"]%string.

(** \.lock\(\)\. (?: unwrap\(\) | expect ) *)
Definition lock_pattern : regex :=
  Seq (Lits (txt ".lock()."))
      (Alt (Lits (txt "unwrap()")) (Lits (txt "expect"))).

Definition read_only_patterns : list regex :=
  [ Seqs [Lits (txt ".lock()"); Star Dot; Lits (txt ".get(")];
    Seqs [Lits (txt ".lock()"); Star Dot; Lits (txt ".contains")];
    Seqs [Lits (txt ".lock()"); Star Dot; Lits (txt ".iter(")];
    Seqs [Lits (txt "let "); Star Dot; Lits (txt " = "); Star Dot;
          Lits (txt ".lock()")] ].

Definition thread_keywords : list str :=
  map txt ["spawn"; "thread::"; "tokio::spawn"; "async"; "send"; "sync"]%string.

Definition sum_nat (l : list nat) : nat := fold_right Nat.add 0%nat l.

Definition clone_count (file_content : str) : Z :=
  Z.of_nat (count file_content (txt ".clone()")).
Definition locks_in_context (u : occurrence) : Z :=
  Z.of_nat (length (findall lock_pattern (context u))).
Definition reads_in_context (u : occurrence) : Z :=
  Z.of_nat (sum_nat (map (fun p => length (findall p (context u)))
                         read_only_patterns)).

(** The conditions of the six [if] statements, in the order of the code. *)
Definition chk_simple (u : occurrence) (file_content : str) : bool :=
  any (fun t => startswith (inner_type u) t) simple_types.
Definition chk_clone (u : occurrence) (file_content : str) : bool :=
  clone_count file_content >? 5.
Definition chk_read_heavy (u : occurrence) (file_content : str) : bool :=
  Float.int_gt (reads_in_context u)
               (Float.mul (Float.of_int (locks_in_context u)) Float.f0_7).
Definition chk_no_threading (u : occurrence) (file_content : str) : bool :=
  negb (any (fun keyword => contains keyword (lower file_content))
            thread_keywords).
Definition chk_channel (u : occurrence) (file_content : str) : bool :=
  contains (txt "sender") (lower (inner_type u)) ||
  contains (txt "receiver") (lower (inner_type u)) ||
  contains (txt "channel") (lower file_content).
Definition chk_defensive (u : occurrence) (file_content : str) : bool :=
  contains (txt ".clone()") (line_content u) &&
  contains (txt "Arc::new(Mutex::new") (line_content u).

Inductive severity : Type := LOW | MEDIUM | HIGH.

Record analysis : Type := {
  issues : list str;
  recommendations : list str;
  severity_ : severity
}.

(** The two lists the function appends to. *)
Definition lists : Type := (list str * list str)%type.
Definition add_issue (x : str) (st : lists) : lists := (fst st ++ [x], snd st).
Definition add_rec (x : str) (st : lists) : lists := (fst st, snd st ++ [x]).

(** One definition per [if] statement of [analyze_usage_pattern]. *)
Definition step_simple (u : occurrence) (file_content : str) (st : lists) : lists :=
  if chk_simple u file_content then
    add_rec (txt "Use Atomic" ++ capitalize (inner_type u) ++ txt " instead")
      (add_issue (txt "Simple atomic type - consider using atomic primitives") st)
  else st.
Definition step_clone (u : occurrence) (file_content : str) (st : lists) : lists :=
  if chk_clone u file_content then
    add_issue (txt "File has " ++ str_of_int (clone_count file_content)
               ++ txt " .clone() calls - possible excessive sharing") st
  else st.
Definition step_read_heavy (u : occurrence) (file_content : str) (st : lists) : lists :=
  if chk_read_heavy u file_content then
    add_rec (txt "Consider Arc<RwLock<T>> for better read concurrency")
      (add_issue (txt "Appears to be read-heavy") st)
  else st.
Definition step_no_threading (u : occurrence) (file_content : str) (st : lists) : lists :=
  if chk_no_threading u file_content then
    add_rec (txt "Might not need Arc - consider Rc<RefCell<T>> or plain ownership")
      (add_issue (txt "No obvious threading/async usage in file") st)
  else st.
Definition step_channel (u : occurrence) (file_content : str) (st : lists) : lists :=
  if chk_channel u file_content then
    add_rec (txt "Consider using channels for producer/consumer pattern") st
  else st.
Definition step_defensive (u : occurrence) (file_content : str) (st : lists) : lists :=
  if chk_defensive u file_content then
    add_issue (txt "Created and immediately cloned - might be defensive programming") st
  else st.

(** The heuristic checks, in the order the function runs them. *)
Definition steps : list (occurrence -> str -> lists -> lists) :=
  [step_simple; step_clone; step_read_heavy; step_no_threading;
   step_channel; step_defensive].
Definition checks : list (occurrence -> str -> bool) :=
  [chk_simple; chk_clone; chk_read_heavy; chk_no_threading;
   chk_channel; chk_defensive].

Definition severity_of (n_issues : Z) : severity :=
  if n_issues >=? 3 then HIGH else if n_issues >=? 1 then MEDIUM else LOW.

Definition analyze_usage_pattern (u : occurrence) (file_content : str) : analysis :=
  let st : lists := ([], []) in
  let st := step_simple u file_content st in
  let st := step_clone u file_content st in
  let st := step_read_heavy u file_content st in
  let st := step_no_threading u file_content st in
  let st := step_channel u file_content st in
  let st := step_defensive u file_content st in
  {| issues := fst st;
     recommendations := snd st;
     severity_ := severity_of (Z.of_nat (length (fst st))) |}.

End AuditArcMutex.

(** ** comprehensive_audit.py *)

Module ComprehensiveAudit.
Import Py.

Definition is_test_file (path_str : str) : bool :=
  contains (txt "/tests/") path_str ||
  contains (txt "/test/") path_str ||
  endswith path_str (txt "_test.rs") ||
  endswith path_str (txt "_tests.rs") ||
  contains (txt "test_") path_str ||
  contains (txt "tests.rs") path_str ||
  contains (txt "benches/") path_str.

End ComprehensiveAudit.

(** ** The collecting loops of the two [main] functions *)

Module TraitsMain.
Import Py Fs AuditTraits Necessity.

(** The loop [for rs_file in find_rust_files(root_dir)] that extends
    [all_traits] with [extract_traits(rs_file)]. *)
Fixpoint collect_traits (files : corpus) (all_traits : list trait)
    : result (list trait) :=
  match files with
  | [] => Ok all_traits
  | (rs_file, f) :: files' =>
      traits <- extract_traits rs_file f ;;
      collect_traits files' (all_traits ++ traits)
  end.

Record item : Type := {
  item_category : category;
  item_trait : trait;
  item_usage : usage;
  keep_reasons : list str;
  remove_reasons : list str
}.

(** The loop over [by_method_count[1]]. *)
Definition categorize (root_dir : corpus) (t : trait) : item :=
  let u := check_trait_usage (name t) root_dir in
  let r := analyze_trait_necessity t u in
  {| item_category := cat_of r; item_trait := t; item_usage := u;
     keep_reasons := keep_of r; remove_reasons := remove_of r |}.

(** [main] up to the categorisation: all traits and the categorised
    single-method ones. *)
Definition main (root_dir : corpus) : result (list trait * list item) :=
  all_traits <- collect_traits (find_rust_files root_dir) [] ;;
  let single_method_traits :=
    filter (fun t => method_count t =? 1) all_traits in
  Ok (all_traits, map (categorize root_dir) single_method_traits).

End TraitsMain.

Module ArcMutexMain.
Import Py Fs AuditArcMutex.

Record report : Type := {
  all_usages : list (occurrence * analysis);
  test_usages : list (occurrence * analysis);
  prod_usages : list (occurrence * analysis)
}.

(** The inner [for usage in usages] loop. *)
Fixpoint add_usages (rs_file file_content : str) (usages : list occurrence)
    (r : report) : report :=
  match usages with
  | [] => r
  | u :: usages' =>
      let a := analyze_usage_pattern u file_content in
      let r :=
        if is_test_file rs_file
        then {| all_usages := all_usages r;
                test_usages := test_usages r ++ [(u, a)];
                prod_usages := prod_usages r |}
        else {| all_usages := all_usages r;
                test_usages := test_usages r;
                prod_usages := prod_usages r ++ [(u, a)] |} in
      add_usages rs_file file_content usages'
        {| all_usages := all_usages r ++ [(u, a)];
           test_usages := test_usages r;
           prod_usages := prod_usages r |}
  end.

(** [for rs_file in find_rust_files(root_dir)] of [main]. *)
Fixpoint collect (files : corpus) (r : report) : result report :=
  match files with
  | [] => Ok r
  | (rs_file, f) :: files' =>
      usages <- extract_arc_mutex_usage rs_file f ;;
      match usages with
      | [] => collect files' r
      | _ =>
          file_content <- read f ;;
          collect files' (add_usages rs_file file_content usages r)
      end
  end.

Definition main (root_dir : corpus) : result report :=
  collect (find_rust_files root_dir)
    {| all_usages := []; test_usages := []; prod_usages := [] |}.

End ArcMutexMain.

(** ** Notions the properties are stated with *)

Module Spec.
Import Py Re Fs.

(** Text whose braces pair up: the closing brace that ends a pair is the
    textually matching one. *)
Inductive balanced : str -> Prop :=
| bal_nil : balanced []
| bal_char (c : ascii) (s : str) :
    c <> "{"%char -> c <> "}"%char -> balanced s -> balanced (c :: s)
| bal_pair (a b : str) :
    balanced a -> balanced b -> balanced ("{"%char :: a ++ "}"%char :: b).

(** [n] nested pairs around [s]. *)
Fixpoint nest (n : nat) (s : str) : str :=
  match n with
  | O => s
  | S n' => "{"%char :: nest n' s ++ ["}"%char]
  end.

Definition substring (sub s : str) : Prop :=
  exists pre post, s = pre ++ sub ++ post.
Definition suffix (suf s : str) : Prop :=
  exists pre, s = pre ++ suf.

(** The units of a corpus whose text can be read, with their text. *)
Fixpoint readable (files : corpus) : list (str * str) :=
  match files with
  | [] => []
  | (p, Text content) :: files' => (p, content) :: readable files'
  | (_, Bad _) :: files' => readable files'
  end.

(** Number of matches of [r] in one text. *)
Definition matches_in (r : regex) (content : str) : Z :=
  Z.of_nat (length (findall r content)).

(** Sum over the units of the per-unit number of matches. *)
Definition total_matches (r : regex) (units : list (str * str)) : Z :=
  fold_right (fun pc acc => matches_in r (snd pc) + acc) 0 units.

(** The units with at least one match, in corpus order. *)
Definition units_matching (r : regex) (units : list (str * str)) : list str :=
  map fst (filter (fun pc => 1 <=? matches_in r (snd pc)) units).

(** A path names test code by convention: one of its directory segments is
    [tests] or [test], or its name ends with a test suffix. *)
Definition dir_segments (path : str) : list str :=
  removelast (split "/"%char path).
Definition has_tests_segment (path : str) : bool :=
  existsb (fun seg => str_eqb seg (txt "tests") || str_eqb seg (txt "test"))
          (dir_segments path).
Definition has_test_suffix (path : str) : bool :=
  endswith path (txt "_test.rs") || endswith path (txt "_tests.rs").
Definition test_by_convention (path : str) : bool :=
  has_tests_segment path || has_test_suffix path.

Definition sev_rank (s : AuditArcMutex.severity) : Z :=
  match s with
  | AuditArcMutex.LOW => 0
  | AuditArcMutex.MEDIUM => 1
  | AuditArcMutex.HIGH => 2
  end.
Definition sev_le (a b : AuditArcMutex.severity) : Prop :=
  sev_rank a <= sev_rank b.

(** The decision as a function of the two finished lists. *)
Definition decision (keep remove : list str) : Necessity.category :=
  if negb (Necessity.truthy keep) && Necessity.truthy remove
  then Necessity.DEFINITELY_REMOVE
  else if (length keep <=? 1)%nat && (2 <=? length remove)%nat
  then Necessity.MAYBE_REMOVE
  else Necessity.KEEP_AS_IS.

(** What a step does to the lengths of the two lists. *)
Definition grows (step : AuditArcMutex.lists -> AuditArcMutex.lists)
    (st : AuditArcMutex.lists) (di dr : nat) : Prop :=
  length (fst (step st)) = (length (fst st) + di)%nat
  /\ length (snd (step st)) = (length (snd st) + dr)%nat.

Definition b2z (b : bool) : Z := if b then 1 else 0.
Definition b2n (b : bool) : nat := if b then 1%nat else 0%nat.

(** The number of heuristic checks that evaluate true on an input. *)
Definition true_checks (u : AuditArcMutex.occurrence) (fc : str) : nat :=
  length (filter (fun chk => chk u fc) AuditArcMutex.checks).

(** The checks that report an issue when true: all but the channel check. *)
Definition issue_checks : list (AuditArcMutex.occurrence -> str -> bool) :=
  [ AuditArcMutex.chk_simple; AuditArcMutex.chk_clone;
    AuditArcMutex.chk_read_heavy; AuditArcMutex.chk_no_threading;
    AuditArcMutex.chk_defensive ].
Definition true_issue_checks (u : AuditArcMutex.occurrence) (fc : str) : nat :=
  length (filter (fun chk => chk u fc) issue_checks).

End Spec.

(** ** Samples *)

Module Samples.
Import Py Re Fs AuditArcMutex.

Definition lines_text (ls : list string) : str :=
  join [newline] (map txt ls).

(** A corpus of three units, the second of which is not valid UTF-8. *)
Definition unit_a : str * file :=
  (txt "/repo/src/a.rs",
   Text (lines_text [ "trait T {"; "fn f();"; "}"; "impl T for X {}";
                      "static S: Arc<Mutex<u32>> = x;" ]%string)).
Definition unit_bad : str * file :=
  (txt "/repo/src/bad.rs", Bad UnicodeDecodeError).
Definition unit_c : str * file :=
  (txt "/repo/src/c.rs", Text (txt "impl T for Y {}")).

(** Nine lines with one occurrence on the fifth. *)
Definition nine_lines : str :=
  lines_text [ "l1"; "l2"; "l3"; "l4"; "let s: Arc<Mutex<State>> = new();";
               "l6"; "l7"; "l8"; "l9" ]%string.

(** A unit that spawns tasks and guards a sender. *)
Definition sender_text : str :=
  lines_text [ "use tokio::spawn;";
               "let tx: Arc<Mutex<Sender<u8>>> = make();" ]%string.
Definition sender_occurrence : occurrence :=
  {| file_ := txt "/repo/src/tx.rs";
     line := 2;
     inner_type := txt "Sender<u8";
     full_match := txt "Arc<Mutex<Sender<u8>>";
     line_content := txt "let tx: Arc<Mutex<Sender<u8>>> = make();";
     context := sender_text |}.

(** The same declaration in a unit without the import and with six clones. *)
Definition cloning_text : str :=
  lines_text [ "let tx: Arc<Mutex<Sender<u8>>> = make();";
               "a.clone(); b.clone(); c.clone();";
               "d.clone(); e.clone(); f.clone();" ]%string.
Definition cloning_occurrence : occurrence :=
  {| file_ := txt "/repo/src/tx.rs";
     line := 1;
     inner_type := txt "Sender<u8";
     full_match := txt "Arc<Mutex<Sender<u8>>";
     line_content := txt "let tx: Arc<Mutex<Sender<u8>>> = make();";
     context := cloning_text |}.

(** A unit that spawns threads, guards a plain state and clones six times. *)
Definition clone_only_text : str :=
  lines_text [ "use std::thread::spawn;";
               "let s: Arc<Mutex<State>> = make();";
               "a.clone(); b.clone(); c.clone();";
               "d.clone(); e.clone(); f.clone();" ]%string.
Definition clone_only_occurrence : occurrence :=
  {| file_ := txt "/repo/src/st.rs";
     line := 2;
     inner_type := txt "State";
     full_match := txt "Arc<Mutex<State>>";
     line_content := txt "let s: Arc<Mutex<State>> = make();";
     context := clone_only_text |}.

End Samples.

Module TraitSamples.
Import Py Fs Spec AuditTraits.

(** An unbalanced declaration: the header of [T] and a member, with no
    closing brace before the end of the text. *)
Definition unclosed_text : str :=
  txt "trait T {" ++ [newline] ++ txt "fn f();".

(** A declaration whose body is three nested pairs around one member. *)
Definition nested_body : str := nest 3 (txt "fn f();").
Definition nested_text : str :=
  txt "pub trait T {" ++ nested_body ++ txt "} fn g() {}".

(** A declaration on one line, with a blank after the opening brace and
    before the closing one. *)
Definition spaced_text : str := txt "trait T { fn f(); }".

(** A two-member declaration implemented once. *)
Definition sample_trait : trait :=
  {| name := txt "Handler"; file_ := txt "src/h.rs"; line := 3;
     method_count := 2; methods := [txt "handle"; txt "close"];
     assoc_types := []; has_generics := false;
     signature := txt "pub trait Handler {"; body := txt "" |}.
Definition sample_usage : usage :=
  {| impl_count := 1; dyn_usage := 0; bound_usage := 0;
     impl_files := [txt "src/h.rs"]; dyn_files := []; bound_files := [] |}.

End TraitSamples.

(** ** The analyzers of comprehensive_audit.py *)

Module Analyzers.
Import Py Re Fs.

(** [find_rust_files(root_dir)] with its default [exclude_target=True]. *)
Definition find_rust_files (root_dir : corpus) : corpus :=
  filter (fun pf => negb (contains (txt "/target/") (fst pf))) (rglob_rs root_dir).

(** A [dict] with insertion order: [d[k] = v]. *)
Fixpoint dict_set {V} (d : list (str * V)) (k : str) (v : V) : list (str * V) :=
  match d with
  | [] => [(k, v)]
  | (k', v') :: d' =>
      if str_eqb k' k then (k, v) :: d' else (k', v') :: dict_set d' k v
  end.

(** [d.get(k)] *)
Fixpoint dict_get {V} (d : list (str * V)) (k : str) : option V :=
  match d with
  | [] => None
  | (k', v') :: d' => if str_eqb k' k then Some v' else dict_get d' k
  end.

(** [sorted(l, key=..., reverse=True)]: greater keys first, and equal keys
    in the order they had. *)
Fixpoint insert_desc {A} (key : A -> Z) (x : A) (l : list A) : list A :=
  match l with
  | [] => [x]
  | y :: ys => if key x <? key y then y :: insert_desc key x ys else x :: y :: ys
  end.
Definition sorted_desc {A} (key : A -> Z) (l : list A) : list A :=
  fold_right (insert_desc key) [] l.

(** *** analyze_clone_usage *)

Record hot_spot : Type := {
  hs_file : str;
  hs_count : Z;
  hs_is_test : bool
}.

Record clone_stats : Type := {
  total : Z;
  by_file : list (str * Z);
  hot_spots : list hot_spot
}.

(** The first loop: the running total and the per-file dictionary. *)
Fixpoint clone_loop (files : corpus) (total : Z) (by_file : list (str * Z))
    : result (Z * list (str * Z)) :=
  match files with
  | [] => Ok (total, by_file)
  | (rs_file, f) :: files' =>
      content <- read f ;;
      let count_ := Z.of_nat (count content (txt ".clone()")) in
      if count_ >? 0
      then clone_loop files' (total + count_) (dict_set by_file rs_file count_)
      else clone_loop files' total by_file
  end.

(** The second loop, over [sorted_files[:20]]. *)
Fixpoint hot_loop (items : list (str * Z)) (hot : list hot_spot) : list hot_spot :=
  match items with
  | [] => hot
  | (file, count_) :: items' =>
      if count_ >? 10
      then hot_loop items'
             (hot ++ [ {| hs_file := file; hs_count := count_;
                          hs_is_test := ComprehensiveAudit.is_test_file file |} ])
      else hot_loop items' hot
  end.

Definition analyze_clone_usage (root_dir : corpus) : result clone_stats :=
  tb <- clone_loop (find_rust_files root_dir) 0 [] ;;
  let sorted_files := sorted_desc snd (snd tb) in
  Ok {| total := fst tb;
        by_file := snd tb;
        hot_spots := hot_loop (slice sorted_files 0 20) [] |}.

(** *** analyze_todos *)

(** [f.readlines()]: the lines with their newline. *)
Fixpoint readlines (s : str) : list str :=
  match s with
  | [] => []
  | c :: s' =>
      if ascii_eqb c newline then [c] :: readlines s'
      else match readlines s' with
           | [] => [[c]]
           | l :: ls => (c :: l) :: ls
           end
  end.

(** [s.split(sep, 1)[1]] when [sep] occurs in [s]. *)
Fixpoint after_first (sep s : str) : option str :=
  if startswith s sep then Some (skipn (length sep) s)
  else match s with
       | [] => None
       | _ :: s' => after_first sep s'
       end.

Record todo : Type := {
  td_file : str;
  td_line : Z;
  td_comment : str;
  td_is_test : bool
}.

Definition keywords : list str :=
  map txt ["TODO"; "FIXME"; "XXX"; "HACK"]%string.

Definition todos_init : list (str * list todo) :=
  map (fun k => (k, [])) keywords.

(** [todos[keyword].append(entry)] *)
Fixpoint dict_append {V} (d : list (str * list V)) (k : str) (v : V)
    : list (str * list V) :=
  match d with
  | [] => []
  | (k', vs) :: d' =>
      if str_eqb k' k then (k', vs ++ [v]) :: d'
      else (k', vs) :: dict_append d' k v
  end.

(** The comment kept for a line. *)
Definition comment_of (line : str) : str :=
  let comment := strip line in
  if contains (txt "//") comment
  then match after_first (txt "//") comment with
       | Some rest => strip rest
       | None => comment
       end
  else comment.

(** [for keyword in todos.keys()] for one line. *)
Fixpoint keyword_loop (rs_file : str) (line_num : Z) (line : str)
    (keys : list str) (todos : list (str * list todo)) : list (str * list todo) :=
  match keys with
  | [] => todos
  | keyword :: keys' =>
      let todos :=
        if contains keyword (upper line)
        then dict_append todos keyword
               {| td_file := rs_file; td_line := line_num;
                  td_comment := comment_of line;
                  td_is_test := ComprehensiveAudit.is_test_file rs_file |}
        else todos in
      keyword_loop rs_file line_num line keys' todos
  end.

(** [for line_num, line in enumerate(lines, 1)] *)
Fixpoint line_loop (rs_file : str) (lines : list str) (line_num : Z)
    (todos : list (str * list todo)) : list (str * list todo) :=
  match lines with
  | [] => todos
  | line :: lines' =>
      line_loop rs_file lines' (line_num + 1)
        (keyword_loop rs_file line_num line (map fst todos) todos)
  end.

Fixpoint todo_loop (files : corpus) (todos : list (str * list todo))
    : result (list (str * list todo)) :=
  match files with
  | [] => Ok todos
  | (rs_file, f) :: files' =>
      content <- read f ;;
      todo_loop files' (line_loop rs_file (readlines content) 1 todos)
  end.

Definition analyze_todos (root_dir : corpus) : result (list (str * list todo)) :=
  todo_loop (find_rust_files root_dir) todos_init.

(** *** analyze_box_usage *)

Record box_file : Type := {
  bf_file : str;
  bf_box_dyn : Z;
  bf_box_dyn_error : Z;
  bf_is_test : bool
}.

Record box_stats : Type := {
  box_dyn : Z;
  box_dyn_error : Z;
  files_with_box : list box_file
}.

(** Box<dyn *)
Definition box_dyn_pattern : regex := Lits (txt "Box<dyn").
(** Result< .* Box<dyn .* Error *)
Definition box_dyn_error_pattern : regex :=
  Seqs [ Lits (txt "Result<"); Star Dot; Lits (txt "Box<dyn"); Star Dot;
         Lits (txt "Error") ].

Fixpoint box_loop (files : corpus) (st : box_stats) : result box_stats :=
  match files with
  | [] => Ok st
  | (rs_file, f) :: files' =>
      content <- read f ;;
      let box_dyn_count := Z.of_nat (length (findall box_dyn_pattern content)) in
      let box_dyn_error_count :=
        Z.of_nat (length (findall box_dyn_error_pattern content)) in
      if (box_dyn_count >? 0) || (box_dyn_error_count >? 0)
      then box_loop files'
             {| box_dyn := box_dyn st + box_dyn_count;
                box_dyn_error := box_dyn_error st + box_dyn_error_count;
                files_with_box := files_with_box st
                  ++ [ {| bf_file := rs_file;
                          bf_box_dyn := box_dyn_count;
                          bf_box_dyn_error := box_dyn_error_count;
                          bf_is_test := ComprehensiveAudit.is_test_file rs_file |} ] |}
      else box_loop files' st
  end.

Definition analyze_box_usage (root_dir : corpus) : result box_stats :=
  box_loop (find_rust_files root_dir)
    {| box_dyn := 0; box_dyn_error := 0; files_with_box := [] |}.

(** *** analyze_string_allocations *)

(** The four patterns, each with its text, which is its key in
    [by_pattern]. *)
Definition alloc_patterns : list (str * regex) :=
  [ (txt "\.to_string\(\)", Lits (txt ".to_string()"));
    (txt "\.to_owned\(\)", Lits (txt ".to_owned()"));
    (txt "String::from\(", Lits (txt "String::from("));
    (txt "format!\(", Lits (txt "format!(")) ].

Record alloc_stats : Type := {
  al_total : Z;
  al_by_pattern : list (str * Z);
  al_hot_spots : list hot_spot
}.

(** [d[k] += n] on a [defaultdict(int)]. *)
Definition dict_add (d : list (str * Z)) (k : str) (n : Z) : list (str * Z) :=
  match dict_get d k with
  | Some v => dict_set d k (v + n)
  | None => dict_set d k (0 + n)
  end.

(** [for pattern in patterns] for one file; the state is the total, the
    dictionary and [file_total]. *)
Fixpoint pattern_loop (content : str) (patterns : list (str * regex))
    (st : Z * list (str * Z) * Z) : Z * list (str * Z) * Z :=
  match patterns with
  | [] => st
  | (pattern, r) :: patterns' =>
      let '(total, by_pattern, file_total) := st in
      let count_ := Z.of_nat (length (findall r content)) in
      pattern_loop content patterns'
        (total + count_, dict_add by_pattern pattern count_, file_total + count_)
  end.

Fixpoint alloc_loop (files : corpus) (st : alloc_stats) : result alloc_stats :=
  match files with
  | [] => Ok st
  | (rs_file, f) :: files' =>
      content <- read f ;;
      let '(total, by_pattern, file_total) :=
        pattern_loop content alloc_patterns (al_total st, al_by_pattern st, 0) in
      alloc_loop files'
        {| al_total := total;
           al_by_pattern := by_pattern;
           al_hot_spots :=
             if file_total >? 20
             then al_hot_spots st
                  ++ [ {| hs_file := rs_file; hs_count := file_total;
                          hs_is_test := ComprehensiveAudit.is_test_file rs_file |} ]
             else al_hot_spots st |}
  end.

Definition analyze_string_allocations (root_dir : corpus) : result alloc_stats :=
  alloc_loop (find_rust_files root_dir)
    {| al_total := 0; al_by_pattern := []; al_hot_spots := [] |}.

End Analyzers.

Module AnalyzerSpec.
Import Py Re Fs Analyzers.

(** The number of [.clone()] calls of a text. *)
Definition clone_count_of (content : str) : Z :=
  Z.of_nat (count content (txt ".clone()")).

(** The sum of a measure over the texts of a list of units. *)
Definition sum_over (f : str -> Z) (units : list (str * str)) : Z :=
  fold_right (fun pc acc => f (snd pc) + acc) 0 units.

(** The sum of the values of a dictionary. *)
Definition sum_values (d : list (str * Z)) : Z :=
  fold_right (fun kv acc => snd kv + acc) 0 d.

(** The record [analyze_clone_usage] makes for a dictionary item. *)
Definition hot_of (fc : str * Z) : hot_spot :=
  {| hs_file := fst fc; hs_count := snd fc;
     hs_is_test := ComprehensiveAudit.is_test_file (fst fc) |}.

(** Descending order of key. *)
Definition ge_key {A} (key : A -> Z) (a b : A) : Prop := key b <= key a.

(** The units with a clone call, each with its number of calls. *)
Definition cloning_units (units : list (str * str)) : list (str * Z) :=
  map (fun pc => (fst pc, clone_count_of (snd pc)))
      (filter (fun pc => clone_count_of (snd pc) >? 0) units).

(** The entry [analyze_todos] makes for a line. *)
Definition todo_of (rs_file : str) (line_num : Z) (line : str) : todo :=
  {| td_file := rs_file; td_line := line_num;
     td_comment := comment_of line;
     td_is_test := ComprehensiveAudit.is_test_file rs_file |}.

(** Whether a line mentions a keyword, in any letter case. *)
Definition mentions (keyword line : str) : bool :=
  contains keyword (upper line).

(** The entries of one keyword for the lines of a unit, numbered from
    [line_num]. *)
Fixpoint entries_of_lines (rs_file keyword : str) (lines : list str)
    (line_num : Z) : list todo :=
  match lines with
  | [] => []
  | line :: lines' =>
      when (mentions keyword line) (todo_of rs_file line_num line)
      ++ entries_of_lines rs_file keyword lines' (line_num + 1)
  end.

(** The entries of one keyword for a list of readable units. *)
Definition entries_of_units (keyword : str) (units : list (str * str))
    : list todo :=
  flat_map (fun pc => entries_of_lines (fst pc) keyword (readlines (snd pc)) 1)
           units.

(** [enumerate(lines, n)] *)
Fixpoint enumerate (lines : list str) (n : Z) : list (Z * str) :=
  match lines with
  | [] => []
  | line :: lines' => (n, line) :: enumerate lines' (n + 1)
  end.

(** The entries of a keyword as a comprehension: for each unit in corpus
    order, for each of its lines that mentions the keyword, in the order of
    the lines, the entry of the line with its number counted from 1. *)
Definition entries_for (keyword : str) (units : list (str * str)) : list todo :=
  flat_map
    (fun pc =>
       map (fun nl => todo_of (fst pc) (fst nl) (snd nl))
           (filter (fun nl => mentions keyword (snd nl))
                   (enumerate (readlines (snd pc)) 1)))
    units.

(** A corpus with a unit of many clone calls. *)
Definition clone_corpus : corpus :=
  [ (txt "/repo/src/hot.rs",
     Text (concat (repeat (txt "x.clone();") 12)));
    (txt "/repo/src/cold.rs", Text (txt "let a = b.clone();"));
    (txt "/repo/tests/none.rs", Text (txt "fn f() {}")) ].

(** A corpus with comments to find. *)
Definition todo_corpus : corpus :=
  [ (txt "/repo/src/a.rs",
     Text (Samples.lines_text [ "fn f() {} // todo: remove";
                                "// FIXME and TODO";
                                "let hack = 1;" ]%string)) ].

(** The number of matches of a list of patterns in a text. *)
Definition pattern_total (content : str) (patterns : list (str * regex)) : Z :=
  fold_right (fun pr acc => Z.of_nat (length (findall (snd pr) content)) + acc)
             0 patterns.

(** The number of string allocations of a text. *)
Definition alloc_count_of (content : str) : Z :=
  pattern_total content alloc_patterns.

(** The numbers of [Box<dyn] and of boxed errors in results of a text. *)
Definition box_count_of (content : str) : Z :=
  Z.of_nat (length (findall box_dyn_pattern content)).
Definition box_error_count_of (content : str) : Z :=
  Z.of_nat (length (findall box_dyn_error_pattern content)).

(** The record [analyze_box_usage] makes for a unit. *)
Definition box_file_of (pc : str * str) : box_file :=
  {| bf_file := fst pc;
     bf_box_dyn := box_count_of (snd pc);
     bf_box_dyn_error := box_error_count_of (snd pc);
     bf_is_test := ComprehensiveAudit.is_test_file (fst pc) |}.

(** A corpus with boxed trait objects and string allocations. *)
Definition box_corpus : corpus :=
  [ (txt "/repo/src/e.rs",
     Text (Samples.lines_text
             [ "fn f() -> Result<(), Box<dyn std::error::Error>> {";
               "let s = x.to_string(); let t = format!(a);";
               "let b: Box<dyn Fn()> = g; }" ]%string));
    (txt "/repo/src/plain.rs", Text (txt "fn g() {}")) ].

End AnalyzerSpec.

(** ** Positions in a text *)

Module StrSpec.
Import Py.

(** The first position at or after [pos] where [sub] starts, trying [fuel]
    positions. *)
Fixpoint find_from (sub s : str) (pos fuel : nat) : option nat :=
  match fuel with
  | O => None
  | S fuel' =>
      if startswith (skipn pos s) sub then Some pos
      else find_from sub s (S pos) fuel'
  end.

(** [s.find(sub)], with [None] for -1. *)
Definition find (sub s : str) : option nat :=
  find_from sub s 0 (S (length s)).

(** The text of a line before its first [//], the whole line when it has
    none. *)
Definition before_comment (line : str) : str :=
  match find (txt "//") line with
  | Some p => firstn p line
  | None => line
  end.

(** A text of one line. *)
Definition one_line (s : str) : Prop :=
  Forall (fun c => ascii_eqb c newline = false) s.

End StrSpec.

(** ** The report of audit_arc_mutex.main *)

Module ArcReport.
Import Py Fs AuditArcMutex.

(** [d[k].append(v)] on a [defaultdict(list)]. *)
Fixpoint group_add {V} (d : list (str * list V)) (k : str) (v : V)
    : list (str * list V) :=
  match d with
  | [] => [(k, [v])]
  | (k', vs) :: d' =>
      if str_eqb k' k then (k', vs ++ [v]) :: d'
      else (k', vs) :: group_add d' k v
  end.

(** [for v in l: d[key(v)].append(v)] *)
Fixpoint group_loop {V} (key : V -> str) (l : list V) (d : list (str * list V))
    : list (str * list V) :=
  match l with
  | [] => d
  | v :: l' => group_loop key l' (group_add d (key v) v)
  end.

Definition group_by {V} (key : V -> str) (l : list V) : list (str * list V) :=
  group_loop key l [].

Definition usage_ : Type := (occurrence * analysis)%type.

Definition severity_name (s : severity) : str :=
  match s with
  | HIGH => txt "HIGH"
  | MEDIUM => txt "MEDIUM"
  | LOW => txt "LOW"
  end.

Definition by_file (all_usages : list usage_) : list (str * list usage_) :=
  group_by (fun u => file_ (fst u)) all_usages.

(** [sorted(by_file.items(), key=lambda x: len(x[1]), reverse=True)] *)
Definition sorted_files (all_usages : list usage_) : list (str * list usage_) :=
  Analyzers.sorted_desc (fun fu => Z.of_nat (length (snd fu))) (by_file all_usages).

(** [d[k]] on a [defaultdict(list)]: reading a missing key adds it, with
    an empty list. *)
Fixpoint touch {V} (d : list (str * list V)) (k : str) : list (str * list V) :=
  match d with
  | [] => [(k, [])]
  | (k', vs) :: d' =>
      if str_eqb k' k then (k', vs) :: d' else (k', vs) :: touch d' k
  end.

(** [by_severity] as the report sees it: grouped, then read for HIGH,
    MEDIUM and LOW by the printing loop. *)
Definition by_severity (prod_usages : list usage_) : list (str * list usage_) :=
  let d := group_by (fun u => severity_name (severity_ (snd u))) prod_usages in
  let d := touch d (txt "HIGH") in
  let d := touch d (txt "MEDIUM") in
  touch d (txt "LOW").

Definition by_type (prod_usages : list usage_) : list (str * list usage_) :=
  group_by (fun u => inner_type (fst u)) prod_usages.

Record top_file : Type := {
  tf_file : str;
  tf_count : Z;
  tf_is_test : bool
}.

Record summary : Type := {
  sm_total : Z;
  sm_test : Z;
  sm_production : Z;
  sm_by_severity : list (str * Z);
  sm_unique_types : Z
}.

Definition summary_of (r : ArcMutexMain.report) : summary :=
  {| sm_total := Z.of_nat (length (ArcMutexMain.all_usages r));
     sm_test := Z.of_nat (length (ArcMutexMain.test_usages r));
     sm_production := Z.of_nat (length (ArcMutexMain.prod_usages r));
     sm_by_severity :=
       map (fun kv => (fst kv, Z.of_nat (length (snd kv))))
           (by_severity (ArcMutexMain.prod_usages r));
     sm_unique_types :=
       Z.of_nat (length (by_type (ArcMutexMain.prod_usages r))) |}.

(** The [top_files] list of the report. *)
Definition top_files (r : ArcMutexMain.report) : list top_file :=
  map (fun fu => {| tf_file := fst fu;
                    tf_count := Z.of_nat (length (snd fu));
                    tf_is_test := is_test_file (fst fu) |})
      (slice (sorted_files (ArcMutexMain.all_usages r)) 0 20).

(** The items of a list with a given key, in their order. *)
Definition with_key {V} (key : V -> str) (k : str) (l : list V) : list V :=
  filter (fun v => str_eqb (key v) k) l.

(** What a grouping of [l] is: distinct keys, each with the items of [l]
    that have it, none without item, and no key of [l] missing. *)
Definition groups_of {V} (key : V -> str) (l : list V)
    (d : list (str * list V)) : Prop :=
  NoDup (map fst d)
  /\ (forall k vs, In (k, vs) d -> vs = with_key key k l /\ vs <> [])
  /\ (forall v, In v l -> In (key v) (map fst d)).

(** The sum of the sizes of the groups. *)
Definition group_sizes {V} (d : list (str * list V)) : nat :=
  fold_right (fun kv acc => (length (snd kv) + acc)%nat) 0%nat d.

End ArcReport.

(** ** What a match is *)

Module ReSpec.
Import Py Re.

(** [matches s r i j]: the pattern [r] accepts the text of [s] from position
    [i] up to position [j], the anchors being read at their position in the
    whole text. *)
Inductive matches (s : str) : regex -> nat -> nat -> Prop :=
| M_Eps i : matches s Eps i i
| M_Set p i c :
    nth_error s i = Some c -> p c = true -> matches s (Set_ p) i (S i)
| M_Seq r1 r2 i j k :
    matches s r1 i j -> matches s r2 j k -> matches s (Seq r1 r2) i k
| M_AltL r1 r2 i j : matches s r1 i j -> matches s (Alt r1 r2) i j
| M_AltR r1 r2 i j : matches s r2 i j -> matches s (Alt r1 r2) i j
| M_Star0 r i : matches s (Star r) i i
| M_StarS r i j k :
    matches s r i j -> matches s (Star r) j k -> matches s (Star r) i k
| M_Group n r i j : matches s r i j -> matches s (Group n r) i j
| M_Bol i : at_bol s i = true -> matches s Bol i i
| M_Eol i : at_eol s i = true -> matches s Eol i i
| M_WordB i : at_wordb s i = true -> matches s WordB i i.

(** The text between two positions: [s[i:j]] for [i <= j]. *)
Definition seg {A} (s : list A) (i j : nat) : list A :=
  firstn (j - i) (skipn i s).

End ReSpec.

(** ** Further notions and samples *)

Module MoreSpec.
Import Py Re Fs AuditArcMutex.

(** A float that is not below zero: a zero, a NaN, or a positive finite or
    infinite value. *)
Definition not_negative (f : spec_float) : Prop :=
  match f with
  | S754_infinity true | S754_finite true _ _ => False
  | _ => True
  end.

(** An occurrence whose context takes a guard without unwrapping it. *)
Definition guard_text : str :=
  Samples.lines_text [ "use std::thread::spawn;";
                       "let m: Arc<Mutex<State>> = make();";
                       "let g = m.lock();" ]%string.
Definition guard_occurrence : occurrence :=
  {| file_ := txt "/repo/src/g.rs";
     line := 2;
     inner_type := txt "State";
     full_match := txt "Arc<Mutex<State>>";
     line_content := txt "let m: Arc<Mutex<State>> = make();";
     context := guard_text |}.

End MoreSpec.

Module MoreTraitSpec.
Import Py Fs Spec AuditTraits Necessity.

(** The number of keep rules, other than the implementation count, that
    fire. *)
Definition other_keeps (ti : trait) (u : usage) : nat :=
  (b2n (truthy (assoc_types ti)) + b2n (has_generics ti)
   + b2n (dyn_usage u >? 0) + b2n (bound_usage u >? 2))%nat.

(** A single-method declaration with nothing that speaks for keeping it. *)
Definition only_trait : trait :=
  {| name := txt "Only"; file_ := txt "src/o.rs"; line := 1;
     method_count := 1; methods := [txt "run"]; assoc_types := [];
     has_generics := false; signature := txt "trait Only {";
     body := txt "fn run();" |}.

End MoreTraitSpec.

Module MainSpec.
Import Py Fs.

(** Every unit of the list can be read. *)
Definition all_text (files : corpus) : Prop :=
  Forall (fun pf => exists content, snd pf = Text content) files.

(** The declarations of a list of readable units, unit after unit. *)
Definition traits_of_units (units : list (str * str)) : list AuditTraits.trait :=
  flat_map (fun pc => AuditTraits.traits_of_content (fst pc) (snd pc)) units.

(** Whether a recorded occurrence lies in a test file. *)
Definition in_test_file (ua : AuditArcMutex.occurrence * AuditArcMutex.analysis)
    : bool :=
  AuditArcMutex.is_test_file (AuditArcMutex.file_ (fst ua)).

(** What the test and production lists are, given the list of all. *)
Definition split_by_test (r : ArcMutexMain.report) : Prop :=
  ArcMutexMain.test_usages r = filter in_test_file (ArcMutexMain.all_usages r)
  /\ ArcMutexMain.prod_usages r
     = filter (fun ua => negb (in_test_file ua)) (ArcMutexMain.all_usages r).

End MainSpec.

(** * Properties *)

(** ** The matcher *)

Module ReFacts.
Import Py Re.

Section Post.
Variable s : str.
Variable Q : nat * caps -> Prop.

Lemma star_loop_post body k :
  (forall k', (forall pos c res, k' pos c = Some res -> Q res) ->
              forall pos c res, body pos c k' = Some res -> Q res) ->
  (forall pos c res, k pos c = Some res -> Q res) ->
  forall fuel pos c res, star_loop body k fuel pos c = Some res -> Q res.
Proof.
  intros Hbody Hk.
  induction fuel as [ | fuel IHf ]; intros pos c res H; simpl in H.
  - exact (Hk _ _ _ H).
  - match type of H with
    | match ?m with _ => _ end = _ => destruct m eqn:E
    end.
    + inversion H; subst. refine (Hbody _ _ _ _ _ E).
      intros pos' c' res' H'. simpl in H'.
      destruct (pos <? pos')%nat; [ exact (IHf _ _ _ H') | discriminate ].
    + exact (Hk _ _ _ H).
Qed.

(** Every result of the matcher is a result of its continuation. *)
Lemma mt_post (r : regex) :
  forall k,
    (forall pos c res, k pos c = Some res -> Q res) ->
    forall pos c res, mt s r pos c k = Some res -> Q res.
Proof.
  induction r as [ | p | r1 IH1 r2 IH2 | r1 IH1 r2 IH2 | r IH | n r IH | | | ];
    intros k Hk pos c res H; simpl in H.
  - exact (Hk _ _ _ H).
  - destruct (char_at s pos); [ | discriminate ].
    destruct (p a); [ exact (Hk _ _ _ H) | discriminate ].
  - exact (IH1 _ (fun p' c' res' H' => IH2 k Hk p' c' res' H') _ _ _ H).
  - destruct (mt s r1 pos c k) eqn:E.
    + inversion H; subst. exact (IH1 k Hk _ _ _ E).
    + exact (IH2 k Hk _ _ _ H).
  - exact (star_loop_post (mt s r) k IH Hk (S (length s - pos)) pos c res H).
  - refine (IH _ _ _ _ _ H). intros p' c' res' H'. exact (Hk _ _ _ H').
  - destruct (at_bol s pos); [ exact (Hk _ _ _ H) | discriminate ].
  - destruct (at_eol s pos); [ exact (Hk _ _ _ H) | discriminate ].
  - destruct (at_wordb s pos); [ exact (Hk _ _ _ H) | discriminate ].
Qed.

(** A property the last part of a sequence establishes holds of the
    sequence. *)
Lemma mt_post_seq (r1 r2 : regex) k :
  (forall pos c res, mt s r2 pos c k = Some res -> Q res) ->
  forall pos c res, mt s (Seq r1 r2) pos c k = Some res -> Q res.
Proof.
  intros H2 pos c res H. simpl in H.
  exact (mt_post r1 _ H2 _ _ _ H).
Qed.
End Post.

(** Every match the scan reports is a match at its own start. *)
Lemma search_from_match_at s r fuel :
  forall pos m, search_from s r pos fuel = Some m ->
                match_at s r (m_start m) = Some m.
Proof.
  induction fuel as [ | fuel IH ]; intros pos m H; simpl in H.
  - discriminate.
  - destruct (match_at s r pos) eqn:E.
    + inversion H; subst. unfold match_at in E |- *.
      destruct (mt s r pos [] _) as [ [e c] | ] eqn:E'; [ | discriminate ].
      inversion E; subst; simpl. rewrite E'. reflexivity.
    + eauto.
Qed.

Lemma matches_from_match_at s r fuel :
  forall pos m, In m (matches_from s r pos fuel) ->
                match_at s r (m_start m) = Some m.
Proof.
  induction fuel as [ | fuel IH ]; intros pos m H; simpl in H.
  - contradiction.
  - destruct (search_at s r pos) eqn:E; [ | contradiction ].
    destruct H as [ <- | H ].
    + eapply search_from_match_at; exact E.
    + eauto.
Qed.

Lemma finditer_match_at r s m :
  In m (finditer r s) -> match_at s r (m_start m) = Some m.
Proof. apply matches_from_match_at. Qed.

(** [re.search] finds a match exactly when [re.findall] is not empty. *)
Lemma search_findall r s :
  AuditTraits.is_some (search r s) = negb (Nat.eqb (length (findall r s)) 0).
Proof.
  unfold findall, finditer, search. rewrite length_map. simpl.
  destruct (search_at s r 0); reflexivity.
Qed.

End ReFacts.

(** ** Python helpers *)

Module PyFacts.
Import Py.

Lemma ascii_eqb_eq a b : ascii_eqb a b = true <-> a = b.
Proof. unfold ascii_eqb. apply Ascii.eqb_eq. Qed.

Lemma ascii_eqb_neq a b : a <> b -> ascii_eqb a b = false.
Proof. unfold ascii_eqb. apply Ascii.eqb_neq. Qed.

Lemma slice_index_nat len n :
  (n <= len)%nat -> slice_index (Z.of_nat len) (Z.of_nat n) = n.
Proof.
  intros H. unfold slice_index.
  destruct (Z.ltb_spec (Z.of_nat n) 0); lia.
Qed.

(** A slice with bounds inside the list. *)
Lemma slice_inside {A} (l : list A) (a n : nat) :
  (a + n <= length l)%nat ->
  slice l (Z.of_nat a) (Z.of_nat (a + n)) = firstn n (skipn a l).
Proof.
  intros H. unfold slice.
  rewrite !slice_index_nat by lia.
  symmetry. apply firstn_skipn_comm.
Qed.

Lemma str_eqb_eq a : forall b, str_eqb a b = true <-> a = b.
Proof.
  induction a as [ | x a IH ]; intros [ | y b ]; simpl;
    try (split; (discriminate || reflexivity)).
  rewrite andb_true_iff, ascii_eqb_eq, IH.
  split; [ intros [-> ->]; reflexivity | intros H; inversion H; auto ].
Qed.

(** [startswith] finds a prefix. *)
Lemma startswith_prefix p : forall s,
  startswith s p = true <-> exists post, s = p ++ post.
Proof.
  induction p as [ | c p IH ]; intros s; simpl.
  - split; [ intros _; exists s; reflexivity | reflexivity ].
  - destruct s as [ | d s ].
    + split; [ discriminate | intros [post H]; discriminate ].
    + rewrite andb_true_iff, ascii_eqb_eq, IH.
      split.
      * intros [-> [post ->]]. exists post. reflexivity.
      * intros [post H]. inversion H; subst. eauto.
Qed.

(** [in] finds a substring. *)
Lemma contains_substring sub : forall s,
  contains sub s = true <-> exists pre post, s = pre ++ sub ++ post.
Proof.
  induction s as [ | c s IH ].
  - simpl. rewrite orb_false_r, startswith_prefix. split.
    + intros [post H]. exists [], post. exact H.
    + intros [pre [post H]]. destruct pre; [ | discriminate ]. eauto.
  - cbn [contains]. rewrite orb_true_iff, startswith_prefix, IH. split.
    + intros [[post H] | [pre [post H]]].
      * exists [], post. exact H.
      * exists (c :: pre), post. rewrite H. reflexivity.
    + intros [[ | d pre] [post H]].
      * left. exists post. exact H.
      * right. inversion H; subst. eauto.
Qed.

(** [endswith] finds a suffix. *)
Lemma endswith_suffix s suf :
  endswith s suf = true <-> exists pre, s = pre ++ suf.
Proof.
  unfold endswith. rewrite andb_true_iff, Nat.leb_le, str_eqb_eq. split.
  - intros [Hlen H]. exists (firstn (length s - length suf) s).
    rewrite <- H at 2. symmetry. apply firstn_skipn.
  - intros [pre ->]. rewrite length_app. split; [ lia | ].
    replace (length pre + length suf - length suf)%nat with (length pre) by lia.
    rewrite skipn_app, skipn_all, Nat.sub_diag. reflexivity.
Qed.

End PyFacts.

(** ** The delimiter scan of [extract_traits] *)

Module ExtractFacts.
Import Py Re Fs AuditTraits Spec.

(** Over balanced text the depth counter comes back to where it was. *)
Lemma scan_braces_balanced body :
  balanced body ->
  forall rest pos d,
    0 < d ->
    scan_braces (body ++ rest) pos d
    = scan_braces rest (pos + length body) d.
Proof.
  induction 1 as [ | c s Hopen Hclose Hs IH | a b Ha IHa Hb IHb ];
    intros rest pos d Hd.
  - simpl. f_equal. lia.
  - simpl.
    destruct (Z.gtb_spec d 0); [ | lia ].
    rewrite (PyFacts.ascii_eqb_neq c "{") by assumption.
    rewrite (PyFacts.ascii_eqb_neq c "}") by assumption.
    rewrite IH by assumption. f_equal. lia.
  - cbn [app scan_braces].
    destruct (Z.gtb_spec d 0); [ | lia ].
    change (ascii_eqb "{" "{") with true. cbv iota.
    rewrite <- app_assoc. rewrite IHa by lia.
    cbn [app scan_braces].
    destruct (Z.gtb_spec (d + 1) 0); [ | lia ].
    change (ascii_eqb "}" "{") with false.
    change (ascii_eqb "}" "}") with true. cbv iota.
    replace (d + 1 - 1) with d by lia.
    rewrite IHb by assumption.
    f_equal. cbn [length]. rewrite length_app. cbn [length]. lia.
Qed.

(** At the closing brace of depth 1 the loop stops, one past it. *)
Lemma scan_braces_close rest pos :
  scan_braces ("}"%char :: rest) pos 1 = (S pos, 0).
Proof.
  cbn [scan_braces].
  change (1 >? 0) with true. cbv iota.
  change (ascii_eqb "}" "{") with false.
  change (ascii_eqb "}" "}") with true. cbv iota.
  change (1 - 1) with 0.
  destruct rest; reflexivity.
Qed.

(** The body the scan cuts out of balanced text is the text up to the
    matching closing brace. *)
Lemma trait_body_balanced content start body rest :
  skipn start content = body ++ "}"%char :: rest ->
  balanced body ->
  fst (scan_braces (skipn start content) start 1) = (start + length body + 1)%nat
  /\ trait_body content start = body.
Proof.
  intros Hskip Hbal.
  assert (Hlen : (start + length body + 1 <= length content)%nat).
  { assert (E : length (skipn start content) = (length body + S (length rest))%nat)
      by (rewrite Hskip, length_app; reflexivity).
    rewrite length_skipn in E. lia. }
  assert (Hpos : fst (scan_braces (skipn start content) start 1)
                 = (start + length body + 1)%nat).
  { rewrite Hskip, scan_braces_balanced by (assumption || lia).
    rewrite scan_braces_close. simpl. lia. }
  split; [ exact Hpos | ].
  unfold trait_body. rewrite Hpos.
  replace (Z.of_nat (start + length body + 1) - 1)
    with (Z.of_nat (start + length body)) by lia.
  rewrite PyFacts.slice_inside by lia.
  rewrite Hskip. rewrite firstn_app, Nat.sub_diag, firstn_all. simpl.
  apply app_nil_r.
Qed.

(** A header match ends just after an opening brace. *)
Lemma header_ends_with_brace content m :
  In m (finditer trait_pattern content) ->
  exists e, m_end m = S e /\ nth_error content e = Some "{"%char.
Proof.
  intros Hin. apply ReFacts.finditer_match_at in Hin.
  unfold match_at in Hin.
  destruct (mt content trait_pattern (m_start m) [] _) as [ [e c] | ] eqn:E;
    [ | discriminate ].
  injection Hin as Hm.
  assert (He : m_end m = fst (e, c)) by (rewrite <- Hm; reflexivity).
  rewrite He. clear He Hm.
  revert E. generalize (m_start m) as pos.
  generalize (@nil (nat * (nat * nat))) as c0. generalize (e, c) as res.
  intros res c0 pos. revert pos c0 res.
  unfold trait_pattern, Seqs.
  do 9 (apply (ReFacts.mt_post_seq content
                 (fun res => exists e0, fst res = S e0
                                        /\ nth_error content e0 = Some "{"%char))).
  intros pos c0 res. unfold Lit. cbn [mt]. unfold char_at.
  destruct (nth_error content pos) as [ch | ] eqn:Ech; [ | discriminate ].
  destruct (ascii_eqb "{" ch) eqn:Eb; [ | discriminate ].
  apply PyFacts.ascii_eqb_eq in Eb. subst ch.
  intros H. inversion H; subst. simpl. eauto.
Qed.

(** Nested pairs are balanced. *)
Lemma nest_balanced n s : balanced s -> balanced (nest n s).
Proof.
  intros Hs. induction n as [ | n IH ]; simpl.
  - exact Hs.
  - apply (bal_pair (nest n s) []); [ exact IH | constructor ].
Qed.

(** When the counter is still positive at the end of the loop, the loop ran
    to the end of the text. *)
Lemma scan_braces_unclosed rest :
  forall pos d,
    0 < snd (scan_braces rest pos d) ->
    fst (scan_braces rest pos d) = (pos + length rest)%nat.
Proof.
  induction rest as [ | ch rest IH ]; intros pos d H; simpl in *.
  - lia.
  - destruct (Z.gtb_spec d 0).
    + rewrite IH by exact H. lia.
    + simpl in H. lia.
Qed.

(** Every header match yields one unit, whatever the scan found. *)
Lemma one_unit_per_header file_path content :
  length (traits_of_content file_path content)
  = length (finditer trait_pattern content).
Proof. unfold traits_of_content. apply length_map. Qed.

End ExtractFacts.

Module ExtractProps.
Import Py Re Fs AuditTraits Spec TraitSamples.

(** For a header whose braces never close, the unit is still in the result
    and its body is the text up to the last character but one. *)
Lemma unclosed_body_runs_to_end file_path content m :
  In m (finditer trait_pattern content) ->
  0 < snd (scan_braces (skipn (m_end m) content) (m_end m) 1) ->
  In (trait_of_match file_path content m) (traits_of_content file_path content)
  /\ trait_body content (m_end m)
     = slice content (Z.of_nat (m_end m)) (Z.of_nat (length content) - 1).
Proof.
  intros Hin Hopen. split.
  - unfold traits_of_content. apply in_map. exact Hin.
  - unfold trait_body.
    rewrite ExtractFacts.scan_braces_unclosed by exact Hopen.
    destruct (ExtractFacts.header_ends_with_brace content m Hin) as [e [He Hnth]].
    assert (e < length content)%nat
      by (apply nth_error_Some; rewrite Hnth; discriminate).
    rewrite length_skipn.
    replace (m_end m + (length content - m_end m))%nat with (length content) by lia.
    reflexivity.
Qed.

(** C1 (the code departs from it): on the text [unclosed_text], where the
    header of [T] matches and the depth counter is still 1 at the end of the
    text, [extract_traits] does not skip the declaration.  It returns one
    unit for [T], with one member counted and with the body [fn f()], which
    is the rest of the text cut one character short. *)
Theorem unclosed_declaration_is_emitted :
  snd (scan_braces (skipn 9 unclosed_text) 9 1) = 1
  /\ extract_traits (txt "a.rs") (Text unclosed_text)
     = Ok [ {| name := txt "T";
               file_ := txt "a.rs";
               line := 1;
               method_count := 1;
               methods := [txt "f"];
               assoc_types := [];
               has_generics := false;
               signature := txt "trait T {";
               body := txt "fn f()" |} ].
Proof. split; vm_compute; reflexivity. Qed.

(** C2, the claim as stated fails: in [spaced_text] the header of [T] is
    followed by the balanced text [ fn f(); ] and its closing brace, and the
    scan cuts out exactly that text; but the body recorded in the unit is
    [fn f();], the text between the braces without the blank at either
    end. *)
Lemma recorded_body_is_trimmed :
  skipn 9 spaced_text = txt " fn f(); " ++ ["}"%char]
  /\ balanced (txt " fn f(); ")
  /\ trait_body spaced_text 9 = txt " fn f(); "
  /\ extract_traits (txt "a.rs") (Text spaced_text)
     = Ok [ {| name := txt "T";
               file_ := txt "a.rs";
               line := 1;
               method_count := 1;
               methods := [txt "f"];
               assoc_types := [];
               has_generics := false;
               signature := txt "trait T {";
               body := txt "fn f();" |} ]
  /\ txt "fn f();" <> txt " fn f(); ".
Proof.
  split; [ vm_compute; reflexivity | ].
  split.
  { unfold txt. simpl.
    repeat (apply bal_char; [ discriminate | discriminate | ]).
    apply bal_nil. }
  split; [ vm_compute; reflexivity | ].
  split; [ vm_compute; reflexivity | discriminate ].
Qed.

(** C2 as amended: take the header match number [i] of a text, followed by
    a balanced body and a closing brace.  [extract_traits] returns one unit
    per header match, and for unit number [i]: the match ends just after an
    opening brace; the depth counter started at 1 there comes back to 0
    exactly one character past the closing brace, whatever the nesting
    inside the body; the text the scan cuts out is exactly the body, and it
    is the text the members and the associated types are looked for in; the
    body recorded in the unit is that text with the white space at its two
    ends removed. *)
Theorem body_is_span_to_matching_brace file_path content i m body rest :
  nth_error (finditer trait_pattern content) i = Some m ->
  skipn (m_end m) content = body ++ "}"%char :: rest ->
  balanced body ->
  exists ts t,
    extract_traits file_path (Text content) = Ok ts
    /\ length ts = length (finditer trait_pattern content)
    /\ nth_error ts i = Some t
    /\ (exists e, m_end m = S e /\ nth_error content e = Some "{"%char)
    /\ scan_braces (skipn (m_end m) content) (m_end m) 1
       = ((m_end m + length body + 1)%nat, 0)
    /\ trait_body content (m_end m) = body
    /\ AuditTraits.body t = strip body
    /\ (method_count t, methods t) = collect_methods (split newline body) 0 []
    /\ assoc_types t = findall type_pattern body
    /\ name t = group content 2 m.
Proof.
  intros Hnth Hskip Hbal.
  assert (Hin : In m (finditer trait_pattern content))
    by (eapply nth_error_In; exact Hnth).
  destruct (ExtractFacts.trait_body_balanced content (m_end m) body rest
              Hskip Hbal) as [Hpos Hbody].
  exists (traits_of_content file_path content),
         (trait_of_match file_path content m).
  split; [ reflexivity | ].
  split; [ apply ExtractFacts.one_unit_per_header | ].
  split.
  { unfold traits_of_content. rewrite nth_error_map, Hnth. reflexivity. }
  split; [ exact (ExtractFacts.header_ends_with_brace content m Hin) | ].
  split.
  { rewrite Hskip, ExtractFacts.scan_braces_balanced by (assumption || lia).
    rewrite ExtractFacts.scan_braces_close. f_equal. lia. }
  split; [ exact Hbody | ].
  unfold trait_of_match. rewrite Hbody.
  destruct (collect_methods (split newline body) 0 []) as [mc ms].
  cbn [AuditTraits.body method_count methods assoc_types name].
  repeat split; reflexivity.
Qed.

Lemma body_is_span_to_matching_brace_witness :
  exists ts t,
    extract_traits (txt "a.rs") (Text nested_text) = Ok ts
    /\ nth_error ts 0 = Some t
    /\ AuditTraits.body t = strip nested_body.
Proof.
  pose (m := {| m_start := 0%nat; m_end := 13%nat;
                m_caps := [(2%nat, (10%nat, 11%nat)); (1%nat, (0%nat, 0%nat))] |}).
  assert (Hnth : nth_error (finditer trait_pattern nested_text) 0 = Some m)
    by (vm_compute; reflexivity).
  assert (Hskip : skipn (m_end m) nested_text
                  = nested_body ++ "}"%char :: txt " fn g() {}")
    by (vm_compute; reflexivity).
  assert (Hbal : balanced nested_body).
  { apply ExtractFacts.nest_balanced.
    repeat (apply bal_char; [ discriminate | discriminate | ]).
    apply bal_nil. }
  destruct (body_is_span_to_matching_brace (txt "a.rs") nested_text 0 m
              nested_body (txt " fn g() {}") Hnth Hskip Hbal)
    as [ts [t [Hts [_ [Ht [_ [_ [_ [Hb _]]]]]]]]].
  exists ts, t. repeat split; assumption.
Defined.

End ExtractProps.

(** ** The declaration classifier *)

Module NecessityProps.
Import Py AuditTraits Necessity Spec TraitSamples.

Ltac split_conditions ti u :=
  destruct (method_count ti =? 1), (truthy (assoc_types ti)),
           (has_generics ti), (dyn_usage u >? 0), (bound_usage u >? 2);
  destruct (Z.gtb_spec (impl_count u) 1), (Z.eqb_spec (impl_count u) 0),
           (Z.eqb_spec (impl_count u) 1);
  try lia.

(** The function returns the lists the rules give and the decision on them. *)
Lemma analyze_normal_form ti u :
  analyze_trait_necessity ti u
  = (decision (keep_rules ti u) (remove_rules ti u),
     keep_rules ti u, remove_rules ti u).
Proof.
  unfold analyze_trait_necessity, keep_rules, remove_rules, when.
  generalize (reason_assoc ti) (reason_dyn u) (reason_impls u) (reason_bound u)
             (txt "Single method trait") (txt "Uses generics/lifetimes")
             (txt "No implementations found") (txt "Only one implementation").
  intros a b c d e f g h.
  split_conditions ti u; reflexivity.
Qed.

Ltac by_list_shape keep remove :=
  unfold decision;
  destruct keep as [ | ? [ | ? keep ] ], remove as [ | ? [ | ? remove ] ];
  simpl;
  intuition (try discriminate; try congruence; try lia).

Lemma decision_definitely keep remove :
  decision keep remove = DEFINITELY_REMOVE <-> keep = [] /\ remove <> [].
Proof. by_list_shape keep remove. Qed.

Lemma decision_maybe keep remove :
  decision keep remove = MAYBE_REMOVE
  <-> ~ (keep = [] /\ remove <> [])
      /\ (length keep <= 1)%nat /\ (2 <= length remove)%nat.
Proof. by_list_shape keep remove. Qed.

Lemma decision_keep keep remove :
  decision keep remove = KEEP_AS_IS
  <-> ~ (keep = [] /\ remove <> [])
      /\ ~ ((length keep <= 1)%nat /\ (2 <= length remove)%nat).
Proof. by_list_shape keep remove. Qed.

(** C3: the classifier returns DEFINITELY_REMOVE exactly when the keep list
    is empty and the remove list is not; otherwise MAYBE_REMOVE exactly when
    the keep list has at most one entry and the remove list at least two;
    otherwise KEEP_AS_IS.  The two lists are what the six rules contribute,
    in their fixed order, and at most one branch of the implementation-count
    rule fires. *)
Theorem classifier_decision ti u :
  let r := analyze_trait_necessity ti u in
  keep_of r = keep_rules ti u
  /\ remove_of r = remove_rules ti u
  /\ (cat_of r = DEFINITELY_REMOVE
      <-> keep_of r = [] /\ remove_of r <> [])
  /\ (cat_of r = MAYBE_REMOVE
      <-> ~ (keep_of r = [] /\ remove_of r <> [])
          /\ (length (keep_of r) <= 1)%nat /\ (2 <= length (remove_of r))%nat)
  /\ (cat_of r = KEEP_AS_IS
      <-> ~ (keep_of r = [] /\ remove_of r <> [])
          /\ ~ ((length (keep_of r) <= 1)%nat
                /\ (2 <= length (remove_of r))%nat))
  /\ b2z (impl_count u >? 1) + b2z (impl_count u =? 0)
     + b2z (impl_count u =? 1) <= 1.
Proof.
  intros r. subst r. rewrite analyze_normal_form.
  unfold cat_of, keep_of, remove_of. cbn [fst snd].
  split; [ reflexivity | ]. split; [ reflexivity | ].
  split; [ apply decision_definitely | ].
  split; [ apply decision_maybe | ].
  split; [ apply decision_keep | ].
  destruct (Z.gtb_spec (impl_count u) 1), (Z.eqb_spec (impl_count u) 0),
           (Z.eqb_spec (impl_count u) 1); simpl; lia.
Qed.

(** C10: with a non-negative implementation count exactly one branch of the
    implementation-count rule fires, so the two reason lists are never both
    empty. *)
Theorem reasons_never_both_empty ti u :
  0 <= impl_count u ->
  let r := analyze_trait_necessity ti u in
  b2z (impl_count u >? 1) + b2z (impl_count u =? 0)
  + b2z (impl_count u =? 1) = 1
  /\ (1 <= length (keep_of r) + length (remove_of r))%nat
  /\ ~ (keep_of r = [] /\ remove_of r = []).
Proof.
  intros Hnn r. subst r. rewrite analyze_normal_form.
  unfold keep_of, remove_of. cbn [fst snd].
  assert (Hone : b2z (impl_count u >? 1) + b2z (impl_count u =? 0)
                 + b2z (impl_count u =? 1) = 1).
  { destruct (Z.gtb_spec (impl_count u) 1), (Z.eqb_spec (impl_count u) 0),
             (Z.eqb_spec (impl_count u) 1); simpl; lia. }
  assert (Hlen : (1 <= length (keep_rules ti u) + length (remove_rules ti u))%nat).
  { unfold keep_rules, remove_rules, when.
    rewrite !length_app.
    destruct (impl_count u >? 1), (impl_count u =? 0), (impl_count u =? 1);
      simpl in Hone |- *; lia. }
  split; [ exact Hone | ]. split; [ exact Hlen | ].
  intros [Hk Hr]. rewrite Hk, Hr in Hlen. simpl in Hlen. lia.
Qed.

Lemma reasons_never_both_empty_witness :
  0 <= impl_count sample_usage
  /\ ~ (keep_of (analyze_trait_necessity sample_trait sample_usage) = []
        /\ remove_of (analyze_trait_necessity sample_trait sample_usage) = []).
Proof.
  assert (H : 0 <= impl_count sample_usage) by (vm_compute; discriminate).
  split; [ exact H | ].
  exact (proj2 (proj2 (reasons_never_both_empty sample_trait sample_usage H))).
Defined.

End NecessityProps.

(** ** The usage profiler and unreadable units *)

Module UsageProps.
Import Py Re Fs AuditTraits Spec.

(** One readable unit adds its own number of matches to each count and its
    path to each list it has a match for. *)
Lemma usage_step_fields trait_name rs_file content u :
  usage_step trait_name rs_file content u
  = {| impl_count := impl_count u + matches_in (impl_pattern trait_name) content;
       dyn_usage := dyn_usage u + matches_in (dyn_pattern trait_name) content;
       bound_usage := bound_usage u + matches_in (bound_pattern trait_name) content;
       impl_files := impl_files u
         ++ when (1 <=? matches_in (impl_pattern trait_name) content) rs_file;
       dyn_files := dyn_files u
         ++ when (1 <=? matches_in (dyn_pattern trait_name) content) rs_file;
       bound_files := bound_files u
         ++ when (1 <=? matches_in (bound_pattern trait_name) content) rs_file |}.
Proof.
  unfold usage_step, matches_in. rewrite !ReFacts.search_findall.
  destruct u as [ic du bu ifs dfs bfs].
  destruct (length (findall (impl_pattern trait_name) content)) as [ | ni ];
    destruct (length (findall (dyn_pattern trait_name) content)) as [ | nd ];
    destruct (length (findall (bound_pattern trait_name) content)) as [ | nb ];
    cbn [Nat.eqb negb impl_count dyn_usage bound_usage impl_files dyn_files
         bound_files];
    repeat match goal with
      | |- context [1 <=? Z.of_nat 0] =>
          change (1 <=? Z.of_nat 0) with false
      | |- context [1 <=? Z.of_nat (S ?n)] =>
          replace (1 <=? Z.of_nat (S n)) with true
            by (symmetry; apply Z.leb_le; lia)
      end;
    unfold when; rewrite ?app_nil_r, ?Z.add_0_r; reflexivity.
Qed.

Lemma usage_loop_fields trait_name files :
  forall u,
    let units := readable files in
    usage_loop trait_name files u
    = {| impl_count := impl_count u + total_matches (impl_pattern trait_name) units;
         dyn_usage := dyn_usage u + total_matches (dyn_pattern trait_name) units;
         bound_usage := bound_usage u + total_matches (bound_pattern trait_name) units;
         impl_files := impl_files u ++ units_matching (impl_pattern trait_name) units;
         dyn_files := dyn_files u ++ units_matching (dyn_pattern trait_name) units;
         bound_files := bound_files u ++ units_matching (bound_pattern trait_name) units |}.
Proof.
  induction files as [ | [rs_file [content | e]] files IH ]; intros u; simpl.
  - unfold units_matching. simpl. rewrite !app_nil_r, !Z.add_0_r.
    destruct u; reflexivity.
  - rewrite IH, usage_step_fields. simpl.
    unfold units_matching. simpl.
    destruct (1 <=? matches_in (impl_pattern trait_name) content);
      destruct (1 <=? matches_in (dyn_pattern trait_name) content);
      destruct (1 <=? matches_in (bound_pattern trait_name) content);
      simpl; rewrite <- ?app_assoc; simpl; rewrite ?app_nil_r;
      f_equal; lia.
  - apply IH.
Qed.

(** An unreadable unit leaves the usage profile as it is without it. *)
Lemma usage_loop_skips_bad trait_name l1 p e l2 u :
  usage_loop trait_name (l1 ++ (p, Bad e) :: l2) u
  = usage_loop trait_name (l1 ++ l2) u.
Proof.
  revert u. induction l1 as [ | [q [content | e']] l1 IH ]; intros u; simpl;
    auto.
Qed.

Lemma check_trait_usage_skips_bad trait_name l1 p e l2 :
  check_trait_usage trait_name (l1 ++ (p, Bad e) :: l2)
  = check_trait_usage trait_name (l1 ++ l2).
Proof.
  unfold check_trait_usage, find_rust_files, rglob_rs.
  rewrite !filter_app. cbn [filter fst].
  destruct (endswith p (txt ".rs")); [ apply usage_loop_skips_bad | reflexivity ].
Qed.

(** The collecting loop of [audit_traits.main] stops at the first unit it
    cannot read. *)
Lemma collect_traits_raises l1 p e l2 :
  Forall (fun pf => exists content, snd pf = Text content) l1 ->
  forall acc,
    TraitsMain.collect_traits (l1 ++ (p, Bad e) :: l2) acc = Raise e.
Proof.
  induction 1 as [ | [q f] l1 [content Hf] _ IH ]; intros acc; simpl.
  - reflexivity.
  - simpl in Hf. subst f. simpl. apply IH.
Qed.

(** So does the collecting loop of [audit_arc_mutex.main]. *)
Lemma collect_usages_raises l1 p e l2 :
  Forall (fun pf => exists content, snd pf = Text content) l1 ->
  forall r,
    ArcMutexMain.collect (l1 ++ (p, Bad e) :: l2) r = Raise e.
Proof.
  induction 1 as [ | [q f] l1 [content Hf] _ IH ]; intros r; simpl.
  - reflexivity.
  - simpl in Hf. subst f. simpl.
    destruct (AuditArcMutex.occurrences_of_content q content); apply IH.
Qed.

(** Two matches in one unit count twice and list the unit once. *)
Lemma count_exceeds_units :
  let u := check_trait_usage (txt "T")
             [ (txt "/repo/src/a.rs",
                Text (txt "impl T for X {}" ++ [newline] ++ txt "impl T for Y {}")) ] in
  impl_count u = 2 /\ impl_files u = [txt "/repo/src/a.rs"].
Proof. vm_compute. split; reflexivity. Qed.

(** C8: for every construct name made of word characters, which is what
    the declaration pass yields and where the three patterns are the
    literal texts of [impl_pattern], [dyn_pattern] and [bound_pattern], and
    for every corpus: each of the three counts of the usage profile is the
    sum, over the readable units, of that unit's number of matches of the
    pattern, and each unit list holds exactly the readable units with at
    least one match, in corpus order. *)
Theorem usage_counts_are_sums trait_name root_dir :
  word_name trait_name ->
  let u := check_trait_usage trait_name root_dir in
  let units := readable (find_rust_files root_dir) in
  impl_count u = total_matches (impl_pattern trait_name) units
  /\ dyn_usage u = total_matches (dyn_pattern trait_name) units
  /\ bound_usage u = total_matches (bound_pattern trait_name) units
  /\ impl_files u = units_matching (impl_pattern trait_name) units
  /\ dyn_files u = units_matching (dyn_pattern trait_name) units
  /\ bound_files u = units_matching (bound_pattern trait_name) units.
Proof.
  intros _ u units. subst u units. unfold check_trait_usage.
  rewrite usage_loop_fields. simpl. repeat split; reflexivity.
Qed.

Lemma usage_counts_are_sums_witness :
  word_name (txt "T")
  /\ impl_count (check_trait_usage (txt "T") [Samples.unit_a; Samples.unit_c])
     = total_matches (impl_pattern (txt "T"))
         (readable (find_rust_files [Samples.unit_a; Samples.unit_c])).
Proof.
  assert (Hw : word_name (txt "T")) by (repeat constructor).
  split; [ exact Hw | ].
  exact (proj1 (usage_counts_are_sums (txt "T")
                  [Samples.unit_a; Samples.unit_c] Hw)).
Defined.

End UsageProps.

(** ** The occurrence extractor and the severity classifier *)

Module ArcMutexProps.
Import Py Re Fs AuditArcMutex Spec Samples.

(** Around a line with two lines or more before it and three or more after
    it, the window is the two lines before, the line, and the three lines
    after. *)
Lemma context_lines_shape (before : list str) (l : str) (after : list str) :
  (2 <= length before)%nat ->
  (3 <= length after)%nat ->
  context_lines (before ++ l :: after) (Z.of_nat (length before) + 1)
  = skipn (length before - 2) before ++ l :: firstn 3 after.
Proof.
  intros Hb Ha. unfold context_lines, slice.
  rewrite length_app. cbn [length].
  replace (Z.max 0 (Z.of_nat (length before) + 1 - 3))
    with (Z.of_nat (length before - 2)) by lia.
  replace (Z.min (Z.of_nat (length before + S (length after)))
                 (Z.of_nat (length before) + 1 + 3))
    with (Z.of_nat (length before + 4)) by lia.
  rewrite !PyFacts.slice_index_nat by lia.
  rewrite firstn_app.
  replace (length before + 4 - length before)%nat with 4%nat by lia.
  rewrite firstn_all2 by lia.
  rewrite skipn_app.
  replace (length before - 2 - length before)%nat with 0%nat by lia.
  reflexivity.
Qed.

(** C5 (the code departs from it): in the nine-line text [nine_lines] the
    occurrence is on line 5, four lines from either end, and the recorded
    window is lines 3 to 8: two lines before the matched line and three
    after it. *)
Theorem context_window_is_two_before_three_after :
  map (fun o => (line o, context o))
      (occurrences_of_content (txt "/repo/src/s.rs") nine_lines)
  = [ (5, lines_text [ "l3"; "l4"; "let s: Arc<Mutex<State>> = new();";
                       "l6"; "l7"; "l8" ]%string) ].
Proof. vm_compute. reflexivity. Qed.

(** The sample occurrence is what the extractor records for its unit. *)
Lemma sender_occurrence_extracted :
  occurrences_of_content (txt "/repo/src/tx.rs") sender_text
  = [sender_occurrence].
Proof. vm_compute. reflexivity. Qed.

(** C6, the claim as stated fails: on the sample occurrence the channel
    check is true, and the function returns one recommendation and no
    issue. *)
Lemma channel_check_adds_no_issue :
  chk_channel sender_occurrence sender_text = true
  /\ issues (analyze_usage_pattern sender_occurrence sender_text) = []
  /\ recommendations (analyze_usage_pattern sender_occurrence sender_text)
     = [txt "Consider using channels for producer/consumer pattern"].
Proof. vm_compute. repeat split; reflexivity. Qed.

Lemma length_add_issue x st :
  length (fst (add_issue x st)) = S (length (fst st))
  /\ snd (add_issue x st) = snd st.
Proof.
  unfold add_issue. simpl. rewrite length_app. simpl. split; [ lia | reflexivity ].
Qed.

Lemma length_add_rec x st :
  length (snd (add_rec x st)) = S (length (snd st))
  /\ fst (add_rec x st) = fst st.
Proof.
  unfold add_rec. simpl. rewrite length_app. simpl. split; [ lia | reflexivity ].
Qed.

Ltac step_grows chk :=
  unfold grows; destruct chk; cbn [b2n];
  repeat first
    [ rewrite (proj1 (length_add_rec _ _))
    | rewrite (proj2 (length_add_rec _ _))
    | rewrite (proj1 (length_add_issue _ _))
    | rewrite (proj2 (length_add_issue _ _)) ];
  split; lia.

Lemma step_simple_grows u fc st :
  grows (step_simple u fc) st (b2n (chk_simple u fc)) (b2n (chk_simple u fc)).
Proof. unfold step_simple. step_grows (chk_simple u fc). Qed.

Lemma step_clone_grows u fc st :
  grows (step_clone u fc) st (b2n (chk_clone u fc)) 0.
Proof. unfold step_clone. step_grows (chk_clone u fc). Qed.

Lemma step_read_heavy_grows u fc st :
  grows (step_read_heavy u fc) st
        (b2n (chk_read_heavy u fc)) (b2n (chk_read_heavy u fc)).
Proof. unfold step_read_heavy. step_grows (chk_read_heavy u fc). Qed.

Lemma step_no_threading_grows u fc st :
  grows (step_no_threading u fc) st
        (b2n (chk_no_threading u fc)) (b2n (chk_no_threading u fc)).
Proof. unfold step_no_threading. step_grows (chk_no_threading u fc). Qed.

Lemma step_channel_grows u fc st :
  grows (step_channel u fc) st 0 (b2n (chk_channel u fc)).
Proof. unfold step_channel. step_grows (chk_channel u fc). Qed.

Lemma step_defensive_grows u fc st :
  grows (step_defensive u fc) st (b2n (chk_defensive u fc)) 0.
Proof. unfold step_defensive. step_grows (chk_defensive u fc). Qed.

(** The issues are as many as the true checks among the five that report
    one; the recommendations as many as the true checks among the four that
    give one. *)
Lemma analysis_lengths u fc :
  length (issues (analyze_usage_pattern u fc))
  = (b2n (chk_simple u fc) + b2n (chk_clone u fc) + b2n (chk_read_heavy u fc)
     + b2n (chk_no_threading u fc) + b2n (chk_defensive u fc))%nat
  /\ length (recommendations (analyze_usage_pattern u fc))
     = (b2n (chk_simple u fc) + b2n (chk_read_heavy u fc)
        + b2n (chk_no_threading u fc) + b2n (chk_channel u fc))%nat.
Proof.
  unfold analyze_usage_pattern. cbn [issues recommendations].
  pose proof (step_simple_grows u fc ([], [])) as [I1 R1].
  pose proof (step_clone_grows u fc (step_simple u fc ([], []))) as [I2 R2].
  pose proof (step_read_heavy_grows u fc
                (step_clone u fc (step_simple u fc ([], [])))) as [I3 R3].
  pose proof (step_no_threading_grows u fc
                (step_read_heavy u fc
                   (step_clone u fc (step_simple u fc ([], []))))) as [I4 R4].
  pose proof (step_channel_grows u fc
                (step_no_threading u fc
                   (step_read_heavy u fc
                      (step_clone u fc (step_simple u fc ([], [])))))) as [I5 R5].
  pose proof (step_defensive_grows u fc
                (step_channel u fc
                   (step_no_threading u fc
                      (step_read_heavy u fc
                         (step_clone u fc (step_simple u fc ([], []))))))) as [I6 R6].
  simpl in I1, R1. split; lia.
Qed.

(** C6 as amended: a check that is false appends nothing.  When true, the
    simple-type, read-heavy and no-threading checks append one issue and one
    recommendation, the clone-count and created-and-cloned checks append one
    issue and no recommendation, and the channel check appends one
    recommendation and no issue.  So every check appends at most one entry
    to each list, and the lists of the result have one entry per true check
    of the kind. *)
Theorem each_check_appends_at_most_one u fc st :
  grows (step_simple u fc) st (b2n (chk_simple u fc)) (b2n (chk_simple u fc))
  /\ grows (step_clone u fc) st (b2n (chk_clone u fc)) 0
  /\ grows (step_read_heavy u fc) st
           (b2n (chk_read_heavy u fc)) (b2n (chk_read_heavy u fc))
  /\ grows (step_no_threading u fc) st
           (b2n (chk_no_threading u fc)) (b2n (chk_no_threading u fc))
  /\ grows (step_channel u fc) st 0 (b2n (chk_channel u fc))
  /\ grows (step_defensive u fc) st (b2n (chk_defensive u fc)) 0
  /\ length (issues (analyze_usage_pattern u fc))
     = (b2n (chk_simple u fc) + b2n (chk_clone u fc)
        + b2n (chk_read_heavy u fc) + b2n (chk_no_threading u fc)
        + b2n (chk_defensive u fc))%nat
  /\ length (recommendations (analyze_usage_pattern u fc))
     = (b2n (chk_simple u fc) + b2n (chk_read_heavy u fc)
        + b2n (chk_no_threading u fc) + b2n (chk_channel u fc))%nat.
Proof.
  split; [ apply step_simple_grows | ].
  split; [ apply step_clone_grows | ].
  split; [ apply step_read_heavy_grows | ].
  split; [ apply step_no_threading_grows | ].
  split; [ apply step_channel_grows | ].
  split; [ apply step_defensive_grows | ].
  apply analysis_lengths.
Qed.

Lemma severity_of_mono a b :
  a <= b -> sev_le (severity_of a) (severity_of b).
Proof.
  unfold sev_le, severity_of. intros H.
  destruct (Z.geb_spec a 3), (Z.geb_spec b 3), (Z.geb_spec a 1),
           (Z.geb_spec b 1); simpl; lia.
Qed.

Lemma b2n_le (a b : bool) : (a = true -> b = true) -> (b2n a <= b2n b)%nat.
Proof. destruct a, b; simpl; intros H; lia. Qed.

Lemma severity_by_issue_count u fc :
  let a := analyze_usage_pattern u fc in
  (severity_ a = HIGH <-> (3 <= length (issues a))%nat)
  /\ (severity_ a = MEDIUM <-> (1 <= length (issues a) < 3)%nat)
  /\ (severity_ a = LOW <-> length (issues a) = 0%nat).
Proof.
  unfold analyze_usage_pattern. cbn [severity_ issues].
  generalize (length (fst (step_defensive u fc
    (step_channel u fc (step_no_threading u fc (step_read_heavy u fc
      (step_clone u fc (step_simple u fc ([], []))))))))) as n.
  intros n. unfold severity_of.
  destruct (Z.geb_spec (Z.of_nat n) 3), (Z.geb_spec (Z.of_nat n) 1);
    repeat split; intros; try discriminate; try lia.
Qed.

(** The unit with six clones yields the occurrence of the sample. *)
Lemma clone_only_occurrence_extracted :
  occurrences_of_content (txt "/repo/src/st.rs") clone_only_text
  = [clone_only_occurrence].
Proof. vm_compute. reflexivity. Qed.

(** C7, the claim as stated fails: the severity is not monotone in the
    number of true checks.  On the occurrence of [clone_only_text] exactly
    one check is true, the clone count, and the severity is MEDIUM; on the
    occurrence of [sender_text] exactly one check is true as well, the
    channel check, and the severity is LOW. *)
Lemma true_checks_do_not_order_severity :
  occurrences_of_content (txt "/repo/src/st.rs") clone_only_text
  = [clone_only_occurrence]
  /\ occurrences_of_content (txt "/repo/src/tx.rs") sender_text
     = [sender_occurrence]
  /\ map (fun chk => chk clone_only_occurrence clone_only_text) checks
     = [false; true; false; false; false; false]
  /\ map (fun chk => chk sender_occurrence sender_text) checks
     = [false; false; false; false; true; false]
  /\ true_checks clone_only_occurrence clone_only_text = 1%nat
  /\ true_checks sender_occurrence sender_text = 1%nat
  /\ severity_ (analyze_usage_pattern clone_only_occurrence clone_only_text)
     = MEDIUM
  /\ severity_ (analyze_usage_pattern sender_occurrence sender_text) = LOW
  /\ ~ sev_le MEDIUM LOW.
Proof.
  split; [ vm_compute; reflexivity | ].
  split; [ vm_compute; reflexivity | ].
  split; [ vm_compute; reflexivity | ].
  split; [ vm_compute; reflexivity | ].
  split; [ vm_compute; reflexivity | ].
  split; [ vm_compute; reflexivity | ].
  split; [ vm_compute; reflexivity | ].
  split; [ vm_compute; reflexivity | ].
  unfold sev_le. simpl. lia.
Qed.

Lemma true_issue_checks_sum u fc :
  true_issue_checks u fc
  = (b2n (chk_simple u fc) + b2n (chk_clone u fc) + b2n (chk_read_heavy u fc)
     + b2n (chk_no_threading u fc) + b2n (chk_defensive u fc))%nat.
Proof.
  unfold true_issue_checks, issue_checks. cbn [filter].
  destruct (chk_simple u fc), (chk_clone u fc), (chk_read_heavy u fc),
           (chk_no_threading u fc), (chk_defensive u fc); reflexivity.
Qed.

(** C7 as amended: when every check that is true on a first input is true
    on a second, the severity of the second is at least that of the first
    in the order LOW, MEDIUM, HIGH.  The severity is HIGH exactly with three
    issues or more, MEDIUM exactly with one or two, LOW exactly with none,
    and the issues are as many as the true checks among the five that
    report one: the severity is monotone in that number, not in the number
    of all true checks, the channel check reporting no issue. *)
Theorem severity_is_monotone u1 fc1 u2 fc2 :
  (forall chk, In chk checks -> chk u1 fc1 = true -> chk u2 fc2 = true) ->
  let a1 := analyze_usage_pattern u1 fc1 in
  let a2 := analyze_usage_pattern u2 fc2 in
  sev_le (severity_ a1) (severity_ a2)
  /\ length (issues a1) = true_issue_checks u1 fc1
  /\ length (issues a2) = true_issue_checks u2 fc2
  /\ (true_issue_checks u1 fc1 <= true_issue_checks u2 fc2)%nat
  /\ (severity_ a2 = HIGH <-> (3 <= true_issue_checks u2 fc2)%nat)
  /\ (severity_ a2 = MEDIUM <-> (1 <= true_issue_checks u2 fc2 < 3)%nat)
  /\ (severity_ a2 = LOW <-> true_issue_checks u2 fc2 = 0%nat).
Proof.
  intros Hsub a1 a2.
  assert (H1 : length (issues a1) = true_issue_checks u1 fc1).
  { subst a1. rewrite true_issue_checks_sum. apply analysis_lengths. }
  assert (H2 : length (issues a2) = true_issue_checks u2 fc2).
  { subst a2. rewrite true_issue_checks_sum. apply analysis_lengths. }
  assert (Hle : (true_issue_checks u1 fc1 <= true_issue_checks u2 fc2)%nat).
  { rewrite !true_issue_checks_sum.
    pose proof (b2n_le _ _ (Hsub chk_simple ltac:(simpl; tauto))).
    pose proof (b2n_le _ _ (Hsub chk_clone ltac:(simpl; tauto))).
    pose proof (b2n_le _ _ (Hsub chk_read_heavy ltac:(simpl; tauto))).
    pose proof (b2n_le _ _ (Hsub chk_no_threading ltac:(simpl; tauto))).
    pose proof (b2n_le _ _ (Hsub chk_defensive ltac:(simpl; tauto))).
    lia. }
  split.
  { subst a1 a2. unfold analyze_usage_pattern in *. cbn [severity_ issues] in *.
    apply severity_of_mono. lia. }
  split; [ exact H1 | ]. split; [ exact H2 | ]. split; [ exact Hle | ].
  rewrite <- H2. exact (severity_by_issue_count u2 fc2).
Qed.

Lemma severity_is_monotone_witness :
  severity_ (analyze_usage_pattern sender_occurrence sender_text) = LOW
  /\ severity_ (analyze_usage_pattern cloning_occurrence cloning_text) = MEDIUM
  /\ sev_le (severity_ (analyze_usage_pattern sender_occurrence sender_text))
            (severity_ (analyze_usage_pattern cloning_occurrence cloning_text)).
Proof.
  assert (Hsub : forall chk, In chk checks ->
                   chk sender_occurrence sender_text = true ->
                   chk cloning_occurrence cloning_text = true).
  { intros chk Hin. simpl in Hin.
    repeat (destruct Hin as [ <- | Hin ]; [ vm_compute; auto | ]).
    contradiction. }
  split; [ vm_compute; reflexivity | ].
  split; [ vm_compute; reflexivity | ].
  exact (proj1 (severity_is_monotone sender_occurrence sender_text
                  cloning_occurrence cloning_text Hsub)).
Defined.

End ArcMutexProps.

(** ** Unreadable units in the passes *)

Module RobustnessProps.
Import Py Re Fs AuditTraits Spec Samples.

(** C4 (the code departs from it): in the corpus of [unit_a], [unit_bad] and
    [unit_c], whose second unit is not valid UTF-8, the usage profiler skips
    the bad unit and counts the other two as if it were absent; but the
    declaration pass of [audit_traits.main] and the occurrence pass of
    [audit_arc_mutex.main] both end with the UnicodeDecodeError, although
    each completes on the corpus without the bad unit. *)
Theorem unreadable_unit_aborts_extraction :
  check_trait_usage (txt "T") [unit_a; unit_bad; unit_c]
  = check_trait_usage (txt "T") [unit_a; unit_c]
  /\ impl_count (check_trait_usage (txt "T") [unit_a; unit_bad; unit_c]) = 2
  /\ impl_files (check_trait_usage (txt "T") [unit_a; unit_bad; unit_c])
     = [fst unit_a; fst unit_c]
  /\ TraitsMain.main [unit_a; unit_bad; unit_c] = Raise UnicodeDecodeError
  /\ ArcMutexMain.main [unit_a; unit_bad; unit_c] = Raise UnicodeDecodeError
  /\ (exists r, TraitsMain.main [unit_a; unit_c] = Ok r)
  /\ (exists r, ArcMutexMain.main [unit_a; unit_c] = Ok r).
Proof.
  split; [ vm_compute; reflexivity | ].
  split; [ vm_compute; reflexivity | ].
  split; [ vm_compute; reflexivity | ].
  split; [ vm_compute; reflexivity | ].
  split; [ vm_compute; reflexivity | ].
  split; eexists; vm_compute; reflexivity.
Qed.

End RobustnessProps.

(** ** Test files *)

Module TestFileProps.
Import Py Spec.

(** C9, the claim as stated fails: the path [src/latest_version.rs] has no
    [tests] or [test] directory segment and no test suffix, and both
    scripts classify it as test code, because [test_] occurs inside
    [latest_version]. *)
Lemma substring_elsewhere_is_test :
  test_by_convention (txt "/repo/src/latest_version.rs") = false
  /\ dir_segments (txt "/repo/src/latest_version.rs")
     = [txt ""; txt "repo"; txt "src"]
  /\ AuditArcMutex.is_test_file (txt "/repo/src/latest_version.rs") = true
  /\ ComprehensiveAudit.is_test_file (txt "/repo/src/latest_version.rs") = true.
Proof. vm_compute. repeat split; reflexivity. Qed.

(** C9 as amended: a unit is classified as test code if and only if its path
    contains [/tests/] or [/test/], or ends with [_test.rs] or [_tests.rs],
    or contains [test_] or [tests.rs] anywhere; in comprehensive_audit.py
    also when it contains [benches/]. *)
Theorem is_test_file_by_substrings path :
  (AuditArcMutex.is_test_file path = true
   <-> substring (txt "/tests/") path \/ substring (txt "/test/") path
       \/ suffix (txt "_test.rs") path \/ suffix (txt "_tests.rs") path
       \/ substring (txt "test_") path \/ substring (txt "tests.rs") path)
  /\ (ComprehensiveAudit.is_test_file path = true
      <-> substring (txt "/tests/") path \/ substring (txt "/test/") path
          \/ suffix (txt "_test.rs") path \/ suffix (txt "_tests.rs") path
          \/ substring (txt "test_") path \/ substring (txt "tests.rs") path
          \/ substring (txt "benches/") path).
Proof.
  unfold AuditArcMutex.is_test_file, ComprehensiveAudit.is_test_file,
    substring, suffix.
  rewrite !orb_true_iff, !PyFacts.contains_substring, !PyFacts.endswith_suffix.
  tauto.
Qed.

End TestFileProps.

(** ** Soundness of the matcher *)

Module ReSound.
Import Py Re ReSpec.

Lemma firstn_plus {A} (a b : nat) : forall l : list A,
  firstn (a + b) l = firstn a l ++ firstn b (skipn a l).
Proof.
  induction a as [ | a IH ]; intros l; simpl.
  - reflexivity.
  - destruct l as [ | x l ]; simpl.
    + rewrite firstn_nil. reflexivity.
    + rewrite IH. reflexivity.
Qed.

(** Adjacent pieces of a text join up. *)
Lemma seg_app {A} (s : list A) (i j k : nat) :
  (i <= j)%nat -> (j <= k)%nat -> seg s i k = seg s i j ++ seg s j k.
Proof.
  intros Hij Hjk. unfold seg.
  replace (k - i)%nat with ((j - i) + (k - j))%nat by lia.
  rewrite firstn_plus, skipn_skipn.
  replace (j - i + i)%nat with j by lia. reflexivity.
Qed.

Lemma seg_length {A} (s : list A) (i j : nat) :
  (j <= length s)%nat -> length (seg s i j) = (j - i)%nat.
Proof.
  intros H. unfold seg. rewrite length_firstn, length_skipn. lia.
Qed.

Lemma seg_cons {A} (s : list A) (i : nat) (c : A) (j : nat) :
  nth_error s i = Some c -> (i < j)%nat -> seg s i j = c :: seg s (S i) j.
Proof.
  intros Hc Hij. unfold seg.
  destruct (nth_error_split s i Hc) as [l1 [l2 [Hs Hl]]]. subst s.
  replace (skipn i (l1 ++ c :: l2)) with (c :: l2)
    by (rewrite skipn_app, skipn_all2, Hl, Nat.sub_diag by lia; reflexivity).
  replace (skipn (S i) (l1 ++ c :: l2)) with l2.
  2:{ rewrite skipn_app, skipn_all2 by lia.
      replace (S i - length l1)%nat with 1%nat by lia. reflexivity. }
  destruct (j - i)%nat as [ | d ] eqn:E; [ lia | ].
  replace (j - S i)%nat with d by lia. reflexivity.
Qed.

Section Sound.
Variable s : str.

(** A match never moves backwards and stays inside the text. *)
Lemma matches_le r i j : matches s r i j -> (i <= j)%nat.
Proof. induction 1; lia. Qed.

Lemma matches_bound r i j :
  matches s r i j -> (i <= length s)%nat -> (j <= length s)%nat.
Proof.
  induction 1; intros Hi; auto.
  assert (i < length s)%nat by (apply nth_error_Some; congruence). lia.
Qed.

Lemma star_loop_sound r body k :
  (forall k' pos c res,
      body pos c k' = Some res ->
      exists pos' c', matches s r pos pos' /\ k' pos' c' = Some res
                      /\ (has_group r = false -> c' = c)) ->
  forall fuel pos c res,
    star_loop body k fuel pos c = Some res ->
    exists pos' c', matches s (Star r) pos pos' /\ k pos' c' = Some res
                    /\ (has_group r = false -> c' = c).
Proof.
  intros Hbody.
  induction fuel as [ | fuel IHf ]; intros pos c res H; simpl in H.
  - exists pos, c. split; [ constructor | auto ].
  - match type of H with
    | match ?m with _ => _ end = _ => destruct m eqn:E
    end.
    + inversion H; subst.
      destruct (Hbody _ _ _ _ E) as [p1 [c1 [M1 [K1 G1]]]].
      simpl in K1. destruct (pos <? p1)%nat; [ | discriminate ].
      destruct (IHf _ _ _ K1) as [p2 [c2 [M2 [K2 G2]]]].
      exists p2, c2. split; [ econstructor; eassumption | ].
      split; [ exact K2 | ].
      intros G. rewrite (G2 G). apply (G1 G).
    + exists pos, c. split; [ constructor | auto ].
Qed.

(** Whatever the matcher returns, it got from its continuation at the end
    of a match of the pattern; a pattern without groups leaves the group
    spans as they were. *)
Lemma mt_sound r :
  forall k pos c res,
    mt s r pos c k = Some res ->
    exists pos' c', matches s r pos pos' /\ k pos' c' = Some res
                    /\ (has_group r = false -> c' = c).
Proof.
  induction r as [ | p | r1 IH1 r2 IH2 | r1 IH1 r2 IH2 | r IH | n r IH | | | ];
    intros k pos c res H; cbn [mt] in H.
  - exists pos, c. split; [ constructor | auto ].
  - unfold char_at in H.
    destruct (nth_error s pos) as [ch | ] eqn:E; [ | discriminate ].
    destruct (p ch) eqn:Ep; [ | discriminate ].
    exists (S pos), c. split; [ econstructor; eassumption | auto ].
  - destruct (IH1 _ _ _ _ H) as [p1 [c1 [M1 [K1 G1]]]].
    destruct (IH2 _ _ _ _ K1) as [p2 [c2 [M2 [K2 G2]]]].
    exists p2, c2. split; [ econstructor; eassumption | ].
    split; [ exact K2 | ].
    simpl. intros G. apply orb_false_iff in G. destruct G as [Ga Gb].
    rewrite (G2 Gb). apply (G1 Ga).
  - destruct (mt s r1 pos c k) eqn:E.
    + inversion H; subst.
      destruct (IH1 _ _ _ _ E) as [p1 [c1 [M1 [K1 G1]]]].
      exists p1, c1. split; [ apply M_AltL; exact M1 | ].
      split; [ exact K1 | ].
      simpl. intros G. apply orb_false_iff in G. apply G1, G.
    + destruct (IH2 _ _ _ _ H) as [p1 [c1 [M1 [K1 G1]]]].
      exists p1, c1. split; [ apply M_AltR; exact M1 | ].
      split; [ exact K1 | ].
      simpl. intros G. apply orb_false_iff in G. apply G1, G.
  - exact (star_loop_sound r (mt s r) k IH _ _ _ _ H).
  - destruct (IH _ _ _ _ H) as [p1 [c1 [M1 [K1 _]]]].
    exists p1, ((n, (pos, p1)) :: c1).
    split; [ constructor; exact M1 | ].
    split; [ exact K1 | simpl; discriminate ].
  - destruct (at_bol s pos) eqn:E; [ | discriminate ].
    exists pos, c. split; [ constructor; exact E | auto ].
  - destruct (at_eol s pos) eqn:E; [ | discriminate ].
    exists pos, c. split; [ constructor; exact E | auto ].
  - destruct (at_wordb s pos) eqn:E; [ | discriminate ].
    exists pos, c. split; [ constructor; exact E | auto ].
Qed.

(** A group records the span its body matched. *)
Lemma mt_group_sound n r k pos c res :
  mt s (Group n r) pos c k = Some res ->
  exists pos' c', matches s r pos pos'
                  /\ k pos' ((n, (pos, pos')) :: c') = Some res.
Proof.
  intros H. cbn [mt] in H.
  destruct (mt_sound r _ _ _ _ H) as [p1 [c1 [M1 [K1 _]]]]. eauto.
Qed.

(** A literal matches its own characters. *)
Lemma matches_Lits l : forall i j,
  matches s (Lits l) i j -> (j = i + length l)%nat /\ seg s i j = l.
Proof.
  induction l as [ | c l IH ]; intros i j H.
  - inversion H; subst. split; [ simpl; lia | ].
    unfold seg. rewrite Nat.sub_diag. reflexivity.
  - assert (Hone : forall i j, matches s (Lit c) i j ->
                     j = S i /\ nth_error s i = Some c).
    { intros i0 j0 H0. inversion H0; subst. split; [ reflexivity | ].
      match goal with Hp : ascii_eqb _ _ = true |- _ =>
        apply PyFacts.ascii_eqb_eq in Hp; subst end. assumption. }
    destruct l as [ | d l ].
    + simpl in H. destruct (Hone _ _ H) as [-> Hc].
      split; [ simpl; lia | ].
      rewrite (seg_cons s i c (S i) Hc) by lia.
      unfold seg. rewrite Nat.sub_diag. reflexivity.
    + change (Lits (c :: d :: l)) with (Seq (Lit c) (Lits (d :: l))) in H.
      inversion H; subst.
      match goal with H1 : matches s (Lit c) _ _ |- _ =>
        destruct (Hone _ _ H1) as [-> Hc] end.
      match goal with H2 : matches s _ (S i) j |- _ =>
        destruct (IH _ _ H2) as [Hj Hseg]; pose proof (matches_le _ _ _ H2) end.
      split; [ simpl in *; lia | ].
      rewrite (seg_cons s i c j Hc) by lia. rewrite Hseg. reflexivity.
Qed.

(** One or more characters of a class. *)
Lemma matches_star_set p : forall i j,
  matches s (Star (Set_ p)) i j ->
  forall x, (i <= x < j)%nat ->
            exists c, nth_error s x = Some c /\ p c = true.
Proof.
  intros i j H. remember (Star (Set_ p)) as r eqn:Er.
  induction H; try discriminate; inversion Er; subst; intros x Hx.
  - lia.
  - match goal with H1 : matches s (Set_ p) _ _ |- _ => inversion H1; subst end.
    destruct (Nat.eq_dec x i) as [-> | Hne]; [ eauto | ].
    apply IHmatches2; [ reflexivity | lia ].
Qed.

Lemma matches_plus_set p i j :
  matches s (Plus (Set_ p)) i j ->
  (i < j)%nat
  /\ forall x, (i <= x < j)%nat ->
               exists c, nth_error s x = Some c /\ p c = true.
Proof.
  intros H. unfold Plus in H. inversion H; subst.
  match goal with H1 : matches s (Set_ p) _ _ |- _ => inversion H1; subst end.
  match goal with H2 : matches s (Star _) _ _ |- _ =>
    pose proof (matches_le _ _ _ H2);
    pose proof (matches_star_set p _ _ H2) as Hall end.
  split; [ lia | ].
  intros x Hx. destruct (Nat.eq_dec x i) as [-> | Hne]; [ eauto | ].
  apply Hall. lia.
Qed.


End Sound.

(** What [match_at] returns is a match of the pattern. *)
Lemma match_at_sound s r pos m :
  match_at s r pos = Some m ->
  m_start m = pos /\ matches s r pos (m_end m).
Proof.
  unfold match_at. intros H.
  destruct (mt s r pos [] _) as [ [e c] | ] eqn:E; [ | discriminate ].
  inversion H; subst; simpl. split; [ reflexivity | ].
  destruct (mt_sound s r _ _ _ _ E) as [p1 [c1 [M1 [K1 _]]]].
  inversion K1; subst. exact M1.
Qed.

End ReSound.

(** ** More on [extract_traits] *)

Module ExtractMore.
Import Py Re ReSpec Fs AuditTraits Spec TraitSamples.

Lemma mt_seq_sound s r1 r2 k pos c res :
  mt s (Seq r1 r2) pos c k = Some res ->
  exists p1 c1, matches s r1 pos p1 /\ mt s r2 p1 c1 k = Some res.
Proof.
  intros H. cbn [mt] in H.
  destruct (ReSound.mt_sound s r1 _ _ _ _ H) as [p1 [c1 [M1 [K1 _]]]]. eauto.
Qed.

Lemma mt_seq_group_sound s n r r2 k pos c res :
  mt s (Seq (Group n r) r2) pos c k = Some res ->
  exists p1 c1, matches s r pos p1
                /\ mt s r2 p1 ((n, (pos, p1)) :: c1) k = Some res.
Proof.
  intros H.
  change (mt s (Group n r) pos c (fun p c' => mt s r2 p c' k) = Some res) in H.
  apply ReSound.mt_group_sound in H. exact H.
Qed.


(** Word characters beyond the 7-bit range take part in names: the
    declaration [Caf\233] with the member [\233t] (233 is e with an acute
    accent) is extracted under these names. *)
Lemma names_beyond_seven_bits :
  let e := ascii_of_nat 233 in
  map (fun t => (name t, methods t))
      (traits_of_content (txt "a.rs")
         (txt "trait Caf" ++ [e] ++ txt " { fn " ++ [e] ++ txt "t(); }"))
  = [(txt "Caf" ++ [e], [[e] ++ txt "t"])].
Proof. vm_compute. reflexivity. Qed.

(** The loop over the lines keeps the count and the list of names in step. *)
Lemma collect_methods_in_step lines : forall mc ms,
  fst (collect_methods lines mc ms) - Z.of_nat (length (snd (collect_methods lines mc ms)))
  = mc - Z.of_nat (length ms).
Proof.
  induction lines as [ | l lines IH ]; intros mc ms; simpl.
  - reflexivity.
  - rewrite IH, length_app. lia.
Qed.



End ExtractMore.

(** ** Order and line numbers of what the extractors report *)

Module OrderFacts.
Import Py Re ReSpec.

Lemma count_from_char_app c a b :
  count_from [c] (a ++ b) 0 = (count_from [c] a 0 + count_from [c] b 0)%nat.
Proof.
  induction a as [ | x a IH ]; simpl.
  - reflexivity.
  - destruct (ascii_eqb c x && true); simpl; rewrite IH; reflexivity.
Qed.

(** The prefix of a text has no more newlines than a longer prefix. *)
Lemma count_firstn_mono c (s : str) (a b : nat) :
  (a <= b)%nat -> (count (firstn a s) [c] <= count (firstn b s) [c])%nat.
Proof.
  intros H. unfold count.
  replace b with (a + (b - a))%nat by lia.
  rewrite ReSound.firstn_plus, count_from_char_app. lia.
Qed.

Lemma count_firstn_le c (s : str) (a : nat) :
  (count (firstn a s) [c] <= count s [c])%nat.
Proof.
  unfold count. rewrite <- (firstn_skipn a s) at 2.
  rewrite count_from_char_app. lia.
Qed.

(** Splitting at a character gives one piece more than its occurrences. *)
Lemma length_split c s : length (split c s) = S (count s [c]).
Proof.
  unfold count. induction s as [ | x s IH ]; simpl.
  - reflexivity.
  - replace (ascii_eqb c x && true) with (ascii_eqb x c)
      by (rewrite andb_true_r; unfold ascii_eqb; apply Ascii.eqb_sym).
    destruct (ascii_eqb x c); simpl.
    + rewrite IH. reflexivity.
    + destruct (split c s) eqn:E; simpl in *; [ discriminate | ].
      rewrite <- IH. reflexivity.
Qed.

Lemma slice_from_start {A} (l : list A) (n : nat) :
  slice l 0 (Z.of_nat n) = firstn n l.
Proof.
  unfold slice, slice_index. simpl.
  destruct (Z.ltb_spec (Z.of_nat n) 0); [ lia | ].
  replace (Z.to_nat (Z.min (Z.of_nat (length l)) (Z.max 0 0))) with 0%nat by lia.
  simpl.
  destruct (Nat.le_gt_cases n (length l)).
  - f_equal. lia.
  - rewrite !firstn_all2 by lia. reflexivity.
Qed.

Lemma search_from_ge s r fuel : forall pos m,
  search_from s r pos fuel = Some m -> (pos <= m_start m)%nat.
Proof.
  induction fuel as [ | fuel IH ]; intros pos m H; simpl in H.
  - discriminate.
  - destruct (match_at s r pos) eqn:E.
    + inversion H; subst.
      destruct (ReSound.match_at_sound _ _ _ _ E) as [-> _]. lia.
    + apply IH in H. lia.
Qed.

(** The matches of one scan do not overlap and come in text order. *)
Lemma matches_from_ordered s r fuel : forall pos,
  Forall (fun m => (pos <= m_start m)%nat /\ (m_start m <= m_end m)%nat)
         (matches_from s r pos fuel)
  /\ StronglySorted (fun a b => (m_end a <= m_start b)%nat)
                    (matches_from s r pos fuel).
Proof.
  induction fuel as [ | fuel IH ]; intros pos; simpl.
  - split; constructor.
  - destruct (search_at s r pos) as [m | ] eqn:E; [ | split; constructor ].
    pose proof (search_from_ge _ _ _ _ _ E) as Hge.
    pose proof (ReFacts.search_from_match_at _ _ _ _ _ E) as Hat.
    apply ReSound.match_at_sound in Hat. destruct Hat as [_ Hm].
    apply ReSound.matches_le in Hm.
    destruct (IH (if (m_start m <? m_end m)%nat then m_end m else S (m_end m)))
      as [HF HS].
    assert (Hnext : (m_end m <= if (m_start m <? m_end m)%nat
                                then m_end m else S (m_end m))%nat)
      by (destruct (m_start m <? m_end m)%nat; lia).
    split.
    + constructor; [ lia | ].
      eapply Forall_impl; [ | exact HF ]. simpl. intros a [Ha Hb]. lia.
    + constructor; [ exact HS | ].
      eapply Forall_impl; [ | exact HF ]. simpl. intros a [Ha Hb]. lia.
Qed.

Lemma StronglySorted_map {A B} (R : A -> A -> Prop) (R' : B -> B -> Prop)
    (f : A -> B) (P : A -> Prop) (l : list A) :
  (forall a b, P a -> P b -> R a b -> R' (f a) (f b)) ->
  Forall P l -> StronglySorted R l -> StronglySorted R' (map f l).
Proof.
  intros Hf HP HS. induction HS as [ | a l HS IH Hall ]; simpl.
  - constructor.
  - inversion HP; subst. constructor; [ auto | ].
    apply Forall_map. rewrite Forall_forall in *.
    intros b Hb. apply Hf; auto.
Qed.

End OrderFacts.

Module ExtractOrder.
Import Py Re ReSpec Fs AuditTraits Spec.

Lemma line_of_match file_path content m :
  line (trait_of_match file_path content m)
  = Z.of_nat (count (firstn (m_start m) content) [newline]) + 1.
Proof.
  unfold trait_of_match. destruct (collect_methods _ _ _) as [mc ms].
  cbn [line]. rewrite OrderFacts.slice_from_start. reflexivity.
Qed.

(** [extract_traits] reports the declarations in text order: the line
    numbers never decrease along the result, and each lies between 1 and the
    number of lines of the file. *)
Theorem traits_in_text_order file_path content :
  StronglySorted (fun a b => line a <= line b)
                 (traits_of_content file_path content)
  /\ Forall (fun t => 1 <= line t
                      <= Z.of_nat (length (split newline content)))
            (traits_of_content file_path content).
Proof.
  unfold traits_of_content, finditer.
  destruct (OrderFacts.matches_from_ordered content trait_pattern
              (S (length content)) 0) as [HF HS].
  split.
  - eapply OrderFacts.StronglySorted_map; [ | exact HF | exact HS ].
    simpl. intros a b [_ Ha] [_ Hb] Hab. rewrite !line_of_match.
    pose proof (OrderFacts.count_firstn_mono newline content
                  (m_start a) (m_start b) ltac:(lia)). lia.
  - apply Forall_map. rewrite Forall_forall. intros m _.
    rewrite line_of_match, OrderFacts.length_split.
    pose proof (OrderFacts.count_firstn_le newline content (m_start m)). lia.
Qed.

End ExtractOrder.

(** ** More on [extract_arc_mutex_usage] *)

Module OccurrenceMore.
Import Py Re ReSpec Fs AuditArcMutex Spec Samples.

(** Every occurrence comes from a match on one of the lines, numbered from
    the start of the scan. *)
Lemma scan_lines_In file_path lines todo : forall line_num o,
  In o (scan_lines file_path lines todo line_num) ->
  exists k l m,
    nth_error todo k = Some l
    /\ In m (finditer pattern l)
    /\ o = occurrence_of_match file_path lines (line_num + Z.of_nat k) l m.
Proof.
  induction todo as [ | l todo IH ]; intros line_num o H; simpl in H.
  - contradiction.
  - apply in_app_or in H. destruct H as [H | H].
    + apply in_map_iff in H. destruct H as [m [Ho Hm]].
      exists 0%nat, l, m. split; [ reflexivity | ].
      split; [ exact Hm | ]. rewrite <- Ho. f_equal. lia.
    + destruct (IH _ _ H) as [k [l' [m [Hk [Hm Ho]]]]].
      exists (S k), l', m. split; [ exact Hk | ]. split; [ exact Hm | ].
      rewrite Ho. f_equal. lia.
Qed.

Lemma matches_plus_then s p r2 i j :
  matches s (Seq (Plus (Set_ p)) r2) i j ->
  (i < j)%nat /\ exists c, nth_error s i = Some c /\ p c = true.
Proof.
  intros H. inversion H as [ | | ra rb i0 j0 k0 Ha Hb | | | | | | | | ]; subst.
  apply ReSound.matches_plus_set in Ha. destruct Ha as [Hlt Hall].
  apply ReSound.matches_le in Hb.
  split; [ lia | ]. apply Hall. lia.
Qed.

(** The parts of a match of the occurrence pattern. *)
Lemma pattern_parts l m :
  In m (finditer pattern l) ->
  group0 l m = txt "Arc<Mutex<" ++ group l 1 m ++ txt ">>"
  /\ group l 1 m <> [].
Proof.
  intros Hin. apply ReFacts.finditer_match_at in Hin.
  unfold match_at in Hin.
  destruct (mt l pattern (m_start m) [] _) as [ [e c] | ] eqn:E;
    [ | discriminate ].
  injection Hin as Hm. rewrite <- Hm. unfold group0, group. cbn [m_start m_end m_caps].
  clear Hm. unfold pattern, Seqs in E.
  apply ExtractMore.mt_seq_sound in E. destruct E as [p1 [c1 [M1 E]]].
  apply ExtractMore.mt_seq_group_sound in E. destruct E as [p2 [c2 [M2 E]]].
  apply ReSound.mt_sound in E. destruct E as [p3 [c3 [M3 [K3 G3]]]].
  inversion K3; subst. rewrite (G3 eq_refl). cbn [cap_lookup Nat.eqb].
  apply ReSound.matches_Lits in M1. destruct M1 as [Hp1 Hseg1].
  apply ReSound.matches_Lits in M3. destruct M3 as [Hp3 Hseg3].
  pose proof (ReSound.matches_le _ _ _ _ M2) as Hle.
  fold (seg l (m_start m) e). fold (seg l p1 p2).
  split.
  - rewrite (ReSound.seg_app l (m_start m) p1 e) by lia.
    rewrite (ReSound.seg_app l p1 p2 e) by lia.
    rewrite Hseg1, Hseg3. reflexivity.
  - apply matches_plus_then in M2. destruct M2 as [Hlt [ch [Hch _]]].
    rewrite (ReSound.seg_cons l p1 ch p2 Hch) by lia. discriminate.
Qed.

(** Every occurrence [extract_arc_mutex_usage] records carries the path it
    was given, a line number between 1 and the number of lines, the
    stripped text of that line, and a matched text made of the opening
    [Arc<Mutex<], a non-empty inner type and the closing [>>]. *)
Theorem occurrence_fields file_path content o :
  In o (occurrences_of_content file_path content) ->
  file_ o = file_path
  /\ 1 <= line o <= Z.of_nat (length (split newline content))
  /\ (exists l, nth_error (split newline content) (Z.to_nat (line o - 1))
                = Some l
                /\ line_content o = strip l)
  /\ full_match o = txt "Arc<Mutex<" ++ inner_type o ++ txt ">>"
  /\ inner_type o <> [].
Proof.
  intros Hin. unfold occurrences_of_content in Hin.
  destruct (scan_lines_In _ _ _ _ _ Hin) as [k [l [m [Hk [Hm Ho]]]]].
  subst o. unfold occurrence_of_match.
  cbn [file_ line line_content full_match inner_type].
  assert (k < length (split newline content))%nat
    by (apply nth_error_Some; congruence).
  destruct (pattern_parts l m Hm) as [Hparts Hne].
  split; [ reflexivity | ]. split; [ lia | ].
  split.
  { exists l. replace (Z.to_nat (1 + Z.of_nat k - 1)) with k by lia. auto. }
  split; assumption.
Qed.

Lemma occurrence_fields_witness :
  In sender_occurrence
     (occurrences_of_content (txt "/repo/src/tx.rs") sender_text)
  /\ full_match sender_occurrence
     = txt "Arc<Mutex<" ++ inner_type sender_occurrence ++ txt ">>".
Proof.
  assert (Hin : In sender_occurrence
                  (occurrences_of_content (txt "/repo/src/tx.rs") sender_text))
    by (vm_compute; left; reflexivity).
  split; [ exact Hin | ].
  exact (proj1 (proj2 (proj2 (proj2
           (occurrence_fields (txt "/repo/src/tx.rs") sender_text
              sender_occurrence Hin))))).
Defined.

End OccurrenceMore.

(** ** The context window and the checks of the severity classifier *)

Module AnalysisMore.
Import Py Re ReSpec Fs AuditArcMutex Spec Samples MoreSpec.

(** The window around the line of index [i]: the line sits at index
    [min i 2] of the window, and the window has one to six lines. *)
Lemma context_lines_around (lines : list str) (i : nat) (l : str) :
  nth_error lines i = Some l ->
  nth_error (context_lines lines (Z.of_nat i + 1)) (Nat.min i 2) = Some l
  /\ length (context_lines lines (Z.of_nat i + 1))
     = (Nat.min (length lines) (i + 4) - (i - 2))%nat.
Proof.
  intros Hl.
  assert (Hi : (i < length lines)%nat) by (apply nth_error_Some; congruence).
  unfold context_lines, slice.
  replace (Z.max 0 (Z.of_nat i + 1 - 3)) with (Z.of_nat (i - 2)) by lia.
  replace (Z.min (Z.of_nat (length lines)) (Z.of_nat i + 1 + 3))
    with (Z.of_nat (Nat.min (length lines) (i + 4))) by lia.
  rewrite !PyFacts.slice_index_nat by lia.
  split.
  - rewrite nth_error_skipn, nth_error_firstn.
    replace (i - 2 + Nat.min i 2)%nat with i by lia.
    destruct (Nat.ltb_spec i (Nat.min (length lines) (i + 4))); [ exact Hl | lia ].
  - rewrite length_skipn, length_firstn. lia.
Qed.

(** The context of every recorded occurrence is a window of the lines of
    the file.  With [i] the index, counted from 0, of the matched line among
    the lines of the file, the context is the lines of index [i - 2] (or 0)
    to [i + 3] (or the last), joined by newlines.  The window has one to six
    lines, and the matched line, which the occurrence keeps stripped, comes
    in it after at most two other lines. *)
Theorem context_holds_matched_line file_path content o :
  In o (occurrences_of_content file_path content) ->
  let lines := split newline content in
  let i := Z.to_nat (line o - 1) in
  let window := skipn (i - 2) (firstn (i + 4) lines) in
  context o = join [newline] window
  /\ (exists l, nth_error lines i = Some l
                /\ nth_error window (Nat.min i 2) = Some l
                /\ line_content o = strip l)
  /\ length window = (Nat.min (length lines) (i + 4) - (i - 2))%nat
  /\ (1 <= length window <= 6)%nat.
Proof.
  intros Hin lines i window. unfold occurrences_of_content in Hin.
  fold lines in Hin.
  destruct (OccurrenceMore.scan_lines_In _ _ _ _ _ Hin)
    as [k [l [m [Hk [_ Ho]]]]].
  assert (Hi : i = k).
  { subst i o. unfold occurrence_of_match. cbn [line]. lia. }
  assert (Hlt : (k < length lines)%nat)
    by (apply nth_error_Some; congruence).
  destruct (context_lines_around _ _ _ Hk) as [Hnth Hlen].
  assert (Hw : context_lines lines (Z.of_nat k + 1) = window).
  { subst window. rewrite Hi. unfold context_lines, slice.
    replace (Z.max 0 (Z.of_nat k + 1 - 3)) with (Z.of_nat (k - 2)) by lia.
    replace (Z.min (Z.of_nat (length lines)) (Z.of_nat k + 1 + 3))
      with (Z.of_nat (Nat.min (length lines) (k + 4))) by lia.
    rewrite !PyFacts.slice_index_nat by lia.
    f_equal.
    destruct (Nat.le_ge_cases (length lines) (k + 4)) as [Hle | Hge].
    - rewrite Nat.min_l by exact Hle.
      rewrite firstn_all, firstn_all2 by exact Hle. reflexivity.
    - rewrite Nat.min_r by exact Hge. reflexivity. }
  rewrite Hw in Hnth, Hlen. rewrite Hi.
  split.
  { rewrite Ho. unfold occurrence_of_match. cbn [context].
    replace (1 + Z.of_nat k) with (Z.of_nat k + 1) by lia.
    rewrite Hw. reflexivity. }
  split.
  { exists l. split; [ exact Hk | ]. split; [ exact Hnth | ].
    rewrite Ho. reflexivity. }
  split; [ exact Hlen | rewrite Hlen; lia ].
Qed.

Lemma context_holds_matched_line_witness :
  context sender_occurrence
  = join [newline] (skipn 0 (firstn 5 (split newline sender_text))).
Proof.
  exact (proj1 (context_holds_matched_line (txt "/repo/src/tx.rs") sender_text
                  sender_occurrence
                  ltac:(vm_compute; left; reflexivity))).
Defined.

(** The analysis never holds more than five issues or four
    recommendations, and never more recommendations than issues, except one
    more when the channel check is true. *)
Theorem analysis_sizes u fc :
  (length (issues (analyze_usage_pattern u fc)) <= 5)%nat
  /\ (length (recommendations (analyze_usage_pattern u fc)) <= 4)%nat
  /\ (length (recommendations (analyze_usage_pattern u fc))
      <= length (issues (analyze_usage_pattern u fc))
         + b2n (chk_channel u fc))%nat.
Proof.
  destruct (ArcMutexProps.analysis_lengths u fc) as [-> ->].
  destruct (chk_simple u fc), (chk_clone u fc), (chk_read_heavy u fc),
           (chk_no_threading u fc), (chk_defensive u fc), (chk_channel u fc);
    simpl; repeat split; lia.
Qed.

Lemma round_not_negative mx ex lx :
  not_negative (binary_round_aux Float.prec Float.emax false mx ex lx).
Proof.
  unfold binary_round_aux.
  destruct (shr_fexp _ _ mx ex lx) as [mrs' e'].
  destruct (shr_fexp _ _ _ e' loc_Exact) as [mrs'' e''].
  destruct (shr_m mrs''); cbn [not_negative]; auto;
    match goal with
    | |- context [if ?b then _ else _] => destruct b
    end; cbn [not_negative]; auto.
Qed.

Lemma of_int_sign n :
  0 <= n ->
  match Float.of_int n with
  | S754_zero s | S754_infinity s | S754_finite s _ _ => s = false
  | S754_nan => True
  end.
Proof.
  intros Hn. unfold Float.of_int, binary_normalize.
  destruct n as [ | p | p ]; [ reflexivity | | lia ].
  unfold binary_round.
  destruct (shl_align _ _ _) as [mz ez].
  unfold binary_round_aux.
  destruct (shr_fexp _ _ _ ez loc_Exact) as [mrs' e'].
  destruct (shr_fexp _ _ _ e' loc_Exact) as [mrs'' e''].
  destruct (shr_m mrs''); cbn [not_negative]; auto;
    match goal with
    | |- context [if ?b then _ else _] => destruct b
    end; cbn [not_negative]; auto.
Qed.

(** A count times [0.7] is not below zero. *)
Lemma scaled_count_not_negative n :
  0 <= n -> not_negative (Float.mul (Float.of_int n) Float.f0_7).
Proof.
  intros Hn. pose proof (of_int_sign n Hn) as Hs.
  unfold Float.mul, Float.f0_7.
  destruct (Float.of_int n) as [s | s | | s m e]; simpl in *; subst; simpl; auto.
  apply round_not_negative.
Qed.

Lemma zero_not_above f : not_negative f -> Float.int_gt 0 f = false.
Proof.
  destruct f as [s | [ | ] | | [ | ] m e]; cbn [not_negative Float.int_gt];
    intros H; try contradiction; try reflexivity.
  destruct (e >=? 0).
  - destruct (Z.gtb_spec 0 (Z.pos m * 2 ^ e)); [ | reflexivity ].
    pose proof (Z.pow_nonneg 2 e ltac:(lia)). nia.
  - rewrite Z.mul_0_l. reflexivity.
Qed.

(** The read-heavy check needs a read: with no read-only pattern in the
    context it is false whatever the number of lock calls; and with no lock
    call in the context it is true as soon as one read-only pattern
    matches. *)
Theorem read_heavy_edges u fc :
  (reads_in_context u = 0 -> chk_read_heavy u fc = false)
  /\ (locks_in_context u = 0 ->
      chk_read_heavy u fc = (reads_in_context u >? 0)).
Proof.
  unfold chk_read_heavy. split.
  - intros ->. apply zero_not_above, scaled_count_not_negative.
    unfold locks_in_context. lia.
  - intros ->. reflexivity.
Qed.

Lemma read_heavy_edges_witness :
  chk_read_heavy sender_occurrence sender_text = false
  /\ chk_read_heavy guard_occurrence guard_text = true.
Proof.
  split.
  - apply (proj1 (read_heavy_edges sender_occurrence sender_text)).
    vm_compute. reflexivity.
  - rewrite (proj2 (read_heavy_edges guard_occurrence guard_text))
      by (vm_compute; reflexivity).
    vm_compute. reflexivity.
Defined.

End AnalysisMore.

(** ** More on the usage profile *)

Module UsageMore.
Import Py Re Fs AuditTraits Spec.

Lemma matches_in_nonneg r content : 0 <= matches_in r content.
Proof. unfold matches_in. lia. Qed.

Lemma total_matches_nonneg r units : 0 <= total_matches r units.
Proof.
  induction units as [ | pc units IH ]; simpl; [ lia | ].
  pose proof (matches_in_nonneg r (snd pc)). lia.
Qed.

(** A unit is listed once however many matches it has, and only when it has
    one. *)
Lemma units_matching_vs_total r units :
  Z.of_nat (length (units_matching r units)) <= total_matches r units
  /\ (total_matches r units = 0 <-> units_matching r units = []).
Proof.
  unfold units_matching.
  induction units as [ | pc units [IHle IHz] ]; simpl.
  - split; [ lia | tauto ].
  - pose proof (matches_in_nonneg r (snd pc)).
    pose proof (total_matches_nonneg r units).
    destruct (Z.leb_spec 1 (matches_in r (snd pc))); simpl.
    + split; [ lia | ]. split; [ lia | discriminate ].
    + split; [ lia | ]. rewrite <- IHz. split; lia.
Qed.

(** In the usage profile each count is at least the number of units listed
    for it and is never negative, and a count is zero exactly when its list
    of units is empty. *)
Theorem usage_counts_bound_lists trait_name root_dir :
  let u := check_trait_usage trait_name root_dir in
  (Z.of_nat (length (impl_files u)) <= impl_count u
   /\ (impl_count u = 0 <-> impl_files u = []))
  /\ (Z.of_nat (length (dyn_files u)) <= dyn_usage u
      /\ (dyn_usage u = 0 <-> dyn_files u = []))
  /\ (Z.of_nat (length (bound_files u)) <= bound_usage u
      /\ (bound_usage u = 0 <-> bound_files u = [])).
Proof.
  intros u. subst u. unfold check_trait_usage.
  rewrite UsageProps.usage_loop_fields. cbn [impl_count dyn_usage bound_usage
    impl_files dyn_files bound_files usage_init app]. rewrite !Z.add_0_l.
  repeat split; apply units_matching_vs_total.
Qed.

Lemma readable_app a b : readable (a ++ b) = readable a ++ readable b.
Proof.
  induction a as [ | [p [c | e]] a IH ]; simpl; rewrite ?IH; reflexivity.
Qed.

Lemma total_matches_app r a b :
  total_matches r (a ++ b) = total_matches r a + total_matches r b.
Proof. induction a as [ | pc a IH ]; simpl; lia. Qed.

Lemma units_matching_app r a b :
  units_matching r (a ++ b) = units_matching r a ++ units_matching r b.
Proof. unfold units_matching. rewrite filter_app, map_app. reflexivity. Qed.

(** Profiling two corpora put end to end gives the sums of the counts and
    the concatenations of the unit lists of the two profiles. *)
Theorem usage_of_joined_corpora trait_name root1 root2 :
  let u := check_trait_usage trait_name (root1 ++ root2) in
  let u1 := check_trait_usage trait_name root1 in
  let u2 := check_trait_usage trait_name root2 in
  impl_count u = impl_count u1 + impl_count u2
  /\ dyn_usage u = dyn_usage u1 + dyn_usage u2
  /\ bound_usage u = bound_usage u1 + bound_usage u2
  /\ impl_files u = impl_files u1 ++ impl_files u2
  /\ dyn_files u = dyn_files u1 ++ dyn_files u2
  /\ bound_files u = bound_files u1 ++ bound_files u2.
Proof.
  intros u u1 u2. subst u u1 u2.
  unfold check_trait_usage, find_rust_files, rglob_rs.
  rewrite !UsageProps.usage_loop_fields, filter_app, readable_app.
  cbn [impl_count dyn_usage bound_usage impl_files dyn_files bound_files
       usage_init app].
  rewrite !total_matches_app, !units_matching_app.
  repeat split; lia.
Qed.

End UsageMore.

(** ** More on the declaration classifier *)

Module NecessityMore.
Import Py AuditTraits Necessity Spec TraitSamples MoreTraitSpec.

(** For a single-method declaration with a non-negative implementation
    count: it is DEFINITELY_REMOVE exactly when it has at most one
    implementation and none of the other keep rules fires, MAYBE_REMOVE
    exactly when it has at most one implementation and exactly one of them
    fires, and KEEP_AS_IS exactly when it has several implementations or two
    of the other keep rules fire. *)
Theorem single_method_category ti u :
  method_count ti = 1 ->
  0 <= impl_count u ->
  let cat := cat_of (analyze_trait_necessity ti u) in
  (cat = DEFINITELY_REMOVE
   <-> impl_count u <= 1 /\ other_keeps ti u = 0%nat)
  /\ (cat = MAYBE_REMOVE
      <-> impl_count u <= 1 /\ other_keeps ti u = 1%nat)
  /\ (cat = KEEP_AS_IS
      <-> 1 < impl_count u \/ (2 <= other_keeps ti u)%nat).
Proof.
  intros Hm Hi cat. subst cat.
  rewrite NecessityProps.analyze_normal_form. unfold cat_of. cbn [fst].
  unfold keep_rules, remove_rules, other_keeps, when, decision.
  rewrite Hm. change (1 =? 1) with true. cbv iota.
  destruct (truthy (assoc_types ti)), (has_generics ti),
           (dyn_usage u >? 0), (bound_usage u >? 2);
    destruct (Z.gtb_spec (impl_count u) 1), (Z.eqb_spec (impl_count u) 0),
             (Z.eqb_spec (impl_count u) 1);
    try lia; cbn;
    repeat split; intros; try discriminate; try lia;
    try (destruct H as [? ?]; lia); try (destruct H; lia).
Qed.

Lemma single_method_category_witness :
  cat_of (analyze_trait_necessity only_trait sample_usage) = DEFINITELY_REMOVE.
Proof.
  apply (proj1 (single_method_category only_trait sample_usage eq_refl
                  ltac:(vm_compute; discriminate))).
  split; [ vm_compute; discriminate | reflexivity ].
Defined.

(** Whatever the input, the classifier gives at most five keep reasons and
    at most two remove reasons; it answers MAYBE_REMOVE only for a
    single-method declaration with no or one implementation, and
    DEFINITELY_REMOVE only when no keep rule fires. *)
Theorem reason_bounds ti u :
  let r := analyze_trait_necessity ti u in
  (length (keep_of r) <= 5)%nat
  /\ (length (remove_of r) <= 2)%nat
  /\ (cat_of r = MAYBE_REMOVE ->
      method_count ti = 1 /\ (impl_count u = 0 \/ impl_count u = 1)
      /\ length (keep_of r) = 1%nat)
  /\ (cat_of r = DEFINITELY_REMOVE ->
      impl_count u <= 1 /\ other_keeps ti u = 0%nat).
Proof.
  intros r. subst r.
  rewrite NecessityProps.analyze_normal_form.
  unfold cat_of, keep_of, remove_of. cbn [fst snd].
  unfold keep_rules, remove_rules, other_keeps, when, decision.
  destruct (Z.eqb_spec (method_count ti) 1);
    destruct (truthy (assoc_types ti)), (has_generics ti),
             (dyn_usage u >? 0), (bound_usage u >? 2);
    destruct (Z.gtb_spec (impl_count u) 1), (Z.eqb_spec (impl_count u) 0),
             (Z.eqb_spec (impl_count u) 1);
    try lia; cbn;
    repeat split; intros; try discriminate; try lia; auto.
Qed.

Lemma reason_bounds_witness :
  impl_count sample_usage <= 1 /\ other_keeps only_trait sample_usage = 0%nat.
Proof.
  apply (proj2 (proj2 (proj2 (reason_bounds only_trait sample_usage)))).
  vm_compute. reflexivity.
Defined.

End NecessityMore.

(** ** The two [main] functions *)

Module MainMore.
Import Py Re Fs Spec MainSpec.

(** A list of units is readable throughout, or has a first unit that is
    not. *)
Lemma first_bad (files : corpus) :
  all_text files
  \/ exists l1 p e l2, files = l1 ++ (p, Bad e) :: l2 /\ all_text l1.
Proof.
  unfold all_text.
  induction files as [ | [p [content | e]] files IH ].
  - left. constructor.
  - destruct IH as [IH | [l1 [q [e [l2 [Hf Hl]]]]]].
    + left. constructor; [ simpl; eauto | exact IH ].
    + right. exists ((p, Text content) :: l1), q, e, l2.
      split; [ rewrite Hf; reflexivity | ].
      constructor; [ simpl; eauto | exact Hl ].
  - right. exists [], p, e, files. split; [ reflexivity | constructor ].
Qed.

Lemma collect_traits_ok files :
  all_text files ->
  forall acc,
    TraitsMain.collect_traits files acc
    = Ok (acc ++ traits_of_units (readable files)).
Proof.
  unfold all_text, traits_of_units.
  induction 1 as [ | [p f] files [content Hf] _ IH ]; intros acc; simpl.
  - rewrite app_nil_r. reflexivity.
  - simpl in Hf. subst f. simpl. rewrite IH, <- app_assoc. reflexivity.
Qed.

Lemma categorize_single root_dir t :
  AuditTraits.method_count t = 1 ->
  let it := TraitsMain.categorize root_dir t in
  TraitsMain.item_trait it = t
  /\ (exists rest, TraitsMain.remove_reasons it
                   = txt "Single method trait" :: rest)
  /\ (TraitsMain.item_category it = Necessity.DEFINITELY_REMOVE
      <-> TraitsMain.keep_reasons it = []).
Proof.
  intros Hm it. subst it. unfold TraitsMain.categorize.
  cbn [TraitsMain.item_trait TraitsMain.remove_reasons
       TraitsMain.item_category TraitsMain.keep_reasons].
  rewrite NecessityProps.analyze_normal_form.
  unfold Necessity.cat_of, Necessity.keep_of, Necessity.remove_of.
  cbn [fst snd].
  split; [ reflexivity | ].
  assert (Hrem : exists rest,
             Necessity.remove_rules t
               (AuditTraits.check_trait_usage (AuditTraits.name t) root_dir)
             = txt "Single method trait" :: rest).
  { unfold Necessity.remove_rules. rewrite Hm.
    change (1 =? 1) with true. cbn [when app]. eauto. }
  split; [ exact Hrem | ].
  destruct Hrem as [rest Hrest].
  rewrite NecessityProps.decision_definitely, Hrest.
  split; [ tauto | intros H; split; [ exact H | discriminate ] ].
Qed.

Lemma categorize_all root_dir ts :
  Forall (fun t => AuditTraits.method_count t = 1) ts ->
  map TraitsMain.item_trait (map (TraitsMain.categorize root_dir) ts) = ts
  /\ Forall (fun it =>
               (exists rest, TraitsMain.remove_reasons it
                             = txt "Single method trait" :: rest)
               /\ (TraitsMain.item_category it = Necessity.DEFINITELY_REMOVE
                   <-> TraitsMain.keep_reasons it = []))
            (map (TraitsMain.categorize root_dir) ts).
Proof.
  induction 1 as [ | t ts Ht _ [IHm IHf] ]; cbn [map].
  - split; [ reflexivity | constructor ].
  - destruct (categorize_single root_dir t Ht) as [Ha [Hb Hc]].
    split; [ rewrite Ha, IHm; reflexivity | ].
    constructor; [ split; assumption | exact IHf ].
Qed.

(** [audit_traits.main] either stops with the exception of the first [.rs]
    unit that cannot be read, or, when all can be read, gathers the
    declarations of the units in corpus order and categorises exactly the
    single-method ones, in order; each of those has "Single method trait"
    as its first remove reason and is DEFINITELY_REMOVE exactly when it has
    no keep reason. *)
Theorem traits_main_outcome root_dir :
  match TraitsMain.main root_dir with
  | Ok (all_traits, items) =>
      all_text (AuditTraits.find_rust_files root_dir)
      /\ all_traits
         = traits_of_units (readable (AuditTraits.find_rust_files root_dir))
      /\ map TraitsMain.item_trait items
         = filter (fun t => AuditTraits.method_count t =? 1) all_traits
      /\ Forall (fun it =>
                   (exists rest, TraitsMain.remove_reasons it
                                 = txt "Single method trait" :: rest)
                   /\ (TraitsMain.item_category it = Necessity.DEFINITELY_REMOVE
                       <-> TraitsMain.keep_reasons it = []))
                items
  | Raise e =>
      exists l1 p l2,
        AuditTraits.find_rust_files root_dir = l1 ++ (p, Bad e) :: l2
        /\ all_text l1
  end.
Proof.
  unfold TraitsMain.main.
  destruct (first_bad (AuditTraits.find_rust_files root_dir))
    as [Hall | [l1 [p [e [l2 [Hf Hl]]]]]].
  - rewrite (collect_traits_ok _ Hall). cbn [bind app].
    split; [ exact Hall | ]. split; [ reflexivity | ].
    apply categorize_all.
    rewrite Forall_forall. intros t Ht. apply filter_In in Ht.
    destruct Ht as [_ Ht]. apply Z.eqb_eq. exact Ht.
  - rewrite Hf, (UsageProps.collect_traits_raises l1 p e l2 Hl). cbn [bind].
    exists l1, p, l2. split; [ reflexivity | exact Hl ].
Qed.

Lemma occurrence_file file_path content o :
  In o (AuditArcMutex.occurrences_of_content file_path content) ->
  AuditArcMutex.file_ o = file_path.
Proof.
  intros Hin. unfold AuditArcMutex.occurrences_of_content in Hin.
  destruct (OccurrenceMore.scan_lines_In _ _ _ _ _ Hin)
    as [k [l [m [_ [_ Ho]]]]].
  subst o. reflexivity.
Qed.

Lemma add_usages_split rs_file file_content usages :
  Forall (fun o => AuditArcMutex.file_ o = rs_file) usages ->
  forall r, split_by_test r ->
            split_by_test (ArcMutexMain.add_usages rs_file file_content usages r).
Proof.
  unfold split_by_test.
  induction 1 as [ | o usages Ho _ IH ]; intros r [Ht Hp]; simpl.
  - split; assumption.
  - apply IH.
    destruct (AuditArcMutex.is_test_file rs_file) eqn:E;
      cbn [ArcMutexMain.all_usages ArcMutexMain.test_usages
           ArcMutexMain.prod_usages];
      rewrite !filter_app; unfold in_test_file at 2 4; cbn [filter fst];
      rewrite Ho, E; cbn [negb]; rewrite ?app_nil_r, Ht, Hp; split; reflexivity.
Qed.

Lemma collect_split files : forall r r',
  split_by_test r ->
  ArcMutexMain.collect files r = Ok r' ->
  split_by_test r'.
Proof.
  induction files as [ | [rs_file f] files IH ]; intros r r' Hr H; simpl in H.
  - inversion H; subst. exact Hr.
  - destruct f as [content | e]; simpl in H; [ | discriminate ].
    pose proof (fun o => occurrence_file rs_file content o) as Hfile.
    destruct (AuditArcMutex.occurrences_of_content rs_file content)
      as [ | o os ] eqn:E.
    + eapply IH; eassumption.
    + eapply IH; [ | exact H ].
      apply add_usages_split; [ | exact Hr ].
      rewrite Forall_forall. exact Hfile.
Qed.

Lemma filter_partition_length {A} (f : A -> bool) (l : list A) :
  length l = (length (filter f l) + length (filter (fun x => negb (f x)) l))%nat.
Proof.
  induction l as [ | x l IH ]; simpl; [ reflexivity | ].
  destruct (f x); simpl; lia.
Qed.

(** When [audit_arc_mutex.main] completes, its test list is the occurrences
    of all that lie in test files, its production list is the others, both
    in the order of all, and the two sizes add up to the total. *)
Theorem arc_mutex_main_splits root_dir r :
  ArcMutexMain.main root_dir = Ok r ->
  ArcMutexMain.test_usages r = filter in_test_file (ArcMutexMain.all_usages r)
  /\ ArcMutexMain.prod_usages r
     = filter (fun ua => negb (in_test_file ua)) (ArcMutexMain.all_usages r)
  /\ length (ArcMutexMain.all_usages r)
     = (length (ArcMutexMain.test_usages r)
        + length (ArcMutexMain.prod_usages r))%nat.
Proof.
  intros H. unfold ArcMutexMain.main in H.
  assert (Hs : split_by_test r).
  { eapply collect_split; [ | exact H ]. split; reflexivity. }
  destruct Hs as [Ht Hp].
  split; [ exact Ht | ]. split; [ exact Hp | ].
  rewrite Ht, Hp. apply filter_partition_length.
Qed.

Lemma arc_mutex_main_splits_witness :
  exists r,
    ArcMutexMain.main [Samples.unit_a; Samples.unit_c] = Ok r
    /\ length (ArcMutexMain.all_usages r)
       = (length (ArcMutexMain.test_usages r)
          + length (ArcMutexMain.prod_usages r))%nat.
Proof.
  assert (H : exists r, ArcMutexMain.main [Samples.unit_a; Samples.unit_c] = Ok r)
    by (eexists; vm_compute; reflexivity).
  destruct H as [r H]. exists r. split; [ exact H | ].
  exact (proj2 (proj2 (arc_mutex_main_splits _ r H))).
Defined.

End MainMore.

(** ** Sorting by descending key *)

Module SortFacts.
Import Py Analyzers AnalyzerSpec.

Section Sort.
Context {A : Type} (key : A -> Z).

Lemma insert_desc_perm x l : Permutation (insert_desc key x l) (x :: l).
Proof.
  induction l as [ | y ys IH ]; simpl.
  - reflexivity.
  - destruct (key x <? key y).
    + rewrite IH. apply perm_swap.
    + reflexivity.
Qed.

Lemma sorted_desc_perm l : Permutation (sorted_desc key l) l.
Proof.
  induction l as [ | x l IH ]; simpl.
  - reflexivity.
  - rewrite insert_desc_perm. constructor. exact IH.
Qed.

Lemma insert_desc_sorted x l :
  StronglySorted (ge_key key) l -> StronglySorted (ge_key key) (insert_desc key x l).
Proof.
  induction 1 as [ | y ys Hs IH Hall ]; simpl.
  - repeat constructor.
  - destruct (Z.ltb_spec (key x) (key y)).
    + constructor; [ exact IH | ].
      rewrite Forall_forall in *. intros a Ha.
      apply (Permutation_in _ (insert_desc_perm x ys)) in Ha.
      destruct Ha as [ <- | Ha ]; [ unfold ge_key; lia | apply Hall, Ha ].
    + constructor; [ constructor; assumption | ].
      constructor; [ unfold ge_key; lia | ].
      eapply Forall_impl; [ | exact Hall ].
      unfold ge_key. intros a Ha. lia.
Qed.

(** The result is in descending order of key. *)
Lemma sorted_desc_sorted l : StronglySorted (ge_key key) (sorted_desc key l).
Proof.
  induction l as [ | x l IH ]; simpl.
  - constructor.
  - apply insert_desc_sorted. exact IH.
Qed.

Lemma sorted_firstn n : forall l,
  StronglySorted (ge_key key) l -> StronglySorted (ge_key key) (firstn n l).
Proof.
  induction n as [ | n IH ]; intros l H; simpl.
  - constructor.
  - destruct H as [ | x l Hs Hall ]; [ constructor | ].
    constructor; [ apply IH; exact Hs | ].
    rewrite Forall_forall in *. intros a Ha. apply Hall.
    rewrite <- (firstn_skipn n l). apply in_or_app. left. exact Ha.
Qed.

Lemma sorted_filter f l :
  StronglySorted (ge_key key) l -> StronglySorted (ge_key key) (filter f l).
Proof.
  induction 1 as [ | x l Hs IH Hall ]; simpl.
  - constructor.
  - destruct (f x); [ | exact IH ].
    constructor; [ exact IH | ].
    rewrite Forall_forall in *. intros a Ha. apply Hall.
    apply filter_In in Ha. tauto.
Qed.

(** In a sorted list every item of a front part is at least every item of
    the rest. *)
Lemma sorted_app_ge l1 : forall l2,
  StronglySorted (ge_key key) (l1 ++ l2) ->
  forall a b, In a l1 -> In b l2 -> key b <= key a.
Proof.
  induction l1 as [ | x l1 IH ]; intros l2 H a b Ha Hb.
  - contradiction.
  - simpl in H. inversion H as [ | ? ? Hs Hall ]; subst.
    destruct Ha as [ <- | Ha ].
    + rewrite Forall_forall in Hall. apply Hall. apply in_or_app. right. exact Hb.
    + eapply IH; eassumption.
Qed.

End Sort.
End SortFacts.

(** ** analyze_clone_usage *)

Module CloneFacts.
Import Py Re Fs Spec MainSpec Analyzers AnalyzerSpec.

Lemma str_eqb_neq a b : a <> b -> str_eqb a b = false.
Proof.
  intros H. destruct (str_eqb a b) eqn:E; [ | reflexivity ].
  apply PyFacts.str_eqb_eq in E. contradiction.
Qed.

(** Setting a key the dictionary does not have appends it. *)
Lemma dict_set_fresh {V} (d : list (str * V)) k v :
  ~ In k (map fst d) -> dict_set d k v = d ++ [(k, v)].
Proof.
  induction d as [ | [k' v'] d IH ]; simpl; intros H.
  - reflexivity.
  - rewrite str_eqb_neq by tauto. rewrite IH by tauto. reflexivity.
Qed.

Lemma hot_loop_eq items : forall hot,
  hot_loop items hot
  = hot ++ map hot_of (filter (fun fc => snd fc >? 10) items).
Proof.
  induction items as [ | [file c] items IH ]; intros hot; simpl.
  - rewrite app_nil_r. reflexivity.
  - destruct (c >? 10); rewrite IH; simpl; [ | reflexivity ].
    rewrite <- app_assoc. reflexivity.
Qed.

Lemma clone_loop_text p content files t b :
  clone_loop ((p, Text content) :: files) t b
  = if clone_count_of content >? 0
    then clone_loop files (t + clone_count_of content)
           (dict_set b p (clone_count_of content))
    else clone_loop files t b.
Proof. reflexivity. Qed.

Lemma clone_loop_total files : forall t b t' b',
  clone_loop files t b = Ok (t', b') ->
  all_text files /\ t' = t + sum_over clone_count_of (readable files).
Proof.
  unfold all_text.
  induction files as [ | [p [content | e]] files IH ]; intros t b t' b' H.
  - inversion H; subst. split; [ constructor | simpl; lia ].
  - rewrite clone_loop_text in H.
    destruct (clone_count_of content >? 0) eqn:E.
    + apply IH in H. destruct H as [Ha Ht].
      split; [ constructor; [ simpl; eauto | exact Ha ] | ].
      simpl. lia.
    + apply IH in H. destruct H as [Ha Ht].
      split; [ constructor; [ simpl; eauto | exact Ha ] | ].
      simpl. assert (clone_count_of content = 0)
        by (unfold clone_count_of in *; lia). lia.
  - discriminate.
Qed.

Lemma clone_loop_by_file files : forall t b t' b',
  NoDup (map fst files) ->
  (forall k, In k (map fst b) -> ~ In k (map fst files)) ->
  clone_loop files t b = Ok (t', b') ->
  b' = b ++ cloning_units (readable files).
Proof.
  unfold cloning_units.
  induction files as [ | [p [content | e]] files IH ]; intros t b t' b' Hnd Hk H.
  - inversion H; subst. simpl. rewrite app_nil_r. reflexivity.
  - rewrite clone_loop_text in H.
    simpl in Hnd. inversion Hnd as [ | ? ? Hnotin Hnd' ]; subst.
    cbn [readable filter snd].
    destruct (clone_count_of content >? 0) eqn:E.
    + rewrite dict_set_fresh in H.
      2:{ intros Hin. apply (Hk _ Hin). left. reflexivity. }
      apply IH in H; [ | exact Hnd' | ].
      * rewrite H, <- app_assoc. reflexivity.
      * intros k Hin. rewrite map_app in Hin. apply in_app_or in Hin.
        destruct Hin as [Hin | [ <- | [] ]]; [ | exact Hnotin ].
        intros Hf. apply (Hk _ Hin). right. exact Hf.
    + apply IH in H; [ exact H | exact Hnd' | ].
      intros k Hin Hf. apply (Hk _ Hin). right. exact Hf.
  - discriminate.
Qed.

Lemma sum_values_cloning units :
  sum_values (cloning_units units) = sum_over clone_count_of units.
Proof.
  unfold cloning_units.
  induction units as [ | pc units IH ]; simpl; [ reflexivity | ].
  destruct (Z.gtb_spec (clone_count_of (snd pc)) 0); simpl; rewrite IH.
  - reflexivity.
  - assert (clone_count_of (snd pc) = 0) by (unfold clone_count_of in *; lia).
    lia.
Qed.

(** When [analyze_clone_usage] completes on a corpus of distinct paths, its
    total is the sum of the clone calls of the units, its per-file dictionary
    lists exactly the units with a clone call, in corpus order and each with
    its count, and the total is the sum of the dictionary. *)
Theorem clone_totals root_dir st :
  analyze_clone_usage root_dir = Ok st ->
  NoDup (map fst (find_rust_files root_dir)) ->
  total st = sum_over clone_count_of (readable (find_rust_files root_dir))
  /\ by_file st = cloning_units (readable (find_rust_files root_dir))
  /\ total st = sum_values (by_file st).
Proof.
  unfold analyze_clone_usage. intros H Hnd.
  destruct (clone_loop (find_rust_files root_dir) 0 []) as [[t b] | e] eqn:E;
    [ | discriminate ].
  cbn [bind] in H. inversion H; subst. cbn [total by_file fst snd]. clear H.
  destruct (clone_loop_total _ _ _ _ _ E) as [_ Ht].
  assert (Hk : forall k, In k (map fst (@nil (str * Z))) ->
                         ~ In k (map fst (find_rust_files root_dir)))
    by (intros k []).
  pose proof (clone_loop_by_file _ _ _ _ _ Hnd Hk E) as Hb.
  simpl in Hb. subst t b.
  split; [ lia | ]. split; [ reflexivity | ].
  rewrite sum_values_cloning. lia.
Qed.

(** The hot spots of [analyze_clone_usage] are at most twenty, in descending
    order of count, each an entry of the per-file dictionary with more than
    ten calls; and an entry with more than ten calls that is not a hot spot
    has no more calls than any of the twenty hot spots there are then. *)
Theorem clone_hot_spots root_dir st :
  analyze_clone_usage root_dir = Ok st ->
  (length (hot_spots st) <= 20)%nat
  /\ StronglySorted (fun a b => hs_count b <= hs_count a) (hot_spots st)
  /\ Forall (fun h => 10 < hs_count h
                      /\ In (hs_file h, hs_count h) (by_file st)
                      /\ hs_is_test h
                         = ComprehensiveAudit.is_test_file (hs_file h))
            (hot_spots st)
  /\ (forall fc, In fc (by_file st) -> 10 < snd fc ->
        In (hot_of fc) (hot_spots st)
        \/ (length (hot_spots st) = 20%nat
            /\ Forall (fun h => snd fc <= hs_count h) (hot_spots st))).
Proof.
  unfold analyze_clone_usage. intros H.
  destruct (clone_loop (find_rust_files root_dir) 0 []) as [[t b] | e] eqn:E;
    [ | discriminate ].
  cbn [bind] in H. inversion H; subst. cbn [hot_spots by_file fst snd]. clear H E.
  change 20 with (Z.of_nat 20). rewrite OrderFacts.slice_from_start.
  rewrite hot_loop_eq. cbn [app].
  pose proof (SortFacts.sorted_desc_sorted snd b) as Hsorted.
  pose proof (SortFacts.sorted_desc_perm snd b) as Hperm.
  set (sorted := sorted_desc snd b) in *.
  assert (Hfirst : (length (firstn 20 sorted) <= 20)%nat)
    by (rewrite length_firstn; lia).
  split.
  { rewrite length_map.
    pose proof (filter_length_le (fun fc : str * Z => snd fc >? 10)
                  (firstn 20 sorted)). lia. }
  split.
  { eapply OrderFacts.StronglySorted_map with (P := fun _ => True).
    - intros a0 b0 _ _ Hab. exact Hab.
    - rewrite Forall_forall. auto.
    - apply SortFacts.sorted_filter, SortFacts.sorted_firstn. exact Hsorted. }
  split.
  { apply Forall_map. rewrite Forall_forall. intros fc Hfc.
    apply filter_In in Hfc. destruct Hfc as [Hin Hgt].
    split; [ simpl; lia | ]. split; [ | reflexivity ].
    simpl. rewrite <- surjective_pairing.
    apply (Permutation_in _ Hperm).
    rewrite <- (firstn_skipn 20 sorted). apply in_or_app. left. exact Hin. }
  intros fc Hin Hgt.
  apply (Permutation_in _ (Permutation_sym Hperm)) in Hin.
  rewrite <- (firstn_skipn 20 sorted) in Hin. apply in_app_or in Hin.
  destruct Hin as [Hin | Hin].
  - left. apply in_map. apply filter_In. split; [ exact Hin | lia ].
  - right.
    assert (Hall : forall a, In a (firstn 20 sorted) -> snd fc <= snd a).
    { intros a Ha. rewrite <- (firstn_skipn 20 sorted) in Hsorted.
      exact (SortFacts.sorted_app_ge snd _ _ Hsorted a fc Ha Hin). }
    assert (Hkeep : filter (fun x : str * Z => snd x >? 10) (firstn 20 sorted)
                    = firstn 20 sorted).
    { apply forallb_filter_id. apply forallb_forall. intros a Ha.
      specialize (Hall a Ha). lia. }
    rewrite Hkeep. split.
    + rewrite length_map, length_firstn.
      assert (length (skipn 20 sorted) <> 0)%nat
        by (destruct (skipn 20 sorted); [ contradiction | discriminate ]).
      rewrite length_skipn in *. lia.
    + apply Forall_map. rewrite Forall_forall. intros a Ha. simpl. auto.
Qed.

Lemma clone_corpus_distinct : NoDup (map fst (find_rust_files clone_corpus)).
Proof.
  vm_compute. repeat constructor; simpl; intuition discriminate.
Qed.

Lemma clone_totals_witness :
  exists st,
    analyze_clone_usage clone_corpus = Ok st
    /\ total st = sum_values (by_file st).
Proof.
  assert (H : exists st, analyze_clone_usage clone_corpus = Ok st)
    by (eexists; vm_compute; reflexivity).
  destruct H as [st H]. exists st. split; [ exact H | ].
  exact (proj2 (proj2 (clone_totals clone_corpus st H clone_corpus_distinct))).
Defined.

Lemma clone_hot_spots_witness :
  exists st,
    analyze_clone_usage clone_corpus = Ok st
    /\ (length (hot_spots st) <= 20)%nat.
Proof.
  assert (H : exists st, analyze_clone_usage clone_corpus = Ok st)
    by (eexists; vm_compute; reflexivity).
  destruct H as [st H]. exists st. split; [ exact H | ].
  exact (proj1 (clone_hot_spots clone_corpus st H)).
Defined.

End CloneFacts.

(** ** analyze_todos *)

Module TodoFacts.
Import Py Re Fs Spec MainSpec Analyzers AnalyzerSpec.

Lemma lstrip_head s :
  lstrip s = [] \/ exists c t, lstrip s = c :: t /\ isspace c = false.
Proof.
  induction s as [ | c s IH ]; simpl; [ left; reflexivity | ].
  destruct (isspace c) eqn:E; [ exact IH | right; eauto ].
Qed.

Lemma lstrip_kept s :
  (s = [] \/ exists c t, s = c :: t /\ isspace c = false) -> lstrip s = s.
Proof.
  intros [-> | [c [t [-> Hc]]]]; simpl; [ reflexivity | ].
  rewrite Hc. reflexivity.
Qed.

Lemma lstrip_suffix s : exists pre, s = pre ++ lstrip s.
Proof.
  induction s as [ | c s [pre IH] ]; simpl.
  - exists []. reflexivity.
  - destruct (isspace c).
    + exists (c :: pre). simpl. rewrite <- IH. reflexivity.
    + exists []. reflexivity.
Qed.

(** Stripping what is stripped changes nothing. *)
Lemma strip_idem s : strip (strip s) = strip s.
Proof.
  unfold strip.
  set (a := lstrip s). set (b := lstrip (rev a)).
  assert (Hb : lstrip b = b) by (apply lstrip_kept, lstrip_head).
  assert (Hrb : lstrip (rev b) = rev b).
  { apply lstrip_kept.
    destruct (rev b) as [ | c t ] eqn:E; [ left; reflexivity | right ].
    exists c, t. split; [ reflexivity | ].
    destruct (lstrip_suffix (rev a)) as [pre Hpre]. fold b in Hpre.
    assert (Ha : a = rev b ++ rev pre)
      by (rewrite <- (rev_involutive a), Hpre, rev_app_distr; reflexivity).
    rewrite E in Ha. simpl in Ha.
    destruct (lstrip_head s) as [Hnil | [c' [t' [Hs Hc']]]]; fold a in Hnil || fold a in Hs.
    - rewrite Hnil in Ha. discriminate.
    - rewrite Hs in Ha. inversion Ha; subst. exact Hc'. }
  rewrite Hrb, rev_involutive, Hb. reflexivity.
Qed.

Lemma comment_of_stripped line : strip (comment_of line) = comment_of line.
Proof.
  unfold comment_of.
  destruct (contains (txt "//") (strip line)); [ | apply strip_idem ].
  destruct (after_first (txt "//") (strip line)); apply strip_idem.
Qed.

(** One line adds, under each keyword it mentions, its entry. *)
Lemma keyword_loop_four rs_file line_num line a b c d :
  keyword_loop rs_file line_num line keywords
    [ (txt "TODO", a); (txt "FIXME", b); (txt "XXX", c); (txt "HACK", d) ]
  = [ (txt "TODO", a ++ when (mentions (txt "TODO") line)
                            (todo_of rs_file line_num line));
      (txt "FIXME", b ++ when (mentions (txt "FIXME") line)
                             (todo_of rs_file line_num line));
      (txt "XXX", c ++ when (mentions (txt "XXX") line)
                           (todo_of rs_file line_num line));
      (txt "HACK", d ++ when (mentions (txt "HACK") line)
                            (todo_of rs_file line_num line)) ].
Proof.
  unfold keywords, mentions. cbn [map keyword_loop].
  fold (todo_of rs_file line_num line).
  destruct (contains (txt "TODO") (upper line)),
           (contains (txt "FIXME") (upper line)),
           (contains (txt "XXX") (upper line)),
           (contains (txt "HACK") (upper line));
    cbn [when]; rewrite ?app_nil_r; reflexivity.
Qed.

Lemma line_loop_four rs_file lines : forall line_num a b c d,
  line_loop rs_file lines line_num
    [ (txt "TODO", a); (txt "FIXME", b); (txt "XXX", c); (txt "HACK", d) ]
  = [ (txt "TODO", a ++ entries_of_lines rs_file (txt "TODO") lines line_num);
      (txt "FIXME", b ++ entries_of_lines rs_file (txt "FIXME") lines line_num);
      (txt "XXX", c ++ entries_of_lines rs_file (txt "XXX") lines line_num);
      (txt "HACK", d ++ entries_of_lines rs_file (txt "HACK") lines line_num) ].
Proof.
  induction lines as [ | line lines IH ]; intros line_num a b c d.
  - simpl. rewrite !app_nil_r. reflexivity.
  - cbn [line_loop entries_of_lines].
    change (map fst [ (txt "TODO", a); (txt "FIXME", b); (txt "XXX", c);
                      (txt "HACK", d) ]) with keywords.
    rewrite keyword_loop_four, IH, <- !app_assoc. reflexivity.
Qed.

Lemma todo_loop_four files : forall a b c d,
  all_text files ->
  todo_loop files
    [ (txt "TODO", a); (txt "FIXME", b); (txt "XXX", c); (txt "HACK", d) ]
  = Ok [ (txt "TODO", a ++ entries_of_units (txt "TODO") (readable files));
         (txt "FIXME", b ++ entries_of_units (txt "FIXME") (readable files));
         (txt "XXX", c ++ entries_of_units (txt "XXX") (readable files));
         (txt "HACK", d ++ entries_of_units (txt "HACK") (readable files)) ].
Proof.
  unfold all_text, entries_of_units. intros a b c d H. revert a b c d.
  induction H as [ | [p f] files [content Hf] _ IH ]; intros a b c d.
  - simpl. rewrite !app_nil_r. reflexivity.
  - simpl in Hf. subst f. cbn [todo_loop read bind readable flat_map fst snd].
    rewrite line_loop_four, IH, <- !app_assoc. reflexivity.
Qed.

Lemma todo_loop_raises l1 p e l2 : forall todos,
  all_text l1 -> todo_loop (l1 ++ (p, Bad e) :: l2) todos = Raise e.
Proof.
  unfold all_text. intros todos H. revert todos.
  induction H as [ | [q f] l1 [content Hf] _ IH ]; intros todos; simpl.
  - reflexivity.
  - simpl in Hf. subst f. simpl. apply IH.
Qed.

(** The entries the loops collect for a keyword are those of the
    comprehension. *)
Lemma entries_of_lines_enumerate rs_file keyword lines : forall line_num,
  entries_of_lines rs_file keyword lines line_num
  = map (fun nl => todo_of rs_file (fst nl) (snd nl))
        (filter (fun nl => mentions keyword (snd nl))
                (enumerate lines line_num)).
Proof.
  induction lines as [ | l lines IH ]; intros line_num;
    cbn [entries_of_lines enumerate filter snd].
  - reflexivity.
  - rewrite IH. destruct (mentions keyword l); reflexivity.
Qed.

Lemma entries_of_units_for keyword units :
  entries_of_units keyword units = entries_for keyword units.
Proof.
  unfold entries_of_units, entries_for.
  induction units as [ | pc units IH ]; cbn [flat_map]; [ reflexivity | ].
  rewrite IH, entries_of_lines_enumerate. reflexivity.
Qed.

(** [analyze_todos] completes exactly when every unit of the scan can be
    read, and raises the exception of the first unit that cannot.  When it
    completes, its dictionary has the four keywords in their order, and
    under each keyword exactly these entries, in this order: for each unit
    in corpus order, for each line of the unit whose upper-cased text
    contains the keyword, in the order of the lines, one entry with the path
    of the unit, the number of the line counted from 1, the comment of the
    line and the test flag of the path.  The comment, which is the stripped
    line or the stripped text after its first [//], has no white space at
    either end. *)
Theorem todo_entries root_dir :
  let files := find_rust_files root_dir in
  let units := readable files in
  (all_text files ->
   analyze_todos root_dir
   = Ok (map (fun keyword => (keyword, entries_for keyword units)) keywords))
  /\ (forall l1 p e l2,
        files = l1 ++ (p, Bad e) :: l2 -> all_text l1 ->
        analyze_todos root_dir = Raise e)
  /\ (forall keyword e,
        In e (entries_for keyword units) ->
        strip (td_comment e) = td_comment e
        /\ td_is_test e = ComprehensiveAudit.is_test_file (td_file e)
        /\ exists content, In (td_file e, content) units).
Proof.
  intros files units. unfold analyze_todos. fold files.
  change todos_init
    with [ (txt "TODO", @nil todo); (txt "FIXME", []); (txt "XXX", []);
           (txt "HACK", []) ].
  split.
  { intros Hall. rewrite (todo_loop_four _ [] [] [] [] Hall). cbn [app].
    fold units. rewrite !entries_of_units_for. reflexivity. }
  split.
  { intros l1 p e l2 Hf Hl. rewrite Hf. apply todo_loop_raises. exact Hl. }
  intros keyword e He. unfold entries_for in He. apply in_flat_map in He.
  destruct He as [[path content] [Hunit He]]. cbn [fst snd] in He.
  apply in_map_iff in He. destruct He as [[n line] [He _]]. subst e.
  cbn [fst snd todo_of td_comment td_is_test td_file].
  split; [ apply comment_of_stripped | ].
  split; [ reflexivity | exists content; exact Hunit ].
Qed.

Lemma todo_entries_witness :
  all_text (find_rust_files todo_corpus)
  /\ analyze_todos todo_corpus
     = Ok (map (fun keyword =>
                  (keyword,
                   entries_for keyword (readable (find_rust_files todo_corpus))))
               keywords).
Proof.
  assert (Hall : all_text (find_rust_files todo_corpus)).
  { unfold all_text. vm_compute. repeat constructor. eexists. reflexivity. }
  split; [ exact Hall | ].
  exact (proj1 (todo_entries todo_corpus) Hall).
Defined.

End TodoFacts.

(** ** analyze_string_allocations *)

Module AllocFacts.
Import Py Re Fs Spec MainSpec Analyzers AnalyzerSpec.

Lemma dict_add_cons k' v' d k n :
  dict_add ((k', v') :: d) k n
  = if str_eqb k' k then (k, v' + n) :: d else (k', v') :: dict_add d k n.
Proof.
  unfold dict_add. simpl.
  destruct (str_eqb k' k); [ reflexivity | ].
  destruct (dict_get d k); reflexivity.
Qed.

(** Adding to a key of the dictionary adds as much to the sum of its
    values. *)
Lemma sum_values_dict_add d k n :
  sum_values (dict_add d k n) = sum_values d + n.
Proof.
  induction d as [ | [k' v'] d IH ].
  - unfold dict_add. simpl. lia.
  - rewrite dict_add_cons. destruct (str_eqb k' k); simpl.
    + lia.
    + fold (sum_values (dict_add d k n)). fold (sum_values d). lia.
Qed.

Lemma pattern_loop_sums content patterns : forall t d ft,
  fst (fst (pattern_loop content patterns (t, d, ft)))
  = t + pattern_total content patterns
  /\ sum_values (snd (fst (pattern_loop content patterns (t, d, ft))))
     = sum_values d + pattern_total content patterns
  /\ snd (pattern_loop content patterns (t, d, ft))
     = ft + pattern_total content patterns.
Proof.
  induction patterns as [ | [pattern r] patterns IH ]; intros t d ft.
  - simpl. repeat split; lia.
  - cbn [pattern_loop pattern_total fold_right snd].
    destruct (IH (t + Z.of_nat (length (findall r content)))
                 (dict_add d pattern (Z.of_nat (length (findall r content))))
                 (ft + Z.of_nat (length (findall r content))))
      as [H1 [H2 H3]].
    rewrite H1, H2, H3, sum_values_dict_add.
    fold (pattern_total content patterns). repeat split; lia.
Qed.

(** The record made for a unit with many allocations. *)
Lemma alloc_loop_text p content files st :
  alloc_loop ((p, Text content) :: files) st
  = alloc_loop files
      {| al_total :=
           fst (fst (pattern_loop content alloc_patterns
                       (al_total st, al_by_pattern st, 0)));
         al_by_pattern :=
           snd (fst (pattern_loop content alloc_patterns
                       (al_total st, al_by_pattern st, 0)));
         al_hot_spots :=
           if snd (pattern_loop content alloc_patterns
                     (al_total st, al_by_pattern st, 0)) >? 20
           then al_hot_spots st
                ++ [ {| hs_file := p;
                        hs_count :=
                          snd (pattern_loop content alloc_patterns
                                 (al_total st, al_by_pattern st, 0));
                        hs_is_test := ComprehensiveAudit.is_test_file p |} ]
           else al_hot_spots st |}.
Proof.
  cbn [alloc_loop read bind].
  destruct (pattern_loop content alloc_patterns
              (al_total st, al_by_pattern st, 0)) as [[t d] ft].
  reflexivity.
Qed.

Lemma alloc_loop_spec files : forall st st',
  alloc_loop files st = Ok st' ->
  al_total st' = al_total st + sum_over alloc_count_of (readable files)
  /\ sum_values (al_by_pattern st')
     = sum_values (al_by_pattern st) + sum_over alloc_count_of (readable files)
  /\ al_hot_spots st'
     = al_hot_spots st
       ++ map (fun pc => {| hs_file := fst pc;
                            hs_count := alloc_count_of (snd pc);
                            hs_is_test :=
                              ComprehensiveAudit.is_test_file (fst pc) |})
              (filter (fun pc => alloc_count_of (snd pc) >? 20)
                      (readable files)).
Proof.
  induction files as [ | [p [content | e]] files IH ]; intros st st' H.
  - inversion H; subst. simpl. rewrite app_nil_r. repeat split; lia.
  - rewrite alloc_loop_text in H. apply IH in H.
    cbn [al_total al_by_pattern al_hot_spots] in H.
    destruct (pattern_loop_sums content alloc_patterns
                (al_total st) (al_by_pattern st) 0) as [H1 [H2 H3]].
    rewrite H1, H2, H3 in H. fold (alloc_count_of content) in H.
    rewrite Z.add_0_l in H.
    destruct H as [Ht [Hs Hh]].
    cbn [readable sum_over fold_right filter snd fst].
    fold (sum_over alloc_count_of (readable files)).
    split; [ lia | ]. split; [ lia | ].
    rewrite Hh. destruct (alloc_count_of content >? 20); cbn [map];
      rewrite <- ?app_assoc; reflexivity.
  - discriminate.
Qed.

(** When [analyze_string_allocations] completes, its total is the sum of
    the per-pattern counts and the sum of the allocations of the units, and
    its hot spots are exactly the units with more than twenty allocations,
    in corpus order, each with its own number. *)
Theorem alloc_totals root_dir st :
  analyze_string_allocations root_dir = Ok st ->
  al_total st = sum_values (al_by_pattern st)
  /\ al_total st
     = sum_over alloc_count_of (readable (find_rust_files root_dir))
  /\ al_hot_spots st
     = map (fun pc => {| hs_file := fst pc;
                         hs_count := alloc_count_of (snd pc);
                         hs_is_test :=
                           ComprehensiveAudit.is_test_file (fst pc) |})
           (filter (fun pc => alloc_count_of (snd pc) >? 20)
                   (readable (find_rust_files root_dir))).
Proof.
  unfold analyze_string_allocations. intros H.
  apply alloc_loop_spec in H. cbn [al_total al_by_pattern al_hot_spots app] in H.
  destruct H as [Ht [Hs Hh]]. simpl in Hs.
  split; [ lia | ]. split; [ lia | exact Hh ].
Qed.

Lemma alloc_totals_witness :
  exists st,
    analyze_string_allocations box_corpus = Ok st
    /\ al_total st = sum_values (al_by_pattern st).
Proof.
  assert (H : exists st, analyze_string_allocations box_corpus = Ok st)
    by (eexists; vm_compute; reflexivity).
  destruct H as [st H]. exists st. split; [ exact H | ].
  exact (proj1 (alloc_totals box_corpus st H)).
Defined.

End AllocFacts.

(** ** analyze_box_usage *)

Module BoxFacts.
Import Py Re ReSpec Fs Spec MainSpec Analyzers AnalyzerSpec.

(** Where a literal matches, the matcher goes through it. *)
Lemma mt_Lits_complete s l : forall i j c k,
  matches s (Lits l) i j -> mt s (Lits l) i c k = k j c.
Proof.
  assert (Hone : forall ch i j c k,
             matches s (Lit ch) i j -> mt s (Lit ch) i c k = k j c).
  { intros ch i j c k H. inversion H; subst.
    unfold Lit. cbn [mt]. unfold char_at.
    match goal with Hn : nth_error s i = Some _ |- _ => rewrite Hn end.
    match goal with Hp : ascii_eqb _ _ = true |- _ => rewrite Hp end.
    reflexivity. }
  induction l as [ | ch l IH ]; intros i j c k H.
  - inversion H; subst. reflexivity.
  - destruct l as [ | d l ].
    + apply Hone. exact H.
    + change (Lits (ch :: d :: l)) with (Seq (Lit ch) (Lits (d :: l))) in *.
      inversion H as [ | | r1 r2 i0 j0 k0 Ha Hb | | | | | | | | ]; subst.
      cbn [mt]. rewrite (Hone _ _ _ _ _ Ha). apply IH. exact Hb.
Qed.

Lemma match_at_Lits s l i j :
  matches s (Lits l) i j -> match_at s (Lits l) i <> None.
Proof.
  intros H. unfold match_at. rewrite (mt_Lits_complete _ _ _ _ _ _ H).
  discriminate.
Qed.

(** The scan reaches every start position within its fuel. *)
Lemma search_from_complete s r i fuel : forall pos,
  match_at s r i <> None ->
  (pos <= i)%nat -> (i < pos + fuel)%nat ->
  search_from s r pos fuel <> None.
Proof.
  induction fuel as [ | fuel IH ]; intros pos Hm Hle Hlt; simpl.
  - lia.
  - destruct (match_at s r pos) eqn:E; [ discriminate | ].
    apply IH; [ exact Hm | | lia ].
    destruct (Nat.eq_dec pos i) as [-> | Hne]; [ congruence | lia ].
Qed.

Lemma findall_nonempty r s :
  search r s <> None <-> findall r s <> [].
Proof.
  pose proof (ReFacts.search_findall r s) as H.
  destruct (search r s); simpl in H; destruct (findall r s); simpl in H;
    split; intros; try discriminate; try congruence.
Qed.

Lemma matches_seq_inv s r1 r2 i k :
  matches s (Seq r1 r2) i k ->
  exists j, matches s r1 i j /\ matches s r2 j k.
Proof. intros H. inversion H; subst. eauto. Qed.

(** A text with a boxed error in a result has a [Box<dyn]. *)
Lemma boxed_error_has_box content :
  box_error_count_of content > 0 -> box_count_of content > 0.
Proof.
  unfold box_error_count_of, box_count_of. intros H.
  assert (Hne : findall box_dyn_error_pattern content <> [])
    by (destruct (findall box_dyn_error_pattern content);
        [ simpl in H; lia | discriminate ]).
  apply findall_nonempty in Hne.
  destruct (search box_dyn_error_pattern content) as [m | ] eqn:E;
    [ | congruence ].
  apply ReFacts.search_from_match_at, ReSound.match_at_sound in E.
  destruct E as [_ Hm]. unfold box_dyn_error_pattern, Seqs in Hm.
  apply matches_seq_inv in Hm. destruct Hm as [p1 [_ Hm]].
  apply matches_seq_inv in Hm. destruct Hm as [i [_ Hm]].
  apply matches_seq_inv in Hm. destruct Hm as [j [Hbox _]].
  destruct (ReSound.matches_Lits _ _ _ _ Hbox) as [Hj Hseg].
  assert (Hi : (i < length content)%nat).
  { destruct (Nat.lt_ge_cases i (length content)) as [Hlt | Hge]; [ exact Hlt | ].
    unfold seg in Hseg. rewrite skipn_all2, firstn_nil in Hseg by lia.
    discriminate. }
  assert (Hfound : findall box_dyn_pattern content <> []).
  { apply findall_nonempty. unfold search, search_at.
    apply (search_from_complete _ _ i); [ | lia | lia ].
    apply (match_at_Lits _ _ _ _ Hbox). }
  destruct (findall box_dyn_pattern content); [ congruence | simpl; lia ].
Qed.

Lemma box_loop_text p content files st :
  box_loop ((p, Text content) :: files) st
  = if box_count_of content >? 0
    then box_loop files
           {| box_dyn := box_dyn st + box_count_of content;
              box_dyn_error := box_dyn_error st + box_error_count_of content;
              files_with_box := files_with_box st ++ [box_file_of (p, content)] |}
    else box_loop files st.
Proof.
  cbn [box_loop read bind].
  fold (box_count_of content). fold (box_error_count_of content).
  destruct (Z.gtb_spec (box_count_of content) 0); [ reflexivity | ].
  destruct (Z.gtb_spec (box_error_count_of content) 0) as [Herr | ];
    [ | reflexivity ].
  pose proof (boxed_error_has_box content ltac:(lia)). lia.
Qed.

Lemma box_loop_spec files : forall st st',
  box_loop files st = Ok st' ->
  box_dyn st' = box_dyn st + sum_over box_count_of (readable files)
  /\ box_dyn_error st'
     = box_dyn_error st + sum_over box_error_count_of (readable files)
  /\ files_with_box st'
     = files_with_box st
       ++ map box_file_of
              (filter (fun pc => box_count_of (snd pc) >? 0) (readable files)).
Proof.
  induction files as [ | [p [content | e]] files IH ]; intros st st' H.
  - inversion H; subst. simpl. rewrite app_nil_r. repeat split; lia.
  - rewrite box_loop_text in H.
    cbn [readable sum_over fold_right filter snd fst].
    fold (sum_over box_count_of (readable files)).
    fold (sum_over box_error_count_of (readable files)).
    destruct (Z.gtb_spec (box_count_of content) 0) as [Hpos | Hzero].
    + apply IH in H. cbn [box_dyn box_dyn_error files_with_box] in H.
      destruct H as [Hb [He Hf]].
      split; [ lia | ]. split; [ lia | ].
      rewrite Hf, <- app_assoc. reflexivity.
    + apply IH in H. destruct H as [Hb [He Hf]].
      assert (box_count_of content = 0) by (unfold box_count_of in *; lia).
      assert (box_error_count_of content = 0).
      { destruct (Z.gtb_spec (box_error_count_of content) 0) as [Herr | Hle].
        - pose proof (boxed_error_has_box content ltac:(lia)). lia.
        - unfold box_error_count_of in *. lia. }
      split; [ lia | ]. split; [ lia | exact Hf ].
  - discriminate.
Qed.

(** When [analyze_box_usage] completes, its two counts are the sums over the
    units of the matches of the two patterns, and the files it lists are
    exactly the units in which [Box<dyn] occurs, in corpus order: a unit
    with a boxed error in a result always has one, so the second condition
    of the test never adds a file. *)
Theorem box_totals root_dir st :
  analyze_box_usage root_dir = Ok st ->
  box_dyn st = sum_over box_count_of (readable (find_rust_files root_dir))
  /\ box_dyn_error st
     = sum_over box_error_count_of (readable (find_rust_files root_dir))
  /\ files_with_box st
     = map box_file_of
           (filter (fun pc => box_count_of (snd pc) >? 0)
                   (readable (find_rust_files root_dir)))
  /\ Forall (fun b => 0 < bf_box_dyn b) (files_with_box st).
Proof.
  unfold analyze_box_usage. intros H.
  apply box_loop_spec in H. cbn [box_dyn box_dyn_error files_with_box app] in H.
  destruct H as [Hb [He Hf]].
  split; [ lia | ]. split; [ lia | ]. split; [ exact Hf | ].
  rewrite Hf. apply Forall_map. rewrite Forall_forall.
  intros pc Hpc. apply filter_In in Hpc. destruct Hpc as [_ Hpos].
  simpl. lia.
Qed.

Lemma box_totals_witness :
  exists st,
    analyze_box_usage box_corpus = Ok st
    /\ Forall (fun b => 0 < bf_box_dyn b) (files_with_box st).
Proof.
  assert (H : exists st, analyze_box_usage box_corpus = Ok st)
    by (eexists; vm_compute; reflexivity).
  destruct H as [st H]. exists st. split; [ exact H | ].
  exact (proj2 (proj2 (proj2 (box_totals box_corpus st H)))).
Defined.

End BoxFacts.

(** ** Comments in a declaration body *)

Module CommentFacts.
Import Py Re ReSpec Fs AuditTraits Spec StrSpec.

Lemma skipn_cons_nth {A} (s : list A) (i : nat) :
  skipn i s = match nth_error s i with
              | Some c => c :: skipn (S i) s
              | None => []
              end.
Proof.
  revert s. induction i as [ | i IH ]; intros [ | x s ]; simpl; auto.
Qed.

Lemma startswith_length p : forall s,
  startswith s p = true -> (length p <= length s)%nat.
Proof.
  induction p as [ | c p IH ]; intros s H; simpl in *; [ lia | ].
  destruct s as [ | d s ]; [ discriminate | ].
  apply andb_true_iff in H. destruct H as [_ H]. apply IH in H. simpl. lia.
Qed.

(** The matcher on a literal: it goes through exactly where the text starts
    with the literal. *)
Lemma mt_Lits_eq s l : forall i c k,
  mt s (Lits l) i c k
  = if startswith (skipn i s) l then k (i + length l)%nat c else None.
Proof.
  assert (Hone : forall ch i c k,
             mt s (Lit ch) i c k
             = match nth_error s i with
               | Some d => if ascii_eqb ch d then k (S i) c else None
               | None => None
               end) by reflexivity.
  induction l as [ | ch l IH ]; intros i c k.
  - simpl. rewrite Nat.add_0_r. reflexivity.
  - cbn [startswith]. rewrite (skipn_cons_nth s i).
    destruct l as [ | d l ].
    + change (Lits [ch]) with (Lit ch). rewrite Hone.
      destruct (nth_error s i) as [x | ]; [ | reflexivity ].
      simpl. rewrite andb_true_r.
      replace (i + 1)%nat with (S i) by lia. reflexivity.
    + change (Lits (ch :: d :: l)) with (Seq (Lit ch) (Lits (d :: l))).
      cbn [mt]. rewrite Hone.
      destruct (nth_error s i) as [x | ]; [ | reflexivity ].
      destruct (ascii_eqb ch x); [ | reflexivity ].
      rewrite IH. cbn [andb length].
      replace (S i + S (length l))%nat with (i + S (S (length l)))%nat by lia.
      reflexivity.
Qed.

(** On one line the greedy [.*] runs to the end of the text when the rest
    of the pattern accepts there. *)
Lemma star_dot_to_end s k res c : 
  one_line s ->
  k (length s) c = Some res ->
  forall fuel q,
    (q <= length s)%nat -> (length s - q < fuel)%nat ->
    star_loop (mt s Dot) k fuel q c = Some res.
Proof.
  intros Hline Hk.
  induction fuel as [ | fuel IH ]; intros q Hq Hf; [ lia | ].
  cbn [star_loop]. unfold Dot at 1. cbn [mt]. unfold char_at.
  destruct (nth_error s q) as [ch | ] eqn:E.
  - assert (Hlt : (q < length s)%nat) by (apply nth_error_Some; congruence).
    assert (Hch : ascii_eqb ch newline = false).
    { unfold one_line in Hline. rewrite Forall_forall in Hline.
      apply Hline. eapply nth_error_In. exact E. }
    cbn beta. rewrite Hch. cbn [negb].
    replace (q <? S q)%nat with true by (symmetry; apply Nat.ltb_lt; lia).
    rewrite IH by lia. reflexivity.
  - apply nth_error_None in E. replace q with (length s) by lia.
    rewrite Hk. reflexivity.
Qed.

Lemma match_at_comment s i :
  one_line s ->
  (i <= length s)%nat ->
  match_at s comment_pattern i
  = if startswith (skipn i s) (txt "//")
    then Some {| m_start := i; m_end := length s; m_caps := [] |}
    else None.
Proof.
  intros Hline Hi. unfold match_at, comment_pattern, Seqs.
  change (mt s (Seq (Lits (txt "//")) (Seq (Star Dot) Eol)) i [] ?k)
    with (mt s (Lits (txt "//")) i []
            (fun p c => mt s (Seq (Star Dot) Eol) p c k)).
  rewrite mt_Lits_eq.
  destruct (startswith (skipn i s) (txt "//")) eqn:E; [ | reflexivity ].
  assert (Hlen : (i + 2 <= length s)%nat).
  { apply startswith_length in E. rewrite length_skipn in E.
    change (length (txt "//")) with 2%nat in E. lia. }
  cbn [mt length txt list_ascii_of_string].
  rewrite (star_dot_to_end s _ (length s, []) []); [ reflexivity | exact Hline | | lia | lia ].
  unfold at_eol. rewrite Nat.eqb_refl. reflexivity.
Qed.

Lemma search_from_comment s fuel : forall pos,
  one_line s ->
  (pos + fuel <= S (length s))%nat ->
  search_from s comment_pattern pos fuel
  = option_map (fun p => {| m_start := p; m_end := length s; m_caps := [] |})
               (find_from (txt "//") s pos fuel).
Proof.
  induction fuel as [ | fuel IH ]; intros pos Hline Hf;
    cbn [search_from find_from].
  - reflexivity.
  - rewrite match_at_comment by (assumption || lia).
    destruct (startswith (skipn pos s) (txt "//")); [ reflexivity | ].
    apply IH; [ exact Hline | lia ].
Qed.

Lemma find_from_range sub s fuel : forall pos p,
  find_from sub s pos fuel = Some p ->
  (pos <= p < pos + fuel)%nat /\ startswith (skipn p s) sub = true.
Proof.
  induction fuel as [ | fuel IH ]; intros pos p H; simpl in H.
  - discriminate.
  - destruct (startswith (skipn pos s) sub) eqn:E.
    + inversion H; subst. split; [ lia | exact E ].
    + apply IH in H. destruct H. split; [ lia | assumption ].
Qed.

(** [re.sub] of the comment pattern on one line cuts the line at its first
    [//], and leaves a line without [//] as it is. *)
Lemma sub_comment_one_line s :
  one_line s ->
  sub_empty comment_pattern s
  = match find (txt "//") s with
    | Some p => firstn p s
    | None => s
    end.
Proof.
  intros Hline. unfold sub_empty, finditer, find.
  cbn [matches_from]. unfold search_at.
  rewrite Nat.sub_0_r, search_from_comment by (assumption || lia).
  destruct (find_from (txt "//") s 0 (S (length s))) as [p | ] eqn:E;
    cbn [option_map]; [ | reflexivity ].
  destruct (find_from_range _ _ _ _ _ E) as [Hp Hstart].
  assert (Hlen : (p + 2 <= length s)%nat).
  { apply startswith_length in Hstart. rewrite length_skipn in Hstart.
    change (length (txt "//")) with 2%nat in Hstart. lia. }
  cbn [m_start m_end].
  replace (p <? length s)%nat with true by (symmetry; apply Nat.ltb_lt; lia).
  destruct (length s) as [ | n ] eqn:En; [ lia | ].
  cbn [matches_from]. unfold search_at. rewrite <- En.
  rewrite Nat.sub_diag. cbn [search_from].
  rewrite match_at_comment by (assumption || lia).
  rewrite skipn_all. cbn [startswith txt list_ascii_of_string].
  cbn [delete_matches m_start m_end].
  rewrite skipn_all, app_nil_r, Nat.sub_0_r. reflexivity.
Qed.

(** The pieces [split] gives have no newline. *)
Lemma split_one_line s : Forall one_line (split newline s).
Proof.
  unfold one_line.
  induction s as [ | c s IH ]; simpl.
  - repeat constructor.
  - destruct (ascii_eqb c newline) eqn:E.
    + constructor; [ constructor | exact IH ].
    + destruct (split newline s) as [ | l ls ]; [ repeat constructor; exact E | ].
      inversion IH; subst. constructor; [ constructor; assumption | assumption ].
Qed.

Lemma collect_methods_names lines : forall mc ms,
  Forall one_line lines ->
  snd (collect_methods lines mc ms)
  = ms ++ flat_map (fun line => findall fn_pattern (before_comment line)) lines.
Proof.
  induction lines as [ | line lines IH ]; intros mc ms H.
  - simpl. rewrite app_nil_r. reflexivity.
  - inversion H as [ | ? ? Hline Hrest ]; subst.
    cbn [collect_methods flat_map].
    rewrite IH by exact Hrest.
    rewrite (sub_comment_one_line line Hline), <- app_assoc. reflexivity.
Qed.

Lemma Forall2_map_r {A B} (P : A -> B -> Prop) (f : A -> B) (l : list A) :
  (forall a, In a l -> P a (f a)) -> Forall2 P l (map f l).
Proof.
  induction l as [ | a l IH ]; intros H; simpl; constructor.
  - apply H. left. reflexivity.
  - apply IH. intros a' Ha'. apply H. right. exact Ha'.
Qed.

(** [extract_traits] returns one unit per header match, in the order of the
    matches, and the members it lists for a declaration are those found,
    line by line of the text the scan cut out for it, in the text before the
    first [//] of the line: a member that is only mentioned after [//] is
    neither listed nor counted.  The count is the number of members
    listed. *)
Theorem commented_members_not_counted file_path content :
  exists ts,
    extract_traits file_path (Text content) = Ok ts
    /\ Forall2
         (fun m t =>
            methods t
            = flat_map (fun line => findall fn_pattern (before_comment line))
                       (split newline (trait_body content (m_end m)))
            /\ method_count t = Z.of_nat (length (methods t)))
         (finditer trait_pattern content) ts.
Proof.
  exists (traits_of_content file_path content).
  split; [ reflexivity | ].
  unfold traits_of_content. apply Forall2_map_r. intros m _.
  pose proof (collect_methods_names
                (split newline (trait_body content (m_end m))) 0 []
                (split_one_line _)) as Hnames.
  pose proof (ExtractMore.collect_methods_in_step
                (split newline (trait_body content (m_end m))) 0 []) as Hstep.
  unfold trait_of_match.
  destruct (collect_methods _ _ _) as [mc ms]. cbn [methods method_count].
  cbn [fst snd app length] in *. split; [ exact Hnames | lia ].
Qed.

End CommentFacts.

(** ** The two [is_test_file] functions *)

Module TestFileMore.
Import Py Spec.

Lemma tests_suffix_has_tests path :
  endswith path (txt "_tests.rs") = true ->
  contains (txt "tests.rs") path = true.
Proof.
  intros H. apply PyFacts.endswith_suffix in H. destruct H as [pre ->].
  apply PyFacts.contains_substring.
  exists (pre ++ txt "_"), []. rewrite app_nil_r, <- app_assoc. reflexivity.
Qed.

(** The [is_test_file] of comprehensive_audit.py accepts every path the one
    of audit_arc_mutex.py accepts, and besides only the paths that contain
    [benches/].  In both, the test for the suffix [_tests.rs] never decides:
    such a path already contains [tests.rs]. *)
Theorem test_file_variants path :
  ComprehensiveAudit.is_test_file path
  = AuditArcMutex.is_test_file path || contains (txt "benches/") path
  /\ AuditArcMutex.is_test_file path
     = contains (txt "/tests/") path || contains (txt "/test/") path
       || endswith path (txt "_test.rs") || contains (txt "test_") path
       || contains (txt "tests.rs") path.
Proof.
  unfold ComprehensiveAudit.is_test_file, AuditArcMutex.is_test_file.
  split; [ reflexivity | ].
  pose proof (tests_suffix_has_tests path) as H.
  destruct (contains (txt "/tests/") path), (contains (txt "/test/") path),
           (endswith path (txt "_test.rs")), (endswith path (txt "_tests.rs")),
           (contains (txt "test_") path), (contains (txt "tests.rs") path);
    try reflexivity; discriminate (H eq_refl).
Qed.

End TestFileMore.

(** ** A declaration that is never closed *)

Module UnclosedMore.
Import Py Re Fs AuditTraits Spec TraitSamples.

(** When the braces of a declaration never close, [extract_traits] still
    reports it, and its body is the stripped text from the header to the
    last character but one of the file. *)
Theorem unclosed_unit_is_reported file_path content m :
  In m (finditer trait_pattern content) ->
  0 < snd (scan_braces (skipn (m_end m) content) (m_end m) 1) ->
  In (trait_of_match file_path content m) (traits_of_content file_path content)
  /\ body (trait_of_match file_path content m)
     = strip (slice content (Z.of_nat (m_end m))
                    (Z.of_nat (length content) - 1)).
Proof.
  intros Hin Hopen.
  destruct (ExtractProps.unclosed_body_runs_to_end file_path content m Hin Hopen)
    as [Hunit Hbody].
  split; [ exact Hunit | ].
  unfold trait_of_match. destruct (collect_methods _ _ _) as [mc ms].
  cbn [body]. rewrite Hbody. reflexivity.
Qed.

Lemma unclosed_unit_is_reported_witness :
  map body (traits_of_content (txt "a.rs") unclosed_text) = [txt "fn f()"].
Proof.
  pose (m := {| m_start := 0%nat; m_end := 9%nat;
                m_caps := [(2%nat, (6%nat, 7%nat)); (1%nat, (0%nat, 0%nat))] |}).
  assert (Hin : In m (finditer trait_pattern unclosed_text))
    by (vm_compute; left; reflexivity).
  assert (Hopen : 0 < snd (scan_braces (skipn (m_end m) unclosed_text)
                             (m_end m) 1))
    by (vm_compute; reflexivity).
  pose proof (proj2 (unclosed_unit_is_reported (txt "a.rs") unclosed_text m
                       Hin Hopen)) as Hbody.
  change (traits_of_content (txt "a.rs") unclosed_text)
    with (map (trait_of_match (txt "a.rs") unclosed_text)
              (finditer trait_pattern unclosed_text)).
  replace (finditer trait_pattern unclosed_text) with [m]
    by (vm_compute; reflexivity).
  cbn [map]. rewrite Hbody. vm_compute. reflexivity.
Defined.

End UnclosedMore.

(** ** Grouping and ranking in the report of audit_arc_mutex.main *)

Module ReportFacts.
Import Py Fs Spec MainSpec AuditArcMutex Analyzers AnalyzerSpec ArcReport.

Lemma str_eqb_refl a : str_eqb a a = true.
Proof. apply PyFacts.str_eqb_eq. reflexivity. Qed.

Lemma str_eqb_false a b : a <> b -> str_eqb a b = false.
Proof.
  intros H. destruct (str_eqb a b) eqn:E; [ | reflexivity ].
  apply PyFacts.str_eqb_eq in E. contradiction.
Qed.

Section Groups.
Context {V : Type} (key : V -> str).

Lemma group_add_fresh (d : list (str * list V)) k v :
  ~ In k (map fst d) -> group_add d k v = d ++ [(k, [v])].
Proof.
  induction d as [ | [k' vs] d IH ]; simpl; intros H.
  - reflexivity.
  - rewrite str_eqb_false by tauto. rewrite IH by tauto. reflexivity.
Qed.

Lemma group_add_present (d : list (str * list V)) k v :
  NoDup (map fst d) -> In k (map fst d) ->
  group_add d k v
  = map (fun kv => if str_eqb (fst kv) k then (fst kv, snd kv ++ [v]) else kv) d.
Proof.
  induction d as [ | [k' vs] d IH ]; simpl; intros Hnd Hin.
  - contradiction.
  - inversion Hnd as [ | ? ? Hnot Hnd' ]; subst.
    destruct (str_eqb k' k) eqn:E.
    + apply PyFacts.str_eqb_eq in E. subst k'. f_equal.
      symmetry. rewrite <- (map_id d) at 2. apply map_ext_in.
      intros [k0 vs0] H0. simpl.
      rewrite str_eqb_false; [ reflexivity | ].
      intros ->. apply Hnot. apply (in_map fst) in H0. exact H0.
    + f_equal. apply IH; [ exact Hnd' | ].
      destruct Hin as [-> | Hin]; [ | exact Hin ].
      rewrite str_eqb_refl in E. discriminate.
Qed.

Lemma with_key_snoc k l v :
  with_key key k (l ++ [v])
  = with_key key k l ++ (if str_eqb (key v) k then [v] else []).
Proof. unfold with_key. rewrite filter_app. reflexivity. Qed.

(** Adding an item keeps the grouping a grouping, of one item more. *)
Lemma group_add_groups l d v :
  groups_of key l d -> groups_of key (l ++ [v]) (group_add d (key v) v).
Proof.
  intros [Hnd [Hgrp Hcov]].
  destruct (in_dec (list_eq_dec Ascii.ascii_dec) (key v) (map fst d))
    as [Hin | Hnot].
  - rewrite (group_add_present d (key v) v Hnd Hin).
    split; [ | split ].
    + rewrite map_map. erewrite map_ext; [ exact Hnd | ].
      intros [k vs]. simpl. destruct (str_eqb k (key v)); reflexivity.
    + intros k vs H. apply in_map_iff in H.
      destruct H as [[k0 vs0] [Heq H0]]. simpl in Heq.
      destruct (Hgrp _ _ H0) as [Hvs Hne].
      rewrite with_key_snoc.
      destruct (str_eqb k0 (key v)) eqn:E; inversion Heq; subst.
      * apply PyFacts.str_eqb_eq in E. subst k. rewrite str_eqb_refl.
        split; [ reflexivity | ].
        intros Hnil. apply app_eq_nil in Hnil. destruct Hnil; discriminate.
      * rewrite str_eqb_false, app_nil_r.
        -- split; [ reflexivity | exact Hne ].
        -- intros Hk. rewrite Hk, str_eqb_refl in E. discriminate.
    + intros u Hu. rewrite map_map.
      erewrite map_ext with (g := fst).
      2:{ intros [k vs]. simpl. destruct (str_eqb k (key v)); reflexivity. }
      apply in_app_or in Hu. destruct Hu as [Hu | [ <- | [] ]]; auto.
  - rewrite (group_add_fresh d (key v) v Hnot).
    split; [ | split ].
    + rewrite map_app. simpl. apply NoDup_app_remove_l with (l := []).
      simpl. apply (Permutation_NoDup (l := key v :: map fst d)).
      * apply Permutation_cons_append.
      * constructor; assumption.
    + intros k vs H. apply in_app_or in H. rewrite with_key_snoc.
      destruct H as [H | [H | []]].
      * destruct (Hgrp _ _ H) as [Hvs Hne].
        rewrite str_eqb_false, app_nil_r; [ auto | ].
        intros Hk. apply Hnot. rewrite Hk. apply (in_map fst) in H. exact H.
      * inversion H; subst. rewrite str_eqb_refl.
        assert (Hempty : with_key key (key v) l = []).
        { unfold with_key. destruct (filter _ l) as [ | u us ] eqn:E;
            [ reflexivity | exfalso ].
          assert (Hu : In u (filter (fun x => str_eqb (key x) (key v)) l))
            by (rewrite E; left; reflexivity).
          apply filter_In in Hu. destruct Hu as [Hu Hk].
          apply PyFacts.str_eqb_eq in Hk. apply Hnot. rewrite <- Hk.
          apply Hcov. exact Hu. }
        rewrite Hempty. split; [ reflexivity | discriminate ].
    + intros u Hu. rewrite map_app. apply in_or_app.
      apply in_app_or in Hu. destruct Hu as [Hu | [ <- | [] ]].
      * left. apply Hcov. exact Hu.
      * right. left. reflexivity.
Qed.

Lemma group_loop_groups l : forall pre d,
  groups_of key pre d -> groups_of key (pre ++ l) (group_loop key l d).
Proof.
  induction l as [ | v l IH ]; intros pre d H; simpl.
  - rewrite app_nil_r. exact H.
  - replace (pre ++ v :: l) with ((pre ++ [v]) ++ l)
      by (rewrite <- app_assoc; reflexivity).
    apply IH, group_add_groups, H.
Qed.

(** The grouping loop gives a grouping of its input. *)
Lemma group_by_groups l : groups_of key l (group_by key l).
Proof.
  apply (group_loop_groups l [] []).
  split; [ constructor | ]. split; [ intros ? ? [] | intros ? [] ].
Qed.

Lemma group_sizes_add (d : list (str * list V)) k v :
  group_sizes (group_add d k v) = S (group_sizes d).
Proof.
  induction d as [ | [k' vs] d IH ]; simpl.
  - reflexivity.
  - destruct (str_eqb k' k); simpl.
    + rewrite length_app. simpl. lia.
    + fold (group_sizes (group_add d k v)). fold (group_sizes d). lia.
Qed.

Lemma group_sizes_loop l : forall (d : list (str * list V)),
  group_sizes (group_loop key l d) = (group_sizes d + length l)%nat.
Proof.
  induction l as [ | v l IH ]; intros d; simpl.
  - lia.
  - rewrite IH, group_sizes_add. lia.
Qed.

Lemma group_sizes_by l : group_sizes (group_by key l) = length l.
Proof. unfold group_by. rewrite group_sizes_loop. reflexivity. Qed.

(** Groups that are not empty are no more than the items. *)
Lemma groups_count (d : list (str * list V)) :
  (forall k vs, In (k, vs) d -> vs <> []) ->
  (length d <= group_sizes d)%nat.
Proof.
  induction d as [ | [k vs] d IH ]; simpl; intros H; [ lia | ].
  fold (group_sizes d).
  assert (Hvs : vs <> []) by (apply (H k); left; reflexivity).
  assert (Hd : (length d <= group_sizes d)%nat)
    by (apply IH; intros k0 vs0 Hin; apply (H k0); right; exact Hin).
  destruct vs; [ contradiction | simpl; lia ].
Qed.

Lemma touch_facts (d : list (str * list V)) k :
  group_sizes (touch d k) = group_sizes d
  /\ (forall k0, In k0 (map fst (touch d k)) <-> k0 = k \/ In k0 (map fst d))
  /\ (NoDup (map fst d) -> NoDup (map fst (touch d k))).
Proof.
  induction d as [ | [k' vs] d [IHs [IHk IHn]] ]; simpl.
  - split; [ reflexivity | ].
    split; [ intros k0; intuition (subst; auto) | ].
    intros _. repeat constructor. auto.
  - destruct (str_eqb k' k) eqn:E; simpl.
    + apply PyFacts.str_eqb_eq in E. subst k'.
      split; [ reflexivity | ].
      split; [ intros k0; intuition (subst; auto) | auto ].
    + fold (group_sizes (touch d k)). fold (group_sizes d).
      split; [ lia | ]. split.
      * intros k0. rewrite IHk. tauto.
      * intros Hnd. inversion Hnd as [ | ? ? Hnot Hnd' ]; subst.
        constructor; [ | auto ].
        rewrite IHk. intros [-> | Hin]; [ | exact (Hnot Hin) ].
        rewrite str_eqb_refl in E. discriminate.
Qed.

End Groups.

(** In the report of [audit_arc_mutex.main] the occurrences are grouped by
    file and by inner type: the keys of a grouping are distinct, each has
    the occurrences of its key in their order and at least one, no
    occurrence is left out, and the sizes of the groups add up to the number
    of occurrences. *)
Theorem report_groups (all_usages prod_usages : list usage_) :
  groups_of (fun u => file_ (fst u)) all_usages (by_file all_usages)
  /\ group_sizes (by_file all_usages) = length all_usages
  /\ groups_of (fun u => inner_type (fst u)) prod_usages (by_type prod_usages)
  /\ group_sizes (by_type prod_usages) = length prod_usages
  /\ (length (by_type prod_usages) <= length prod_usages)%nat.
Proof.
  unfold by_file, by_type.
  split; [ apply group_by_groups | ].
  split; [ apply group_sizes_by | ].
  split; [ apply group_by_groups | ].
  split; [ apply group_sizes_by | ].
  rewrite <- (group_sizes_by (fun u : usage_ => inner_type (fst u)) prod_usages).
  apply groups_count.
  intros k vs H.
  destruct (group_by_groups (fun u : usage_ => inner_type (fst u)) prod_usages)
    as [_ [Hgrp _]].
  apply (Hgrp k vs H).
Qed.

Lemma report_groups_sizes (prod_usages : list usage_) :
  (length (by_type prod_usages) <= length prod_usages)%nat.
Proof.
  unfold by_type.
  rewrite <- (group_sizes_by (fun u : usage_ => inner_type (fst u)) prod_usages).
  apply groups_count. intros k vs H.
  destruct (group_by_groups (fun u : usage_ => inner_type (fst u)) prod_usages)
    as [_ [Hgrp _]].
  apply (Hgrp k vs H).
Qed.

Lemma group_key_of_item {V} (key : V -> str) (l : list V) k :
  In k (map fst (group_by key l)) -> exists v, In v l /\ key v = k.
Proof.
  intros H. apply in_map_iff in H. destruct H as [[k0 vs] [Hk H]].
  simpl in Hk. subst k0.
  destruct (group_by_groups key l) as [_ [Hgrp _]].
  destruct (Hgrp _ _ H) as [Hvs Hne].
  destruct vs as [ | v vs ]; [ contradiction | ].
  assert (Hv : In v (with_key key k l)) by (rewrite <- Hvs; left; reflexivity).
  unfold with_key in Hv. apply filter_In in Hv. destruct Hv as [Hv Hkv].
  apply PyFacts.str_eqb_eq in Hkv. eauto.
Qed.

(** The [top_files] of the report are at most twenty, in descending order of
    count; the count of each is the number of occurrences in its file, at
    least one; and a file with occurrences that is not among them has no
    more occurrences than any of the twenty there are then. *)
Theorem top_files_ranked (r : ArcMutexMain.report) :
  (length (top_files r) <= 20)%nat
  /\ StronglySorted (fun a b => tf_count b <= tf_count a) (top_files r)
  /\ Forall (fun t =>
               1 <= tf_count t
               /\ tf_count t
                  = Z.of_nat (length (with_key (fun u : usage_ => file_ (fst u))
                                               (tf_file t)
                                               (ArcMutexMain.all_usages r)))
               /\ tf_is_test t = is_test_file (tf_file t))
            (top_files r)
  /\ (forall u, In u (ArcMutexMain.all_usages r) ->
        In (file_ (fst u)) (map tf_file (top_files r))
        \/ (length (top_files r) = 20%nat
            /\ Forall (fun t =>
                         Z.of_nat (length (with_key (fun u : usage_ => file_ (fst u))
                                                    (file_ (fst u))
                                                    (ArcMutexMain.all_usages r)))
                         <= tf_count t)
                      (top_files r))).
Proof.
  unfold top_files, sorted_files.
  set (all := ArcMutexMain.all_usages r).
  set (size := fun fu : str * list usage_ => Z.of_nat (length (snd fu))).
  change 20 with (Z.of_nat 20). rewrite OrderFacts.slice_from_start.
  destruct (group_by_groups (fun u : usage_ => file_ (fst u)) all)
    as [_ [Hgrp Hcov]]. fold (by_file all) in Hgrp, Hcov.
  pose proof (SortFacts.sorted_desc_sorted size (by_file all)) as Hsorted.
  pose proof (SortFacts.sorted_desc_perm size (by_file all)) as Hperm.
  set (sorted := sorted_desc size (by_file all)) in *.
  split; [ rewrite length_map, length_firstn; lia | ].
  split.
  { eapply OrderFacts.StronglySorted_map with (P := fun _ => True).
    - intros a b _ _ Hab. exact Hab.
    - rewrite Forall_forall. auto.
    - apply SortFacts.sorted_firstn. exact Hsorted. }
  split.
  { apply Forall_map. rewrite Forall_forall. intros [f us] Hin. cbn [tf_count tf_file tf_is_test fst snd].
    assert (Hg : In (f, us) (by_file all)).
    { apply (Permutation_in _ Hperm).
      rewrite <- (firstn_skipn 20 sorted). apply in_or_app. left. exact Hin. }
    destruct (Hgrp _ _ Hg) as [Hus Hne].
    split; [ destruct us; [ contradiction | simpl; lia ] | ].
    split; [ rewrite <- Hus; reflexivity | reflexivity ]. }
  intros u Hu.
  pose proof (Hcov u Hu) as Hk. apply in_map_iff in Hk.
  destruct Hk as [[f us] [Hf Hg]]. simpl in Hf. subst f.
  destruct (Hgrp _ _ Hg) as [Hus _].
  apply (Permutation_in _ (Permutation_sym Hperm)) in Hg.
  rewrite <- (firstn_skipn 20 sorted) in Hg. apply in_app_or in Hg.
  destruct Hg as [Hg | Hg].
  - left. rewrite map_map. cbn [tf_file].
    apply (in_map fst) in Hg. exact Hg.
  - right. split.
    + rewrite length_map, length_firstn.
      assert (length (skipn 20 sorted) <> 0)%nat
        by (destruct (skipn 20 sorted); [ contradiction | discriminate ]).
      rewrite length_skipn in *. lia.
    + apply Forall_map. rewrite Forall_forall. intros a Ha. cbn [tf_count].
      rewrite <- (firstn_skipn 20 sorted) in Hsorted.
      pose proof (SortFacts.sorted_app_ge size _ _ Hsorted a _ Ha Hg) as Hge.
      unfold size in Hge. cbn [snd] in Hge. rewrite <- Hus. exact Hge.
Qed.

Lemma sum_values_sizes (d : list (str * list usage_)) :
  sum_values (map (fun kv => (fst kv, Z.of_nat (length (snd kv)))) d)
  = Z.of_nat (group_sizes d).
Proof.
  induction d as [ | kv d IH ]; simpl; [ reflexivity | ].
  fold (group_sizes d).
  fold (sum_values (map (fun kv => (fst kv, Z.of_nat (length (snd kv)))) d)).
  rewrite IH. lia.
Qed.

(** In the summary of a completed run the total is the test count plus the
    production count; the severity table has the keys HIGH, MEDIUM and LOW,
    each once, and its counts add up to the production count; and the
    number of distinct inner types is at most the production count. *)
Theorem summary_counts root_dir r :
  ArcMutexMain.main root_dir = Ok r ->
  let sm := summary_of r in
  sm_total sm = sm_test sm + sm_production sm
  /\ Permutation (map fst (sm_by_severity sm))
                 [txt "HIGH"; txt "MEDIUM"; txt "LOW"]
  /\ sum_values (sm_by_severity sm) = sm_production sm
  /\ 0 <= sm_unique_types sm <= sm_production sm.
Proof.
  intros H sm. subst sm. unfold summary_of.
  cbn [sm_total sm_test sm_production sm_by_severity sm_unique_types].
  unfold ArcMutexMain.main in H.
  assert (Hs : split_by_test r).
  { eapply MainMore.collect_split; [ | exact H ]. split; reflexivity. }
  destruct Hs as [Ht Hp].
  set (prod := ArcMutexMain.prod_usages r) in *.
  unfold by_severity. cbv zeta.
  match goal with |- context [group_by ?f prod] => set (sev := f) end.
  destruct (group_by_groups sev prod) as [Hnd _].
  destruct (touch_facts (group_by sev prod) (txt "HIGH")) as [S1 [K1 N1]].
  destruct (touch_facts (touch (group_by sev prod) (txt "HIGH")) (txt "MEDIUM"))
    as [S2 [K2 N2]].
  destruct (touch_facts
              (touch (touch (group_by sev prod) (txt "HIGH")) (txt "MEDIUM"))
              (txt "LOW")) as [S3 [K3 N3]].
  split.
  { rewrite Ht. fold prod. rewrite Hp.
    rewrite (MainMore.filter_partition_length in_test_file
               (ArcMutexMain.all_usages r)) at 1. lia. }
  split.
  { rewrite map_map.
    change (map (fun x : str * list usage_ =>
                   fst (fst x, Z.of_nat (length (snd x)))) ?d)
      with (map fst d).
    apply NoDup_Permutation.
    - apply N3, N2, N1, Hnd.
    - repeat constructor; simpl; intuition discriminate.
    - intros k. rewrite K3, K2, K1. split.
      + intros [-> | [-> | [-> | Hin]]]; simpl; auto.
        apply group_key_of_item in Hin. destruct Hin as [v [_ Hv]].
        subst k. unfold sev. destruct (severity_ (snd v)); simpl; auto.
      + simpl. intros [<- | [<- | [<- | []]]]; auto. }
  split.
  { rewrite sum_values_sizes. f_equal.
    transitivity (group_sizes (group_by sev prod)); [ | apply group_sizes_by ].
    etransitivity; [ exact S3 | ]. etransitivity; [ exact S2 | exact S1 ]. }
  split; [ lia | ].
  apply Nat2Z.inj_le. exact (report_groups_sizes prod).
Qed.

Lemma summary_counts_witness :
  exists r,
    ArcMutexMain.main [Samples.unit_a; Samples.unit_c] = Ok r
    /\ sum_values (sm_by_severity (summary_of r)) = sm_production (summary_of r).
Proof.
  assert (H : exists r, ArcMutexMain.main [Samples.unit_a; Samples.unit_c] = Ok r)
    by (eexists; vm_compute; reflexivity).
  destruct H as [r H]. exists r. split; [ exact H | ].
  exact (proj1 (proj2 (proj2 (summary_counts _ r H)))).
Defined.

End ReportFacts.

(** ** Units the usage profiler passes over *)

Module SkipFacts.
Import Py Re Fs AuditTraits Spec.

(** [check_trait_usage] gives the same profile with and without a unit that
    cannot be read, and with and without a unit whose name does not end in
    [.rs]. *)
Theorem profile_passes_over trait_name l1 p e f l2 :
  check_trait_usage trait_name (l1 ++ (p, Bad e) :: l2)
  = check_trait_usage trait_name (l1 ++ l2)
  /\ (endswith p (txt ".rs") = false ->
      check_trait_usage trait_name (l1 ++ (p, f) :: l2)
      = check_trait_usage trait_name (l1 ++ l2)).
Proof.
  split; [ apply UsageProps.check_trait_usage_skips_bad | ].
  intros Hrs. unfold check_trait_usage, find_rust_files, rglob_rs.
  rewrite !filter_app. cbn [filter fst]. rewrite Hrs. reflexivity.
Qed.

Lemma profile_passes_over_witness :
  check_trait_usage (txt "T")
    ([Samples.unit_a] ++ (txt "/repo/notes.txt", Text (txt "impl T")) :: [Samples.unit_c])
  = check_trait_usage (txt "T") ([Samples.unit_a] ++ [Samples.unit_c]).
Proof.
  apply (proj2 (profile_passes_over (txt "T") [Samples.unit_a]
                  (txt "/repo/notes.txt") OSError (Text (txt "impl T"))
                  [Samples.unit_c])).
  vm_compute. reflexivity.
Defined.

End SkipFacts.
